(** * vue-lava-lamp: the morphing-blob background, two renderers

    A shallow embedding of [src/canvas_html.vue] (the 2D-canvas component,
    "Raster Compositor") and [src/canvas_webgl.vue] (the WebGL component,
    "Field Renderer"), and the properties their specification states.

    Numbers.  A JavaScript [Number] and a GLSL [float] are embedded as a
    real number of [R]: additions, products and comparisons are the exact
    ones, [exp], [sqrt] and [pow] are the mathematical functions.  Rounding,
    overflow, NaN and the [mediump] precision of the shader are outside the
    model.

    Host.  The browser is a record of what the components can observe of it:
    the window size, the theme flag of Quasar, the listeners registered on
    [window], the frame callbacks waiting for the next refresh, the console
    and the sequence of values [Math.random] is going to return. *)

From Stdlib Require Import Reals Lra Psatz List String ZArith Bool Arith Lia.
Import ListNotations.
Open Scope R_scope.

(** ** Shared vocabulary *)

(** A JS object literal [{ x: .., y: .. }]: the pointer and a 2D velocity. *)
Record Point : Type := mkPoint { px : R; py : R }.

(** The two functions the components hand to [window.addEventListener]. *)
Inductive Handler : Type := ResizeCanvas | OnMouseMove.

Definition Handler_eqb (a b : Handler) : bool :=
  match a, b with
  | ResizeCanvas, ResizeCanvas => true
  | OnMouseMove, OnMouseMove => true
  | _, _ => false
  end.

Definition Listener : Type := (string * Handler)%type.

Definition Listener_eqb (a b : Listener) : bool :=
  String.eqb (fst a) (fst b) && Handler_eqb (snd a) (snd b).

(** [window.addEventListener(type, f)]: a pair already registered is not
    registered twice. *)
Definition addEventListener (l : Listener) (ls : list Listener) : list Listener :=
  if existsb (Listener_eqb l) ls then ls else ls ++ [l].

(** [window.removeEventListener(type, f)]. *)
Definition removeEventListener (l : Listener) (ls : list Listener) : list Listener :=
  filter (fun k => negb (Listener_eqb l k)) ls.

Definition listening (l : Listener) (ls : list Listener) : bool :=
  existsb (Listener_eqb l) ls.

(** The queue of frame requests after [cancelAnimationFrame(id)]; [None]
    is the [undefined] of a variable never assigned, which cancels nothing. *)
Definition cancelRequest (id : option nat) (q : list nat) : list nat :=
  match id with
  | None => q
  | Some i => filter (fun r => negb (Nat.eqb r i)) q
  end.

(** What the host sends to a mounted component. *)
Inductive Event : Type :=
| Resize (w h : R)            (* the window takes a new inner size *)
| MouseMove (clientX clientY : R)
| Frame                       (* the display refreshes *)
| SetDark (b : bool)          (* the theme is switched *)
| Unmount.                    (* Vue tears the component down *)

(** The browser, as far as the components observe it. *)
Record Host : Type := mkHost {
  innerWidth : R;                            (* [window.innerWidth] *)
  innerHeight : R;
  darkIsActive : bool;                       (* [$q.dark.isActive] *)
  webgl : bool;                              (* [getContext("webgl")] is not null *)
  linkStatus : bool;                         (* [LINK_STATUS] of the shader program *)
  programInfoLog : string;
  listeners : list Listener;                 (* registered on [window] *)
  frameRequests : list nat;                  (* ids of the frame requests waiting *)
  nextRequestId : nat;
  random : nat -> R;                         (* the k-th value of [Math.random()] *)
  randomCalls : nat;
  console : list string;                     (* [console.error] lines, oldest first *)
  unmountHook : bool                         (* [onUnmounted] was registered *)
}.

Definition setInnerSize (w h : R) (b : Host) : Host :=
  {| innerWidth := w; innerHeight := h; darkIsActive := darkIsActive b;
     webgl := webgl b; linkStatus := linkStatus b;
     programInfoLog := programInfoLog b; listeners := listeners b;
     frameRequests := frameRequests b; nextRequestId := nextRequestId b;
     random := random b; randomCalls := randomCalls b; console := console b;
     unmountHook := unmountHook b |}.

Definition setDarkIsActive (d : bool) (b : Host) : Host :=
  {| innerWidth := innerWidth b; innerHeight := innerHeight b; darkIsActive := d;
     webgl := webgl b; linkStatus := linkStatus b;
     programInfoLog := programInfoLog b; listeners := listeners b;
     frameRequests := frameRequests b; nextRequestId := nextRequestId b;
     random := random b; randomCalls := randomCalls b; console := console b;
     unmountHook := unmountHook b |}.

Definition setListeners (ls : list Listener) (b : Host) : Host :=
  {| innerWidth := innerWidth b; innerHeight := innerHeight b;
     darkIsActive := darkIsActive b; webgl := webgl b; linkStatus := linkStatus b;
     programInfoLog := programInfoLog b; listeners := ls;
     frameRequests := frameRequests b; nextRequestId := nextRequestId b;
     random := random b; randomCalls := randomCalls b; console := console b;
     unmountHook := unmountHook b |}.

Definition setFrameRequests (q : list nat) (next : nat) (b : Host) : Host :=
  {| innerWidth := innerWidth b; innerHeight := innerHeight b;
     darkIsActive := darkIsActive b; webgl := webgl b; linkStatus := linkStatus b;
     programInfoLog := programInfoLog b; listeners := listeners b;
     frameRequests := q; nextRequestId := next;
     random := random b; randomCalls := randomCalls b; console := console b;
     unmountHook := unmountHook b |}.

Definition setRandomCalls (k : nat) (b : Host) : Host :=
  {| innerWidth := innerWidth b; innerHeight := innerHeight b;
     darkIsActive := darkIsActive b; webgl := webgl b; linkStatus := linkStatus b;
     programInfoLog := programInfoLog b; listeners := listeners b;
     frameRequests := frameRequests b; nextRequestId := nextRequestId b;
     random := random b; randomCalls := k; console := console b;
     unmountHook := unmountHook b |}.

Definition consoleError (line : string) (b : Host) : Host :=
  {| innerWidth := innerWidth b; innerHeight := innerHeight b;
     darkIsActive := darkIsActive b; webgl := webgl b; linkStatus := linkStatus b;
     programInfoLog := programInfoLog b; listeners := listeners b;
     frameRequests := frameRequests b; nextRequestId := nextRequestId b;
     random := random b; randomCalls := randomCalls b;
     console := console b ++ [line]; unmountHook := unmountHook b |}.

Definition registerUnmountHook (b : Host) : Host :=
  {| innerWidth := innerWidth b; innerHeight := innerHeight b;
     darkIsActive := darkIsActive b; webgl := webgl b; linkStatus := linkStatus b;
     programInfoLog := programInfoLog b; listeners := listeners b;
     frameRequests := frameRequests b; nextRequestId := nextRequestId b;
     random := random b; randomCalls := randomCalls b; console := console b;
     unmountHook := true |}.

(** [requestAnimationFrame(f)]: the request is queued under a fresh id,
    which is returned.  A component only ever passes its one frame function,
    so the queue holds the ids alone. *)
Definition requestAnimationFrame (b : Host) : nat * Host :=
  (nextRequestId b,
   setFrameRequests (frameRequests b ++ [nextRequestId b])
                    (S (nextRequestId b)) b).

(** [for (let i = lo; i < hi; i++) body], over an accumulator. *)
Definition forRange {A : Type} (lo hi : nat) (body : nat -> A -> A) (a : A) : A :=
  fold_left (fun acc i => body i acc) (seq lo (hi - lo)) a.

(** [n] applications of [f]. *)
Fixpoint iterate {A : Type} (n : nat) (f : A -> A) (a : A) : A :=
  match n with
  | O => a
  | S k => f (iterate k f a)
  end.

(** ** src/canvas_html.vue *)

Module Html.

(** The part of a [CanvasRenderingContext2D] the component touches. *)
Inductive Gradient : Type :=
| LinearGradient (x0 y0 x1 y1 : R) (stops : list (R * string))
| RadialGradient (x0 y0 r0 x1 y1 r1 : R) (stops : list (R * string)).

Inductive Paint : Type :=
| ClearRect (x y w h : R)
| FillRect (fill : option Gradient) (x y w h : R)
| FillArc (filter compositeOp : string) (fill : option Gradient)
          (cx cy r startAngle endAngle : R).

(** A drawing call as the canvas received it; [DrawImage] carries what the
    source canvas held at that moment and the composite mode in force. *)
Inductive DrawOp : Type :=
| Painted (p : Paint)
| DrawImage (compositeOp : string) (source : list Paint) (dx dy : R).

Definition paints (ops : list DrawOp) : list Paint :=
  flat_map (fun op => match op with
                      | Painted p => [p]
                      | DrawImage _ source _ _ => source
                      end) ops.

Record Context2D : Type := mkContext2D {
  filter : string;
  globalCompositeOperation : string;
  fillStyle : option Gradient;
  drawn : list DrawOp            (* what was drawn, oldest first *)
}.

Definition freshContext : Context2D :=
  {| filter := "none"; globalCompositeOperation := "source-over";
     fillStyle := None; drawn := [] |}.

Definition setFilter (f : string) (c : Context2D) : Context2D :=
  {| filter := f; globalCompositeOperation := globalCompositeOperation c;
     fillStyle := fillStyle c; drawn := drawn c |}.

Definition setCompositeOperation (m : string) (c : Context2D) : Context2D :=
  {| filter := filter c; globalCompositeOperation := m;
     fillStyle := fillStyle c; drawn := drawn c |}.

Definition setFillStyle (g : Gradient) (c : Context2D) : Context2D :=
  {| filter := filter c; globalCompositeOperation := globalCompositeOperation c;
     fillStyle := Some g; drawn := drawn c |}.

Definition emit (op : DrawOp) (c : Context2D) : Context2D :=
  {| filter := filter c; globalCompositeOperation := globalCompositeOperation c;
     fillStyle := fillStyle c; drawn := drawn c ++ [op] |}.

Definition clearRect (x y w h : R) (c : Context2D) : Context2D :=
  emit (Painted (ClearRect x y w h)) c.

Definition fillRect (x y w h : R) (c : Context2D) : Context2D :=
  emit (Painted (FillRect (fillStyle c) x y w h)) c.

(** [beginPath(); arc(cx, cy, r, a0, a1, false); fill()]. *)
Definition fillArc (cx cy r a0 a1 : R) (c : Context2D) : Context2D :=
  emit (Painted (FillArc (filter c) (globalCompositeOperation c) (fillStyle c)
                         cx cy r a0 a1)) c.

Definition drawImage (source : Context2D) (dx dy : R) (c : Context2D) : Context2D :=
  emit (DrawImage (globalCompositeOperation c) (paints (drawn source)) dx dy) c.

(** [class Circle]. *)
Module Circle.

Record t : Type := new {
  x : R;
  y : R;
  radius : R;
  color : option string;       (* [None]: [undefined], an index off the palette *)
  velocity : Point;
  isInteractive : bool
}.

Definition set_x (v : R) (c : t) : t :=
  {| x := v; y := y c; radius := radius c; color := color c;
     velocity := velocity c; isInteractive := isInteractive c |}.

Definition set_y (v : R) (c : t) : t :=
  {| x := x c; y := v; radius := radius c; color := color c;
     velocity := velocity c; isInteractive := isInteractive c |}.

(** The four statements of the boundary detection. *)
Definition pastRight (width : R) (this : t) : t :=
  if Rgt_dec (x this - radius this) width then set_x (- radius this) this else this.

Definition pastLeft (width : R) (this : t) : t :=
  if Rlt_dec (x this + radius this) 0 then set_x (width + radius this) this else this.

Definition pastBottom (height : R) (this : t) : t :=
  if Rgt_dec (y this - radius this) height then set_y (- radius this) this else this.

Definition pastTop (height : R) (this : t) : t :=
  if Rlt_dec (y this + radius this) 0 then set_y (height + radius this) this else this.

(** [update()], statement by statement; [width] and [height] are the
    variables of the enclosing closure, read when the method runs. *)
Definition update (width height : R) (this : t) : t :=
  let this := set_x (x this + px (velocity this)) this in
  let this := set_y (y this + py (velocity this)) this in
  let this := pastRight width this in
  let this := pastLeft width this in
  let this := pastBottom height this in
  let this := pastTop height this in
  this.

(** The template literal [`rgba(${this.color}, a)`]. *)
Definition rgba (col : option string) (alpha : string) : string :=
  ("rgba(" ++ match col with Some s => s | None => "undefined" end
           ++ ", " ++ alpha ++ ")")%string.

(** [draw(context)]. *)
Definition draw (this : t) (context : Context2D) : Context2D :=
  let gradient :=
    RadialGradient (x this) (y this) 0 (x this) (y this) (radius this)
      [(0, rgba (color this) "1"); (1, rgba (color this) "0")] in
  let context := setFillStyle gradient context in
  fillArc (x this) (y this) (radius this) 0 (PI * 2) context.

End Circle.

(** The host, the two 2D contexts and the variables of the [onMounted]
    closure.  Both canvases always have the size [width] x [height]: every
    assignment to them is chained with the one to these two variables. *)
Record World : Type := mkWorld {
  host : Host;
  ctx : Context2D;
  offCtx : Context2D;
  width : R;
  height : R;
  circles : list Circle.t;
  animationFrameId : option nat;
  mouse : Point
}.

(** The palette of [init]. *)
Definition colors : list string :=
  [ "18, 113, 255"; "221, 74, 255"; "100, 220, 255";
    "200, 50, 50"; "180, 180, 50"; "140, 100, 255" ]%string.

(** One round of the loop of [init], on the array being filled and the
    number of [Math.random()] calls made so far. *)
Definition initBody (rnd : nat -> R) (width height : R) (i : nat)
    (st : list Circle.t * nat) : list Circle.t * nat :=
  let '(circles, k) := st in
  let radius := (width + height) * 0.2 in
  let x := rnd k * width in
  let y := rnd (k + 1)%nat * height in
  let speedMultiplier := rnd (k + 2)%nat * 4 + 1 in
  let velocity :=
    {| px := (rnd (k + 3)%nat - 0.5) * speedMultiplier;
       py := (rnd (k + 4)%nat - 0.5) * speedMultiplier |} in
  (circles ++ [Circle.new x y radius (nth_error colors i) velocity false],
   (k + 5)%nat).

Definition withHost (h : Host) (w : World) : World :=
  {| host := h; ctx := ctx w; offCtx := offCtx w; width := width w;
     height := height w; circles := circles w;
     animationFrameId := animationFrameId w; mouse := mouse w |}.

(** [init()]. *)
Definition init (w : World) : World :=
  let '(circles, k) :=
    forRange 0 5 (initBody (random (host w)) (width w) (height w))
             ([], randomCalls (host w)) in
  let interactiveCircle :=
    Circle.new (width w / 2) (height w / 2) ((width w + height w) * 0.1)
               (nth_error colors 5) {| px := 0; py := 0 |} true in
  {| host := setRandomCalls k (host w); ctx := ctx w; offCtx := offCtx w;
     width := width w; height := height w;
     circles := circles ++ [interactiveCircle];
     animationFrameId := animationFrameId w; mouse := mouse w |}.

(** The body of the [forEach] of [animate], for the position of a circle. *)
Definition move (mouse : Point) (width height : R) (circle : Circle.t) : Circle.t :=
  if Circle.isInteractive circle then
    let circle := Circle.set_x
      (Circle.x circle + (px mouse - Circle.x circle) * 0.1) circle in
    Circle.set_y (Circle.y circle + (py mouse - Circle.y circle) * 0.1) circle
  else Circle.update width height circle.

(** [circles.forEach(...)] of [animate]: every circle is moved in place and
    then drawn on the off-screen context. *)
Fixpoint forEachCircle (mouse : Point) (width height : R)
    (cs : list Circle.t) (offCtx : Context2D) : list Circle.t * Context2D :=
  match cs with
  | [] => ([], offCtx)
  | circle :: rest =>
      let circle := move mouse width height circle in
      let offCtx := Circle.draw circle offCtx in
      let '(rest, offCtx) := forEachCircle mouse width height rest offCtx in
      (circle :: rest, offCtx)
  end.

Definition blurMode (darkIsActive : bool) : string :=
  if negb darkIsActive then "blur(80px)" else "blur(40px)".

Definition lightMode (darkIsActive : bool) : string :=
  if negb darkIsActive then "lighter" else "hue".

(** [animate()]. *)
Definition animate (w : World) : World :=
  let width := width w in
  let height := height w in
  let ctx := clearRect 0 0 width height (ctx w) in
  let bgGradient :=
    LinearGradient 0 0 width height
      [(0, "rgb(108, 0, 162)"%string); (1, "rgb(0, 17, 82)"%string)] in
  let ctx := setFillStyle bgGradient ctx in
  let ctx := fillRect 0 0 width height ctx in
  let offCtx := clearRect 0 0 width height (offCtx w) in
  let offCtx := setFilter (blurMode (darkIsActive (host w))) offCtx in
  let offCtx := setCompositeOperation "source-over" offCtx in
  let '(circles, offCtx) :=
    forEachCircle (mouse w) width height (circles w) offCtx in
  let ctx := setCompositeOperation (lightMode (darkIsActive (host w))) ctx in
  let ctx := drawImage offCtx 0 0 ctx in
  let ctx := setCompositeOperation "source-over" ctx in
  let '(id, host) := requestAnimationFrame (host w) in
  {| host := host; ctx := ctx; offCtx := offCtx; width := width;
     height := height; circles := circles; animationFrameId := Some id;
     mouse := mouse w |}.

(** [resizeCanvas()], run by the host after it changed the window size.
    Assigning the size of a canvas blanks it and resets its context. *)
Definition resizeCanvas (w : World) : World :=
  init {| host := host w; ctx := freshContext; offCtx := freshContext;
          width := innerWidth (host w); height := innerHeight (host w);
          circles := circles w; animationFrameId := animationFrameId w;
          mouse := mouse w |}.

(** [onMouseMove(event)]. *)
Definition onMouseMove (clientX clientY : R) (w : World) : World :=
  {| host := host w; ctx := ctx w; offCtx := offCtx w; width := width w;
     height := height w; circles := circles w;
     animationFrameId := animationFrameId w;
     mouse := {| px := clientX; py := clientY |} |}.

(** The function given to [onUnmounted]. *)
Definition onUnmounted (w : World) : World :=
  let h := host w in
  let h := setListeners (removeEventListener ("resize"%string, ResizeCanvas) (listeners h)) h in
  let h := setListeners (removeEventListener ("mousemove"%string, OnMouseMove) (listeners h)) h in
  let h := setFrameRequests (cancelRequest (animationFrameId w) (frameRequests h))
                            (nextRequestId h) h in
  withHost h w.

(** The function given to [onMounted], on the host it finds. *)
Definition onMounted (h : Host) : World :=
  let width := innerWidth h in
  let height := innerHeight h in
  let h := setListeners (addEventListener ("resize"%string, ResizeCanvas) (listeners h)) h in
  let mouse := {| px := width / 2; py := height / 2 |} in
  let h := setListeners (addEventListener ("mousemove"%string, OnMouseMove) (listeners h)) h in
  let w := {| host := h; ctx := freshContext; offCtx := freshContext;
              width := width; height := height; circles := [];
              animationFrameId := None; mouse := mouse |} in
  let w := init w in
  let w := animate w in
  withHost (registerUnmountHook (host w)) w.

(** The host runs the frame requests that were waiting; those made
    meanwhile wait for the next refresh. *)
Definition frame (w : World) : World :=
  let waiting := frameRequests (host w) in
  let w := withHost (setFrameRequests [] (nextRequestId (host w)) (host w)) w in
  fold_left (fun w _ => animate w) waiting w.

(** One event of the host, delivered to whatever is still registered. *)
Definition dispatch (w : World) (e : Event) : World :=
  match e with
  | Resize iw ih =>
      let w := withHost (setInnerSize iw ih (host w)) w in
      if listening ("resize"%string, ResizeCanvas) (listeners (host w))
      then resizeCanvas w else w
  | MouseMove clientX clientY =>
      if listening ("mousemove"%string, OnMouseMove) (listeners (host w))
      then onMouseMove clientX clientY w else w
  | Frame => frame w
  | SetDark b => withHost (setDarkIsActive b (host w)) w
  | Unmount => if unmountHook (host w) then onUnmounted w else w
  end.

Definition run (w : World) (es : list Event) : World := fold_left dispatch es w.

End Html.

(** ** src/canvas_webgl.vue *)

Module Webgl.

(** A GLSL [vec3], and the three-element arrays of [circleColors]. *)
Record Vec3 : Type := vec3 { v_r : R; v_g : R; v_b : R }.

Definition vadd (a b : Vec3) : Vec3 :=
  vec3 (v_r a + v_r b) (v_g a + v_g b) (v_b a + v_b b).

Definition vscale (a : Vec3) (k : R) : Vec3 :=
  vec3 (v_r a * k) (v_g a * k) (v_b a * k).

Definition vdiv (a : Vec3) (k : R) : Vec3 :=
  vec3 (v_r a / k) (v_g a / k) (v_b a / k).

(** GLSL built-ins. *)
Definition mix (a b : Vec3) (t : R) : Vec3 :=
  vadd (vscale a (1 - t)) (vscale b t).

Definition clamp (v lo hi : R) : R := Rmin (Rmax v lo) hi.

(** [length] of a [vec2]. *)
Definition length2 (v : R * R) : R := sqrt (fst v * fst v + snd v * snd v).

(** [pow(b, e)]; GLSL leaves it undefined for [b < 0], where this is [0]. *)
Definition pow (b e : R) : R := if Rlt_dec 0 b then Rpower b e else 0.

Definition circleColors : list Vec3 :=
  [ vec3 (18 / 255) (113 / 255) 1.0;
    vec3 (221 / 255) (74 / 255) 1.0;
    vec3 (100 / 255) (220 / 255) 1.0;
    vec3 (200 / 255) (50 / 255) (50 / 255);
    vec3 (180 / 255) (180 / 255) (50 / 255);
    vec3 (140 / 255) (100 / 255) 1.0 ].

(** The object literals pushed on [circles]. *)
Module Circle.

Record t : Type := new {
  x : R;
  y : R;
  radius : R;
  color : option Vec3;         (* [None]: [undefined], an index off the palette *)
  vx : R;
  vy : R;
  interactive : bool
}.

Definition set_x (v : R) (c : t) : t :=
  {| x := v; y := y c; radius := radius c; color := color c;
     vx := vx c; vy := vy c; interactive := interactive c |}.

Definition set_y (v : R) (c : t) : t :=
  {| x := x c; y := v; radius := radius c; color := color c;
     vx := vx c; vy := vy c; interactive := interactive c |}.

End Circle.

(** The uniforms of the fragment shader, as [render] uploads them: the two
    arrays are the flat [Float32Array]s, three numbers a slot. *)
Record Uniforms : Type := mkUniforms {
  u_resolution : R * R;
  u_darkMode : Z;              (* [uniform1i]; the shader reads a [bool] *)
  u_circleCount : Z;
  u_circlesColor : list R;
  u_circlesPosRad : list R;
  u_mouse : R * R
}.

Definition noUniforms : Uniforms :=
  {| u_resolution := (0, 0); u_darkMode := 0%Z; u_circleCount := 0%Z;
     u_circlesColor := []; u_circlesPosRad := []; u_mouse := (0, 0) |}.

(** Element [i] of a [uniform vec3 a[6]] backed by a flat array; a
    component never uploaded reads as [0]. *)
Definition vec3At (a : list R) (i : nat) : Vec3 :=
  vec3 (nth (3 * i) a 0) (nth (3 * i + 1) a 0) (nth (3 * i + 2) a 0).

(** A [bool] uniform set through [uniform1i]: zero is [false]. *)
Definition asBool (z : Z) : bool := negb (Z.eqb z 0).

(** *** The vertex shader *)

(** [main] of the vertex shader at the attribute [a_position]: the
    varying [v_uv] and [gl_Position].  The shader is affine in
    [a_position], so the value of [v_uv] interpolated at a point of a
    triangle is the shader's value at that point. *)
Definition vertex (a_position : R * R) : (R * R) * (R * R * R * R) :=
  let v_uv := (fst a_position * 0.5 + 0.5, snd a_position * 0.5 + 0.5) in
  let v_uv := (fst v_uv, 1.0 - snd v_uv) in
  (v_uv, (fst a_position, snd a_position, 0.0, 1.0)).

(** The six corners of the two triangles of the full-screen quad. *)
Definition vertices : list (R * R) :=
  [(-1, -1); (1, -1); (-1, 1); (-1, 1); (1, -1); (1, 1)].

(** *** The fragment shader *)

(** [for (...) { if (stop) { break; } body }] over the given indices. *)
Fixpoint forBreak {A : Type} (idx : list nat) (stop : nat -> bool)
    (body : nat -> A -> A) (a : A) : A :=
  match idx with
  | [] => a
  | i :: rest => if stop i then a else forBreak rest stop body (body i a)
  end.

Definition stopAt (u : Uniforms) (i : nat) : bool :=
  (u_circleCount u <=? Z.of_nat i)%Z.

(** The denominator [2.0 * sigma * sigma] of slot [i]. *)
Definition denominator (u : Uniforms) (i : nat) : R :=
  let posRad := vec3At (u_circlesPosRad u) i in
  let radius := v_b posRad in
  let sigma := radius * 0.5 in
  2.0 * sigma * sigma.

(** The body of the loop at slot [i], on [(fieldSum, weightedColorSum)]. *)
Definition slot (u : Uniforms) (st : R * R) (i : nat) (acc : R * Vec3) : R * Vec3 :=
  let '(fieldSum, weightedColorSum) := acc in
  let posRad := vec3At (u_circlesPosRad u) i in
  let cPos := (v_r posRad, v_g posRad) in
  let radius := v_b posRad in
  let dist := length2 (fst st - fst cPos, snd st - snd cPos) in
  let sigma := radius * 0.5 in
  let val := exp ((- (dist * dist)) / (2.0 * sigma * sigma)) in
  (fieldSum + val, vadd weightedColorSum (vscale (vec3At (u_circlesColor u) i) val)).

(** The field accumulation loop. *)
Definition accumulate (u : Uniforms) (st : R * R) : R * Vec3 :=
  forBreak (seq 0 6) (stopAt u) (slot u st) (0, vec3 0 0 0).

(** The slots at which the body of that loop runs, in order. *)
Definition visited (u : Uniforms) : list nat :=
  forBreak (seq 0 6) (stopAt u) (fun i seen => seen ++ [i]) [].

Definition finalCirclesColor (acc : R * Vec3) : Vec3 :=
  let '(fieldSum, weightedColorSum) := acc in
  if Rgt_dec fieldSum 0 then vdiv weightedColorSum fieldSum else vec3 0 0 0.

(** The two arms of the theme branch, each as it is written. *)
Inductive Arm : Type := LightArm | DarkArm.

Definition armColor (a : Arm) (bgColor finalCircles : Vec3) (intensity : R) : Vec3 :=
  match a with
  | LightArm => mix bgColor finalCircles (clamp intensity 0.0 1.0)
  | DarkArm => mix bgColor finalCircles (clamp intensity 0.0 1.0)
  end.

(** [if (!u_darkMode) ... else ...]. *)
Definition arm (u : Uniforms) : Arm :=
  if negb (asBool (u_darkMode u)) then LightArm else DarkArm.

Definition bgColor (u : Uniforms) (st : R * R) : Vec3 :=
  let topColor := vec3 (108.0 / 255.0) 0.0 (162.0 / 255.0) in
  let bottomColor := vec3 0.0 (17.0 / 255.0) (82.0 / 255.0) in
  mix topColor bottomColor (snd st / snd (u_resolution u)).

(** [main] of the fragment shader: [gl_FragColor] at the varying [v_uv]. *)
Definition fragment (u : Uniforms) (v_uv : R * R) : Vec3 * R :=
  let st := (fst v_uv * fst (u_resolution u), snd v_uv * snd (u_resolution u)) in
  let acc := accumulate u st in
  let intensity := pow (fst acc) 1.4 in
  let finalColor := armColor (arm u) (bgColor u st) (finalCirclesColor acc) intensity in
  (finalColor, 1.0).

(** *** The component *)

(** The part of the WebGL context the component drives. *)
Record GL : Type := mkGL {
  linked : bool;               (* the program linked, its uniforms exist *)
  viewport : R * R;            (* width and height of [gl.viewport(0, 0, w, h)] *)
  uniforms : Uniforms;
  frames : list Uniforms       (* one entry a [drawArrays], oldest first *)
}.

Definition setViewport (w h : R) (g : GL) : GL :=
  {| linked := linked g; viewport := (w, h); uniforms := uniforms g;
     frames := frames g |}.

(** A [gl.uniform*] call: without a linked program the location is null
    and the call does nothing. *)
Definition setUniforms (f : Uniforms -> Uniforms) (g : GL) : GL :=
  {| linked := linked g; viewport := viewport g;
     uniforms := if linked g then f (uniforms g) else uniforms g;
     frames := frames g |}.

(** [gl.drawArrays(gl.TRIANGLES, 0, 6)]: the quad covers the canvas, so the
    picture is [fragment] of the uniforms in force; nothing is drawn
    without a linked program. *)
Definition drawArrays (g : GL) : GL :=
  {| linked := linked g; viewport := viewport g; uniforms := uniforms g;
     frames := if linked g then frames g ++ [uniforms g] else frames g |}.

(** The variables of the [onMounted] closure, which exist once the context
    was obtained. *)
Record Closure : Type := mkClosure {
  gl : GL;
  width : R;
  height : R;
  mouse : Point;
  circles : list Circle.t
}.

Record World : Type := mkWorld {
  host : Host;
  closure : option Closure     (* [None]: [onMounted] returned at its first test *)
}.

(** One round of the loop of [initCircles], on the array being filled and
    the number of [Math.random()] calls made so far. *)
Definition initBody (rnd : nat -> R) (width height baseRadius : R) (i : nat)
    (st : list Circle.t * nat) : list Circle.t * nat :=
  let '(circles, k) := st in
  let radius := baseRadius in
  let x := rnd k * width in
  let y := rnd (k + 1)%nat * height in
  let speedMultiplier := rnd (k + 2)%nat * 4 + 1 in
  let vx := (rnd (k + 3)%nat - 0.5) * speedMultiplier in
  let vy := (rnd (k + 4)%nat - 0.5) * speedMultiplier in
  (circles ++ [Circle.new x y radius (nth_error circleColors i) vx vy false],
   (k + 5)%nat).

(** [initCircles()]: the new [circles] and the advanced call counter. *)
Definition initCircles (rnd : nat -> R) (k : nat) (width height : R)
    : list Circle.t * nat :=
  let baseRadius := (width + height) * 0.2 in
  let '(circles, k) :=
    forRange 0 5 (initBody rnd width height baseRadius) ([], k) in
  let interactiveRadius := (width + height) * 0.1 in
  (circles ++ [Circle.new (width / 2) (height / 2) interactiveRadius
                          (nth_error circleColors 5) 0 0 true], k).

(** The four statements of the wrap around the screen. *)
Definition pastRight (width : R) (c : Circle.t) : Circle.t :=
  if Rgt_dec (Circle.x c - Circle.radius c) width
  then Circle.set_x (- Circle.radius c) c else c.

Definition pastLeft (width : R) (c : Circle.t) : Circle.t :=
  if Rlt_dec (Circle.x c + Circle.radius c) 0
  then Circle.set_x (width + Circle.radius c) c else c.

Definition pastBottom (height : R) (c : Circle.t) : Circle.t :=
  if Rgt_dec (Circle.y c - Circle.radius c) height
  then Circle.set_y (- Circle.radius c) c else c.

Definition pastTop (height : R) (c : Circle.t) : Circle.t :=
  if Rlt_dec (Circle.y c + Circle.radius c) 0
  then Circle.set_y (height + Circle.radius c) c else c.

(** The body of the loop of [updateCircles]. *)
Definition updateCircle (mouse : Point) (width height : R) (c : Circle.t) : Circle.t :=
  if negb (Circle.interactive c) then
    let c := Circle.set_x (Circle.x c + Circle.vx c) c in
    let c := Circle.set_y (Circle.y c + Circle.vy c) c in
    let c := pastRight width c in
    let c := pastLeft width c in
    let c := pastBottom height c in
    let c := pastTop height c in
    c
  else
    let c := Circle.set_x (Circle.x c + (px mouse - Circle.x c) * 0.1) c in
    Circle.set_y (Circle.y c + (py mouse - Circle.y c) * 0.1) c.

(** [updateCircles()]: every element is updated in place. *)
Definition updateCircles (mouse : Point) (width height : R)
    (circles : list Circle.t) : list Circle.t :=
  map (updateCircle mouse width height) circles.

(** One round of the packing loop of [render], on [(colorsArr, posRadArr)];
    [None] once [c.color[0]] was read off an undefined colour, which throws. *)
Definition packBody (circles : list Circle.t) (i : nat)
    (acc : option (list R * list R)) : option (list R * list R) :=
  match acc with
  | None => None
  | Some (colorsArr, posRadArr) =>
      if (i <? List.length circles)%nat then
        match nth_error circles i with
        | Some c =>
            match Circle.color c with
            | Some col =>
                Some (colorsArr ++ [v_r col; v_g col; v_b col],
                      posRadArr ++ [Circle.x c; Circle.y c; Circle.radius c])
            | None => None
            end
        | None => None
        end
      else Some (colorsArr ++ [0; 0; 0], posRadArr ++ [0; 0; 0])
  end.

Definition pack (circles : list Circle.t) : option (list R * list R) :=
  forRange 0 6 (packBody circles) (Some ([], [])).

(** [render()]; the flag tells whether it ran to its end. *)
Definition render (h : Host) (c : Closure) : Host * Closure * bool :=
  let circles := updateCircles (mouse c) (width c) (height c) (circles c) in
  let g := setViewport (width c) (height c) (gl c) in
  let g := setUniforms (fun u =>
    {| u_resolution := (width c, height c);
       u_darkMode := if darkIsActive h then 1%Z else 0%Z;
       u_circleCount := Z.of_nat (List.length circles);
       u_circlesColor := u_circlesColor u;
       u_circlesPosRad := u_circlesPosRad u;
       u_mouse := (px (mouse c), py (mouse c)) |}) g in
  match pack circles with
  | None =>
      (h, {| gl := g; width := width c; height := height c;
             mouse := mouse c; circles := circles |}, false)
  | Some (colorsArr, posRadArr) =>
      let g := setUniforms (fun u =>
        {| u_resolution := u_resolution u; u_darkMode := u_darkMode u;
           u_circleCount := u_circleCount u;
           u_circlesColor := colorsArr; u_circlesPosRad := posRadArr;
           u_mouse := u_mouse u |}) g in
      let g := drawArrays g in
      let '(_, h) := requestAnimationFrame h in
      (h, {| gl := g; width := width c; height := height c;
             mouse := mouse c; circles := circles |}, true)
  end.

(** [resizeCanvas()], run by the host after it changed the window size. *)
Definition resizeCanvas (h : Host) (c : Closure) : Closure :=
  {| gl := setViewport (innerWidth h) (innerHeight h) (gl c);
     width := innerWidth h; height := innerHeight h;
     mouse := mouse c; circles := circles c |}.

(** [onMouseMove(e)]. *)
Definition onMouseMove (clientX clientY : R) (c : Closure) : Closure :=
  {| gl := gl c; width := width c; height := height c;
     mouse := {| px := clientX; py := clientY |}; circles := circles c |}.

(** The function given to [onUnmounted]. *)
Definition onUnmounted (h : Host) : Host :=
  let h := setListeners (removeEventListener ("resize"%string, ResizeCanvas) (listeners h)) h in
  setListeners (removeEventListener ("mousemove"%string, OnMouseMove) (listeners h)) h.

(** The function given to [onMounted], on the host it finds.  The two
    shader sources are constants of the component and are taken to compile;
    whether the program links is the host's [linkStatus]. *)
Definition onMounted (h : Host) : World :=
  if negb (webgl h) then
    {| host := consoleError "WebGL not supported" h; closure := None |}
  else
    let width := innerWidth h in
    let height := innerHeight h in
    let h := setListeners (addEventListener ("resize"%string, ResizeCanvas) (listeners h)) h in
    let mouse := {| px := width / 2; py := height / 2 |} in
    let h := setListeners (addEventListener ("mousemove"%string, OnMouseMove) (listeners h)) h in
    let '(circles, k) := initCircles (random h) (randomCalls h) width height in
    let h := setRandomCalls k h in
    let h := if linkStatus h then h
             else consoleError ("Program link error: " ++ programInfoLog h) h in
    let g := {| linked := linkStatus h; viewport := (0, 0);
                uniforms := noUniforms; frames := [] |} in
    let g := setUniforms (fun u =>
      {| u_resolution := (width, height); u_darkMode := u_darkMode u;
         u_circleCount := u_circleCount u; u_circlesColor := u_circlesColor u;
         u_circlesPosRad := u_circlesPosRad u; u_mouse := u_mouse u |}) g in
    let c := {| gl := g; width := width; height := height; mouse := mouse;
                circles := circles |} in
    let '(h, c, finished) := render h c in
    {| host := if finished then registerUnmountHook h else h;
       closure := Some c |}.

(** The host runs the frame requests that were waiting; those made
    meanwhile wait for the next refresh. *)
Definition frame (w : World) : World :=
  match closure w with
  | None => w
  | Some c =>
      let waiting := frameRequests (host w) in
      let h := setFrameRequests [] (nextRequestId (host w)) (host w) in
      let '(h, c) :=
        fold_left (fun hc _ => let '(h, c, _) := render (fst hc) (snd hc) in (h, c))
                  waiting (h, c) in
      {| host := h; closure := Some c |}
  end.

(** One event of the host, delivered to whatever is still registered. *)
Definition dispatch (w : World) (e : Event) : World :=
  match e with
  | Resize iw ih =>
      let h := setInnerSize iw ih (host w) in
      {| host := h;
         closure :=
           if listening ("resize"%string, ResizeCanvas) (listeners h)
           then option_map (resizeCanvas h) (closure w) else closure w |}
  | MouseMove clientX clientY =>
      {| host := host w;
         closure :=
           if listening ("mousemove"%string, OnMouseMove) (listeners (host w))
           then option_map (onMouseMove clientX clientY) (closure w)
           else closure w |}
  | Frame => frame w
  | SetDark b => {| host := setDarkIsActive b (host w); closure := closure w |}
  | Unmount =>
      {| host := if unmountHook (host w) then onUnmounted (host w) else host w;
         closure := closure w |}
  end.

Definition run (w : World) (es : list Event) : World := fold_left dispatch es w.

End Webgl.

(** * Vocabulary of the properties *)

(** The rectangle an ambient blob lives in: the window widened by the
    radius on every side. *)
Definition htmlInRect (W H : R) (c : Html.Circle.t) : Prop :=
  (- Html.Circle.radius c <= Html.Circle.x c <= W + Html.Circle.radius c) /\
  (- Html.Circle.radius c <= Html.Circle.y c <= H + Html.Circle.radius c).

Definition webglInRect (W H : R) (c : Webgl.Circle.t) : Prop :=
  (- Webgl.Circle.radius c <= Webgl.Circle.x c <= W + Webgl.Circle.radius c) /\
  (- Webgl.Circle.radius c <= Webgl.Circle.y c <= H + Webgl.Circle.radius c).

(** What the two tests of one axis leave of the coordinate [v] reached by
    the addition. *)
Definition wrapped (v r limit : R) : R :=
  let v := if Rgt_dec (v - r) limit then - r else v in
  if Rlt_dec (v + r) 0 then limit + r else v.




(** Distance from the sample point [st] to the centre held by slot [i]. *)
Definition slotDistance (u : Webgl.Uniforms) (st : R * R) (i : nat) : R :=
  let posRad := Webgl.vec3At (Webgl.u_circlesPosRad u) i in
  Webgl.length2 (fst st - Webgl.v_r posRad, snd st - Webgl.v_g posRad).

Definition slotRadius (u : Webgl.Uniforms) (i : nat) : R :=
  Webgl.v_b (Webgl.vec3At (Webgl.u_circlesPosRad u) i).

Definition slotColor (u : Webgl.Uniforms) (i : nat) : Webgl.Vec3 :=
  Webgl.vec3At (Webgl.u_circlesColor u) i.

(** The gaussian weight of slot [i] at [st], as [slot] computes it. *)
Definition slotValue (u : Webgl.Uniforms) (st : R * R) (i : nat) : R :=
  exp ((- (slotDistance u st i * slotDistance u st i))
       / (2.0 * (slotRadius u i * 0.5) * (slotRadius u i * 0.5))).

(** The uniforms a completed [render] leaves in force. *)
Definition uploaded (h : Host) (c : Webgl.Closure) (colorsArr posRadArr : list R)
    : Webgl.Uniforms :=
  {| Webgl.u_resolution := (Webgl.width c, Webgl.height c);
     Webgl.u_darkMode := if darkIsActive h then 1%Z else 0%Z;
     Webgl.u_circleCount :=
       Z.of_nat (List.length
                   (Webgl.updateCircles (Webgl.mouse c) (Webgl.width c)
                                        (Webgl.height c) (Webgl.circles c)));
     Webgl.u_circlesColor := colorsArr;
     Webgl.u_circlesPosRad := posRadArr;
     Webgl.u_mouse := (px (Webgl.mouse c), py (Webgl.mouse c)) |}.

(** The ambient blob number [i] of [initCircles], made from the five
    values of [Math.random()] that follow the first [k]. *)
Definition webglAmbient (rnd : nat -> R) (k : nat) (W H : R) (i : nat)
    : Webgl.Circle.t :=
  Webgl.Circle.new (rnd k * W) (rnd (k + 1)%nat * H) ((W + H) * 0.2)
    (nth_error Webgl.circleColors i)
    ((rnd (k + 3)%nat - 0.5) * (rnd (k + 2)%nat * 4 + 1))
    ((rnd (k + 4)%nat - 0.5) * (rnd (k + 2)%nat * 4 + 1))
    false.

(** The ambient blob number [i] of [init]. *)
Definition htmlAmbient (rnd : nat -> R) (k : nat) (W H : R) (i : nat)
    : Html.Circle.t :=
  Html.Circle.new (rnd k * W) (rnd (k + 1)%nat * H) ((W + H) * 0.2)
    (nth_error Html.colors i)
    {| px := (rnd (k + 3)%nat - 0.5) * (rnd (k + 2)%nat * 4 + 1);
       py := (rnd (k + 4)%nat - 0.5) * (rnd (k + 2)%nat * 4 + 1) |}
    false.

(** Five ambient blobs and then the interactive one, with the palette
    entries in their order. *)
Definition htmlScene (cs : list Html.Circle.t) : Prop :=
  map Html.Circle.isInteractive cs = [false; false; false; false; false; true] /\
  map Html.Circle.color cs = map Some Html.colors.

Definition webglScene (cs : list Webgl.Circle.t) : Prop :=
  map Webgl.Circle.interactive cs = [false; false; false; false; false; true] /\
  map Webgl.Circle.color cs = map Some Webgl.circleColors.

(** The worlds of the WebGL component in which the closure exists and
    holds a scene. *)
Definition webglRunning (w : Webgl.World) : Prop :=
  exists c, Webgl.closure w = Some c /\ webglScene (Webgl.circles c).

(** The arc [draw] paints for a circle under the given filter and
    composite mode. *)
Definition arcOf (flt gco : string) (c : Html.Circle.t) : Html.DrawOp :=
  Html.Painted
    (Html.FillArc flt gco
       (Some (Html.RadialGradient (Html.Circle.x c) (Html.Circle.y c) 0
                (Html.Circle.x c) (Html.Circle.y c) (Html.Circle.radius c)
                [(0, Html.Circle.rgba (Html.Circle.color c) "1");
                 (1, Html.Circle.rgba (Html.Circle.color c) "0")]))
       (Html.Circle.x c) (Html.Circle.y c) (Html.Circle.radius c) 0 (PI * 2)).

(** A frame whose loop ran over the six slots and met no zero
    denominator.  By [accumulate_visited] the slots of [visited] are the
    only ones at which the body of the loop, and so the division, is
    evaluated. *)
Definition soundFrame (u : Webgl.Uniforms) : Prop :=
  Webgl.u_circleCount u = 6%Z /\
  Webgl.visited u = [0; 1; 2; 3; 4; 5]%nat /\
  Forall (fun i => Webgl.denominator u i <> 0) (Webgl.visited u).

(** The states in which the closure holds a scene of blobs of positive
    radius and every frame drawn so far is sound. *)
Definition webglSound (w : Webgl.World) : Prop :=
  exists c, Webgl.closure w = Some c /\
            webglScene (Webgl.circles c) /\
            Forall (fun b => 0 < Webgl.Circle.radius b) (Webgl.circles c) /\
            Forall soundFrame (Webgl.frames (Webgl.gl c)).

(** A mounted, running 2D component: both listeners registered, the hook
    registered, and the one waiting frame request is the one whose id
    [animationFrameId] holds. *)
Definition htmlLive (w : Html.World) : Prop :=
  listeners (Html.host w)
    = [("resize"%string, ResizeCanvas); ("mousemove"%string, OnMouseMove)] /\
  unmountHook (Html.host w) = true /\
  exists id, frameRequests (Html.host w) = [id] /\ Html.animationFrameId w = Some id.



(** The [x] of the first circle of the scene, if there is one. *)
Definition firstX (w : Webgl.World) : option R :=
  match Webgl.closure w with
  | Some c => option_map Webgl.Circle.x (hd_error (Webgl.circles c))
  | None => None
  end.

(** The picture of section 4.4 of the specification, written over the
    blobs themselves rather than over six uniform slots. *)
Module Reference.
Import Webgl.

Definition blobColor (c : Circle.t) : Vec3 :=
  match Circle.color c with Some col => col | None => vec3 0 0 0 end.

(** [value = exp(-dist^2 / (2 sigma^2))], [sigma = blobRadius * 0.5]. *)
Definition value (st : R * R) (c : Circle.t) : R :=
  let dist := length2 (fst st - Circle.x c, snd st - Circle.y c) in
  let sigma := Circle.radius c * 0.5 in
  exp ((- (dist * dist)) / (2 * sigma * sigma)).

(** [fieldSum += value] and [weightedColor += blobColor * value], over
    all the blobs. *)
Definition addBlob (st : R * R) (acc : R * Vec3) (c : Circle.t) : R * Vec3 :=
  (fst acc + value st c, vadd (snd acc) (vscale (blobColor c) (value st c))).

Definition field (blobs : list Circle.t) (st : R * R) : R * Vec3 :=
  fold_left (addBlob st) blobs (0, vec3 0 0 0).

Definition background (resolution st : R * R) : Vec3 :=
  mix (vec3 (108 / 255) 0 (162 / 255)) (vec3 0 (17 / 255) (82 / 255))
      (snd st / snd resolution).

Definition resolved (acc : R * Vec3) : Vec3 :=
  if Rgt_dec (fst acc) 0 then vdiv (snd acc) (fst acc) else vec3 0 0 0.

(** The colour of the pixel at [st], opaque. *)
Definition pixel (resolution : R * R) (blobs : list Circle.t) (st : R * R) : Vec3 * R :=
  let acc := field blobs st in
  let intensity := clamp (pow (fst acc) 1.4) 0 1 in
  (mix (background resolution st) (resolved acc) intensity, 1).

End Reference.

(** [Math.random()] returns a number of [[0, 1)]. *)
Definition unitRandom (rnd : nat -> R) : Prop := forall k : nat, 0 <= rnd k < 1.

(** A window never reports a negative size. *)
Definition sizedEvent (e : Event) : Prop :=
  match e with
  | Resize w h => 0 <= w /\ 0 <= h
  | _ => True
  end.

Definition notUnmount (e : Event) : Prop :=
  match e with
  | Unmount => False
  | _ => True
  end.

(** A mounted WebGL component before its teardown: a scene, both
    listeners, the hook, and one frame request waiting. *)
Definition webglLive (w : Webgl.World) : Prop :=
  listeners (Webgl.host w)
    = [("resize"%string, ResizeCanvas); ("mousemove"%string, OnMouseMove)] /\
  unmountHook (Webgl.host w) = true /\
  (exists id, frameRequests (Webgl.host w) = [id]) /\
  exists c, Webgl.closure w = Some c /\ webglScene (Webgl.circles c).

(** The radius [init] gives a blob in a window of the given size. *)
Definition htmlRadius (W H : R) (c : Html.Circle.t) : Prop :=
  Html.Circle.radius c
  = (W + H) * (if Html.Circle.isInteractive c then 0.1 else 0.2).

Definition webglRadius (W H : R) (c : Webgl.Circle.t) : Prop :=
  Webgl.Circle.radius c
  = (W + H) * (if Webgl.Circle.interactive c then 0.1 else 0.2).

(** Every component of the colour lies between [lo] and [hi]. *)
Definition within (lo hi : R) (v : Webgl.Vec3) : Prop :=
  (lo <= Webgl.v_r v <= hi) /\ (lo <= Webgl.v_g v <= hi) /\
  (lo <= Webgl.v_b v <= hi).

(** The circles of the closure, none when there is no closure. *)
Definition webglCircles (w : Webgl.World) : list Webgl.Circle.t :=
  match Webgl.closure w with
  | Some c => Webgl.circles c
  | None => []
  end.

(** The frames drawn so far. *)
Definition webglFrames (w : Webgl.World) : list Webgl.Uniforms :=
  match Webgl.closure w with
  | Some c => Webgl.frames (Webgl.gl c)
  | None => []
  end.

(** A blob as scene creation leaves it in a window of the given size:
    the interactive one at rest in the centre, an ambient one somewhere in
    the window with a speed below [2.5] on each axis. *)
Definition htmlCreated (W H : R) (c : Html.Circle.t) : Prop :=
  if Html.Circle.isInteractive c then
    Html.Circle.x c = W / 2 /\ Html.Circle.y c = H / 2 /\
    Html.Circle.velocity c = {| px := 0; py := 0 |}
  else
    (0 <= Html.Circle.x c <= W) /\ (0 <= Html.Circle.y c <= H) /\
    (- 2.5 < px (Html.Circle.velocity c) < 2.5) /\
    (- 2.5 < py (Html.Circle.velocity c) < 2.5).

Definition webglCreated (W H : R) (c : Webgl.Circle.t) : Prop :=
  if Webgl.Circle.interactive c then
    Webgl.Circle.x c = W / 2 /\ Webgl.Circle.y c = H / 2 /\
    Webgl.Circle.vx c = 0 /\ Webgl.Circle.vy c = 0
  else
    (0 <= Webgl.Circle.x c <= W) /\ (0 <= Webgl.Circle.y c <= H) /\
    (- 2.5 < Webgl.Circle.vx c < 2.5) /\ (- 2.5 < Webgl.Circle.vy c < 2.5).

(** An ambient blob lies in the rectangle of the window; nothing is asked
    of the interactive one. *)
Definition htmlAmbientInRect (W H : R) (c : Html.Circle.t) : Prop :=
  Html.Circle.isInteractive c = false -> htmlInRect W H c.

Definition webglAmbientInRect (W H : R) (c : Webgl.Circle.t) : Prop :=
  Webgl.Circle.interactive c = false -> webglInRect W H c.

(** What the 2D component keeps true from mounting on: the random source
    returns numbers of [[0, 1)], the sizes are non-negative, every radius
    is the fraction of the current size and every ambient blob lies in the
    rectangle. *)
Definition htmlKept (w : Html.World) : Prop :=
  unitRandom (random (Html.host w)) /\
  0 <= Html.width w /\ 0 <= Html.height w /\
  Forall (htmlRadius (Html.width w) (Html.height w)) (Html.circles w) /\
  Forall (htmlAmbientInRect (Html.width w) (Html.height w)) (Html.circles w).

(** What the WebGL component keeps true from mounting on: a frame
    request waits, the closure holds a scene, radii and sizes are
    non-negative. *)
Definition webglKept (w : Webgl.World) : Prop :=
  frameRequests (Webgl.host w) <> [] /\
  exists c, Webgl.closure w = Some c /\
            webglScene (Webgl.circles c) /\
            Forall (fun b => 0 <= Webgl.Circle.radius b) (Webgl.circles c) /\
            0 <= Webgl.width c /\ 0 <= Webgl.height c.

(** * Properties *)

(** ** Simulation step: the wrap-around of the ambient blobs *)

Lemma wrapped_range (v r limit : R) :
  0 <= r -> 0 <= limit -> - r <= wrapped v r limit <= limit + r.
Proof.
  intros Hr Hl. unfold wrapped.
  destruct (Rgt_dec (v - r) limit) as [Hfar | Hfar].
  - destruct (Rlt_dec (- r + r) 0); lra.
  - destruct (Rlt_dec (v + r) 0); lra.
Qed.

Lemma wrapped_far (v r limit : R) : v - r > limit -> wrapped v r limit = - r.
Proof.
  intros Hfar. unfold wrapped.
  destruct (Rgt_dec (v - r) limit); [| lra].
  destruct (Rlt_dec (- r + r) 0); lra.
Qed.

Lemma wrapped_near (v r limit : R) :
  0 <= r -> 0 <= limit -> v + r < 0 -> wrapped v r limit = limit + r.
Proof.
  intros Hr Hl Hnear. unfold wrapped.
  destruct (Rgt_dec (v - r) limit); [lra |].
  destruct (Rlt_dec (v + r) 0); lra.
Qed.

Lemma wrapped_inside (v r limit : R) :
  ~ v - r > limit -> ~ v + r < 0 -> wrapped v r limit = v.
Proof.
  intros Hfar Hnear. unfold wrapped.
  destruct (Rgt_dec (v - r) limit); [lra |].
  destruct (Rlt_dec (v + r) 0); lra.
Qed.

Module HtmlFacts.
Import Html.

Lemma html_pastRight_new (W x y r : R) col v i :
  Circle.pastRight W (Circle.new x y r col v i)
  = Circle.new (if Rgt_dec (x - r) W then - r else x) y r col v i.
Proof. unfold Circle.pastRight; cbn. destruct (Rgt_dec (x - r) W); reflexivity. Qed.

Lemma html_pastLeft_new (W x y r : R) col v i :
  Circle.pastLeft W (Circle.new x y r col v i)
  = Circle.new (if Rlt_dec (x + r) 0 then W + r else x) y r col v i.
Proof. unfold Circle.pastLeft; cbn. destruct (Rlt_dec (x + r) 0); reflexivity. Qed.

Lemma html_pastBottom_new (H x y r : R) col v i :
  Circle.pastBottom H (Circle.new x y r col v i)
  = Circle.new x (if Rgt_dec (y - r) H then - r else y) r col v i.
Proof. unfold Circle.pastBottom; cbn. destruct (Rgt_dec (y - r) H); reflexivity. Qed.

Lemma html_pastTop_new (H x y r : R) col v i :
  Circle.pastTop H (Circle.new x y r col v i)
  = Circle.new x (if Rlt_dec (y + r) 0 then H + r else y) r col v i.
Proof. unfold Circle.pastTop; cbn. destruct (Rlt_dec (y + r) 0); reflexivity. Qed.

(** [update] changes the position alone, each axis by [wrapped]. *)
Lemma update_eq (W H : R) (c : Circle.t) :
  Circle.update W H c =
  Circle.new (wrapped (Circle.x c + px (Circle.velocity c)) (Circle.radius c) W)
             (wrapped (Circle.y c + py (Circle.velocity c)) (Circle.radius c) H)
             (Circle.radius c) (Circle.color c) (Circle.velocity c)
             (Circle.isInteractive c).
Proof.
  destruct c as [x y r col [dx dy] inter].
  unfold Circle.update; cbv zeta. unfold Circle.set_x, Circle.set_y.
  cbn [Circle.x Circle.y Circle.radius Circle.color Circle.velocity
       Circle.isInteractive px py].
  rewrite html_pastRight_new, html_pastLeft_new, html_pastBottom_new, html_pastTop_new.
  reflexivity.
Qed.

Lemma move_ambient (m : Point) (W H : R) (c : Circle.t) :
  Circle.isInteractive c = false -> move m W H c = Circle.update W H c.
Proof. intros Hc. unfold move. rewrite Hc. reflexivity. Qed.

(** Radius, colour, velocity and flag are untouched by a step. *)
Lemma move_fixed (m : Point) (W H : R) (c : Circle.t) :
  Circle.radius (move m W H c) = Circle.radius c /\
  Circle.color (move m W H c) = Circle.color c /\
  Circle.velocity (move m W H c) = Circle.velocity c /\
  Circle.isInteractive (move m W H c) = Circle.isInteractive c.
Proof.
  unfold move. destruct (Circle.isInteractive c) eqn:Hc.
  - cbn. rewrite Hc. tauto.
  - rewrite update_eq. cbn. rewrite Hc. tauto.
Qed.

Lemma iterate_move_fixed (m : Point) (W H : R) (c : Circle.t) (n : nat) :
  Circle.radius (iterate n (move m W H) c) = Circle.radius c /\
  Circle.color (iterate n (move m W H) c) = Circle.color c /\
  Circle.velocity (iterate n (move m W H) c) = Circle.velocity c /\
  Circle.isInteractive (iterate n (move m W H) c) = Circle.isInteractive c.
Proof.
  induction n as [| n IH]; cbn; [tauto |].
  destruct (move_fixed m W H (iterate n (move m W H) c)) as (-> & -> & -> & ->).
  exact IH.
Qed.

Lemma move_inRect (m : Point) (W H : R) (c : Circle.t) :
  0 <= W -> 0 <= H -> 0 <= Circle.radius c ->
  Circle.isInteractive c = false -> htmlInRect W H (move m W H c).
Proof.
  intros HW HH Hr Hc. rewrite (move_ambient m W H c Hc), update_eq.
  split; cbn; apply wrapped_range; assumption.
Qed.

End HtmlFacts.

Module WebglFacts.
Import Webgl.

Lemma webgl_pastRight_new (W x y r : R) col dx dy i :
  pastRight W (Circle.new x y r col dx dy i)
  = Circle.new (if Rgt_dec (x - r) W then - r else x) y r col dx dy i.
Proof. unfold pastRight; cbn. destruct (Rgt_dec (x - r) W); reflexivity. Qed.

Lemma webgl_pastLeft_new (W x y r : R) col dx dy i :
  pastLeft W (Circle.new x y r col dx dy i)
  = Circle.new (if Rlt_dec (x + r) 0 then W + r else x) y r col dx dy i.
Proof. unfold pastLeft; cbn. destruct (Rlt_dec (x + r) 0); reflexivity. Qed.

Lemma webgl_pastBottom_new (H x y r : R) col dx dy i :
  pastBottom H (Circle.new x y r col dx dy i)
  = Circle.new x (if Rgt_dec (y - r) H then - r else y) r col dx dy i.
Proof. unfold pastBottom; cbn. destruct (Rgt_dec (y - r) H); reflexivity. Qed.

Lemma webgl_pastTop_new (H x y r : R) col dx dy i :
  pastTop H (Circle.new x y r col dx dy i)
  = Circle.new x (if Rlt_dec (y + r) 0 then H + r else y) r col dx dy i.
Proof. unfold pastTop; cbn. destruct (Rlt_dec (y + r) 0); reflexivity. Qed.

(** The ambient branch of [updateCircle] changes the position alone, each
    axis by [wrapped]. *)
Lemma updateCircle_ambient (m : Point) (W H : R) (c : Circle.t) :
  Circle.interactive c = false ->
  updateCircle m W H c =
  Circle.new (wrapped (Circle.x c + Circle.vx c) (Circle.radius c) W)
             (wrapped (Circle.y c + Circle.vy c) (Circle.radius c) H)
             (Circle.radius c) (Circle.color c) (Circle.vx c) (Circle.vy c)
             false.
Proof.
  destruct c as [x y r col dx dy inter]. cbn [Circle.interactive]. intros ->.
  unfold updateCircle; cbv zeta. unfold Circle.set_x, Circle.set_y.
  cbn [negb Circle.x Circle.y Circle.radius Circle.color Circle.vx Circle.vy
       Circle.interactive].
  rewrite webgl_pastRight_new, webgl_pastLeft_new, webgl_pastBottom_new, webgl_pastTop_new.
  reflexivity.
Qed.

Lemma updateCircle_interactive (m : Point) (W H : R) (c : Circle.t) :
  Circle.interactive c = true ->
  updateCircle m W H c =
  Circle.new (Circle.x c + (px m - Circle.x c) * 0.1)
             (Circle.y c + (py m - Circle.y c) * 0.1)
             (Circle.radius c) (Circle.color c) (Circle.vx c) (Circle.vy c)
             true.
Proof.
  destruct c as [x y r col dx dy inter]. cbn. intros ->. reflexivity.
Qed.

Lemma updateCircle_fixed (m : Point) (W H : R) (c : Circle.t) :
  Circle.radius (updateCircle m W H c) = Circle.radius c /\
  Circle.color (updateCircle m W H c) = Circle.color c /\
  Circle.vx (updateCircle m W H c) = Circle.vx c /\
  Circle.vy (updateCircle m W H c) = Circle.vy c /\
  Circle.interactive (updateCircle m W H c) = Circle.interactive c.
Proof.
  destruct (Circle.interactive c) eqn:Hc.
  - rewrite updateCircle_interactive by assumption. cbn. tauto.
  - rewrite updateCircle_ambient by assumption. cbn. tauto.
Qed.

Lemma iterate_updateCircle_fixed (m : Point) (W H : R) (c : Circle.t) (n : nat) :
  Circle.radius (iterate n (updateCircle m W H) c) = Circle.radius c /\
  Circle.color (iterate n (updateCircle m W H) c) = Circle.color c /\
  Circle.vx (iterate n (updateCircle m W H) c) = Circle.vx c /\
  Circle.vy (iterate n (updateCircle m W H) c) = Circle.vy c /\
  Circle.interactive (iterate n (updateCircle m W H) c) = Circle.interactive c.
Proof.
  induction n as [| n IH]; cbn; [tauto |].
  destruct (updateCircle_fixed m W H (iterate n (updateCircle m W H) c))
    as (-> & -> & -> & -> & ->).
  exact IH.
Qed.

Lemma updateCircle_inRect (m : Point) (W H : R) (c : Circle.t) :
  0 <= W -> 0 <= H -> 0 <= Circle.radius c ->
  Circle.interactive c = false -> webglInRect W H (updateCircle m W H c).
Proof.
  intros HW HH Hr Hc. rewrite updateCircle_ambient by assumption.
  split; cbn; apply wrapped_range; assumption.
Qed.

End WebglFacts.

(** C1.  An ambient blob that lies within
    [[-radius, width+radius] x [-radius, height+radius]] lies within it
    after any number of simulation steps, in both components; and in every
    one of these steps, when the addition of the velocity carries the blob
    past the outer boundary of an axis ([x - radius > width], or
    [x + radius < 0], and the same for [y] against [height]), the step itself
    leaves it on the opposite edge ([x = -radius], or [x = width + radius]).
    Window sizes and radii are non-negative. *)
Theorem wrap_invariant :
  (forall (m : Point) (W H : R) (c : Html.Circle.t),
      0 <= W -> 0 <= H -> 0 <= Html.Circle.radius c ->
      Html.Circle.isInteractive c = false ->
      htmlInRect W H c ->
      forall n : nat,
        let before := iterate n (Html.move m W H) c in
        let after := Html.move m W H before in
        let r := Html.Circle.radius c in
        let ax := Html.Circle.x before + px (Html.Circle.velocity c) in
        let ay := Html.Circle.y before + py (Html.Circle.velocity c) in
        htmlInRect W H before /\ htmlInRect W H after /\
        (ax - r > W -> Html.Circle.x after = - r) /\
        (ax + r < 0 -> Html.Circle.x after = W + r) /\
        (ay - r > H -> Html.Circle.y after = - r) /\
        (ay + r < 0 -> Html.Circle.y after = H + r)) /\
  (forall (m : Point) (W H : R) (c : Webgl.Circle.t),
      0 <= W -> 0 <= H -> 0 <= Webgl.Circle.radius c ->
      Webgl.Circle.interactive c = false ->
      webglInRect W H c ->
      forall n : nat,
        let before := iterate n (Webgl.updateCircle m W H) c in
        let after := Webgl.updateCircle m W H before in
        let r := Webgl.Circle.radius c in
        let ax := Webgl.Circle.x before + Webgl.Circle.vx c in
        let ay := Webgl.Circle.y before + Webgl.Circle.vy c in
        webglInRect W H before /\ webglInRect W H after /\
        (ax - r > W -> Webgl.Circle.x after = - r) /\
        (ax + r < 0 -> Webgl.Circle.x after = W + r) /\
        (ay - r > H -> Webgl.Circle.y after = - r) /\
        (ay + r < 0 -> Webgl.Circle.y after = H + r)).
Proof.
  split.
  - intros m W H c HW HH Hr Hc Hin n. cbv zeta.
    destruct (HtmlFacts.iterate_move_fixed m W H c n) as (Er & _ & Ev & Ei).
    assert (Hbefore : htmlInRect W H (iterate n (Html.move m W H) c)).
    { destruct n as [| k]; [exact Hin |]. cbn [iterate].
      destruct (HtmlFacts.iterate_move_fixed m W H c k) as (Er' & _ & _ & Ei').
      apply HtmlFacts.move_inRect; congruence. }
    split; [exact Hbefore |].
    split; [apply HtmlFacts.move_inRect; congruence |].
    rewrite HtmlFacts.move_ambient, HtmlFacts.update_eq by congruence.
    cbn. rewrite Er, Ev.
    repeat split; intros Hedge;
      solve [apply wrapped_far; exact Hedge
            | apply wrapped_near; assumption].
  - intros m W H c HW HH Hr Hc Hin n. cbv zeta.
    destruct (WebglFacts.iterate_updateCircle_fixed m W H c n)
      as (Er & _ & Evx & Evy & Ei).
    assert (Hbefore : webglInRect W H (iterate n (Webgl.updateCircle m W H) c)).
    { destruct n as [| k]; [exact Hin |]. cbn [iterate].
      destruct (WebglFacts.iterate_updateCircle_fixed m W H c k)
        as (Er' & _ & _ & _ & Ei').
      apply WebglFacts.updateCircle_inRect; congruence. }
    split; [exact Hbefore |].
    split; [apply WebglFacts.updateCircle_inRect; congruence |].
    rewrite WebglFacts.updateCircle_ambient by congruence.
    cbn. rewrite Er, Evx, Evy.
    repeat split; intros Hedge;
      solve [apply wrapped_far; exact Hedge
            | apply wrapped_near; assumption].
Qed.

(** C1 at a blob of radius 30 in a 100 x 50 window, about to leave by the
    right and by the top. *)
Lemma wrap_invariant_witness :
  let c := Html.Circle.new 110 10 30 None (mkPoint 25 (-45)) false in
  let d := Webgl.Circle.new 110 10 30 None 25 (-45) false in
  let m := mkPoint 0 0 in
  (Html.Circle.x (Html.move m 100 50 c) = - 30 /\
   Html.Circle.y (Html.move m 100 50 c) = 50 + 30) /\
  (Webgl.Circle.x (Webgl.updateCircle m 100 50 d) = - 30 /\
   Webgl.Circle.y (Webgl.updateCircle m 100 50 d) = 50 + 30).
Proof.
  intros c d m.
  destruct wrap_invariant as [Hh Hw].
  assert (Hc : htmlInRect 100 50 c) by (unfold htmlInRect; cbn; lra).
  assert (Hd : webglInRect 100 50 d) by (unfold webglInRect; cbn; lra).
  specialize (Hh m 100 50 c ltac:(lra) ltac:(lra) ltac:(cbn; lra) eq_refl Hc 0%nat).
  specialize (Hw m 100 50 d ltac:(lra) ltac:(lra) ltac:(cbn; lra) eq_refl Hd 0%nat).
  cbv zeta in Hh, Hw. cbn [iterate] in Hh, Hw.
  destruct Hh as (_ & _ & Hx & _ & _ & Hy).
  destruct Hw as (_ & _ & Hx' & _ & _ & Hy').
  split; split.
  - apply Hx. cbn. lra.
  - apply Hy. cbn. lra.
  - apply Hx'. cbn. lra.
  - apply Hy'. cbn. lra.
Defined.

(** ** Simulation step: the interactive blob *)





Lemma html_move_interactive (m : Point) (W H : R) (c : Html.Circle.t) :
  Html.Circle.isInteractive c = true ->
  Html.Circle.x (Html.move m W H c)
    = Html.Circle.x c + (px m - Html.Circle.x c) * 0.1 /\
  Html.Circle.y (Html.move m W H c)
    = Html.Circle.y c + (py m - Html.Circle.y c) * 0.1.
Proof. intros Hc. unfold Html.move. rewrite Hc. cbn. split; reflexivity. Qed.






(** ** Field renderer: the weighted average *)

Lemma slot_eq (u : Webgl.Uniforms) (st : R * R) (i : nat) (acc : R * Webgl.Vec3) :
  Webgl.slot u st i acc =
  (fst acc + slotValue u st i,
   Webgl.vadd (snd acc) (Webgl.vscale (slotColor u i) (slotValue u st i))).
Proof. destruct acc as [f w]. reflexivity. Qed.

Lemma slotValue_pos (u : Webgl.Uniforms) (st : R * R) (i : nat) :
  0 < slotValue u st i.
Proof. apply exp_pos. Qed.



(** ** Field renderer: the padding of the unused slots *)

(** Two bodies that agree wherever the loop does not stop give the same
    loop. *)
Lemma forBreak_ext {A : Type} (idx : list nat) (stop : nat -> bool)
    (f g : nat -> A -> A) (a : A) :
  (forall i x, In i idx -> stop i = false -> f i x = g i x) ->
  Webgl.forBreak idx stop f a = Webgl.forBreak idx stop g a.
Proof.
  revert a. induction idx as [| i rest IH]; intros a Hfg; cbn; [reflexivity |].
  destruct (stop i) eqn:Hstop; [reflexivity |].
  rewrite (Hfg i a (or_introl eq_refl) Hstop).
  apply IH. intros j x Hj. apply Hfg. right. exact Hj.
Qed.

(** The picture depends on the slots below [u_circleCount] alone. *)
Lemma fragment_padding (u1 u2 : Webgl.Uniforms) :
  Webgl.u_resolution u1 = Webgl.u_resolution u2 ->
  Webgl.u_darkMode u1 = Webgl.u_darkMode u2 ->
  Webgl.u_circleCount u1 = Webgl.u_circleCount u2 ->
  (forall i : nat, (Z.of_nat i < Webgl.u_circleCount u1)%Z ->
     Webgl.vec3At (Webgl.u_circlesColor u1) i = Webgl.vec3At (Webgl.u_circlesColor u2) i /\
     Webgl.vec3At (Webgl.u_circlesPosRad u1) i = Webgl.vec3At (Webgl.u_circlesPosRad u2) i) ->
  forall v_uv, Webgl.fragment u1 v_uv = Webgl.fragment u2 v_uv.
Proof.
  intros Hres Hdark Hcount Hslots v_uv.
  assert (Hacc : forall st, Webgl.accumulate u1 st = Webgl.accumulate u2 st).
  { intros st. unfold Webgl.accumulate.
    replace (Webgl.stopAt u2) with (Webgl.stopAt u1)
      by (unfold Webgl.stopAt; rewrite Hcount; reflexivity).
    apply forBreak_ext. intros i [f w] _ Hstop.
    unfold Webgl.stopAt in Hstop. apply Z.leb_gt in Hstop.
    destruct (Hslots i Hstop) as [Hc Hp].
    unfold Webgl.slot. rewrite Hc, Hp. reflexivity. }
  unfold Webgl.fragment, Webgl.bgColor, Webgl.arm.
  rewrite Hres, Hdark, Hacc. reflexivity.
Qed.

(** The loop of the shader runs its body at the slots below
    [u_circleCount], at most six of them, in order. *)
Lemma forBreak_seq {A : Type} (n : nat) (body : nat -> A -> A) :
  forall (k a : nat) (acc : A),
    (a <= n)%nat ->
    Webgl.forBreak (seq a k) (fun i => (Z.of_nat n <=? Z.of_nat i)%Z) body acc
    = fold_left (fun x i => body i x) (seq a (Nat.min k (n - a))) acc.
Proof.
  induction k as [| k IH]; intros a acc Ha; cbn [seq Webgl.forBreak].
  - reflexivity.
  - destruct (Z.leb_spec (Z.of_nat n) (Z.of_nat a)) as [Hge | Hlt].
    + replace (n - a)%nat with 0%nat by lia. rewrite Nat.min_0_r. reflexivity.
    + replace (n - a)%nat with (S (n - S a)) by lia.
      cbn [Nat.min seq fold_left]. apply IH. lia.
Qed.

Lemma visited_seq (u : Webgl.Uniforms) (n : nat) :
  Webgl.u_circleCount u = Z.of_nat n ->
  Webgl.visited u = seq 0 (Nat.min 6 n).
Proof.
  intros Hn. unfold Webgl.visited, Webgl.stopAt. rewrite Hn.
  rewrite (forBreak_seq n (fun i (seen : list nat) => seen ++ [i]) 6 0 []
                        (Nat.le_0_l n)).
  rewrite Nat.sub_0_r.
  assert (Hgen : forall l acc : list nat,
             fold_left (fun x i => x ++ [i]) l acc = acc ++ l).
  { induction l as [| i l IH]; intros acc; cbn.
    - symmetry. apply app_nil_r.
    - rewrite IH, <- app_assoc. reflexivity. }
  apply Hgen.
Qed.

Lemma accumulate_visited (u : Webgl.Uniforms) (st : R * R) :
  Webgl.accumulate u st
  = fold_left (fun acc i => Webgl.slot u st i acc) (Webgl.visited u)
              (0, Webgl.vec3 0 0 0).
Proof.
  destruct (Z.le_gt_cases 0 (Webgl.u_circleCount u)) as [Hpos | Hneg].
  - assert (Hn : Webgl.u_circleCount u = Z.of_nat (Z.to_nat (Webgl.u_circleCount u)))
      by (symmetry; apply Z2Nat.id; exact Hpos).
    generalize dependent (Z.to_nat (Webgl.u_circleCount u)). intros n Hn.
    rewrite (visited_seq u n Hn).
    unfold Webgl.accumulate, Webgl.stopAt. rewrite Hn.
    rewrite (forBreak_seq _ (Webgl.slot u st) 6 0 _ (Nat.le_0_l _)).
    rewrite Nat.sub_0_r. reflexivity.
  - unfold Webgl.accumulate, Webgl.visited. cbn.
    assert (Hstop : Webgl.stopAt u 0 = true)
      by (unfold Webgl.stopAt; apply Z.leb_le; cbn; lia).
    rewrite Hstop. reflexivity.
Qed.

(** A slot that holds a blob adds that blob to the field. *)
Lemma slot_of_blob (u : Webgl.Uniforms) (st : R * R) (i : nat)
    (c : Webgl.Circle.t) (acc : R * Webgl.Vec3) :
  Webgl.vec3At (Webgl.u_circlesColor u) i = Reference.blobColor c ->
  Webgl.vec3At (Webgl.u_circlesPosRad u) i
    = Webgl.vec3 (Webgl.Circle.x c) (Webgl.Circle.y c) (Webgl.Circle.radius c) ->
  Webgl.slot u st i acc = Reference.addBlob st acc c.
Proof.
  intros Hc Hp. destruct acc as [f w].
  unfold Webgl.slot, Reference.addBlob, Reference.value. rewrite Hc, Hp. cbn.
  replace 2.0 with 2 by lra. reflexivity.
Qed.

Lemma fold_slots_blobs (u : Webgl.Uniforms) (st : R * R) :
  forall (xs : list Webgl.Circle.t) (a : nat) (acc : R * Webgl.Vec3),
    (forall i c, nth_error xs i = Some c ->
       Webgl.vec3At (Webgl.u_circlesColor u) (a + i) = Reference.blobColor c /\
       Webgl.vec3At (Webgl.u_circlesPosRad u) (a + i)
         = Webgl.vec3 (Webgl.Circle.x c) (Webgl.Circle.y c) (Webgl.Circle.radius c)) ->
    fold_left (fun x i => Webgl.slot u st i x) (seq a (List.length xs)) acc
    = fold_left (Reference.addBlob st) xs acc.
Proof.
  induction xs as [| c xs IH]; intros a acc Hslots; cbn [List.length seq fold_left].
  - reflexivity.
  - destruct (Hslots 0%nat c eq_refl) as [Hc Hp].
    rewrite Nat.add_0_r in Hc, Hp.
    rewrite (slot_of_blob u st a c acc Hc Hp).
    apply IH. intros i d Hi.
    replace (S a + i)%nat with (a + S i)%nat by lia.
    apply Hslots. exact Hi.
Qed.

(** Up to six blobs with a colour each are packed without an exception,
    and the loop of the shader over the packed slots is the field of the
    blobs themselves. *)
Lemma pack_slots (xs : list Webgl.Circle.t) :
  (List.length xs <= 6)%nat ->
  Forall (fun c => Webgl.Circle.color c <> None) xs ->
  exists colorsArr posRadArr,
    Webgl.pack xs = Some (colorsArr, posRadArr) /\
    (forall i c, nth_error xs i = Some c ->
      Webgl.vec3At colorsArr i = Reference.blobColor c /\
      Webgl.vec3At posRadArr i
        = Webgl.vec3 (Webgl.Circle.x c) (Webgl.Circle.y c) (Webgl.Circle.radius c)) /\
    (forall i, (List.length xs <= i < 6)%nat ->
      Webgl.vec3At colorsArr i = Webgl.vec3 0 0 0 /\
      Webgl.vec3At posRadArr i = Webgl.vec3 0 0 0).
Proof.
  intros Hlen Hcol.
  do 7 (destruct xs as [| [? ? ? [[? ? ?]|] ? ? ?] xs];
        [eexists; eexists; split; [reflexivity | split];
         [ intros i c Hi;
           do 6 (destruct i as [| i];
                 [cbn in Hi; first [discriminate Hi
                                   | injection Hi as <-; split; reflexivity] |]);
           destruct i; discriminate Hi
         | intros i Hi; cbn [List.length] in Hi;
           do 6 (destruct i as [| i];
                 [first [exfalso; lia | split; reflexivity] |]);
           exfalso; lia ]
        | | exfalso;
            repeat match goal with
                   | H : Forall _ (_ :: _) |- _ => inversion H; clear H; subst
                   end; cbn in *; congruence]).
  cbn in Hlen. lia.
Qed.

Lemma pack_accumulate (xs : list Webgl.Circle.t) :
  (List.length xs <= 6)%nat ->
  Forall (fun c => Webgl.Circle.color c <> None) xs ->
  exists colorsArr posRadArr,
    Webgl.pack xs = Some (colorsArr, posRadArr) /\
    forall resolution dark pointer st,
      Webgl.accumulate
        {| Webgl.u_resolution := resolution; Webgl.u_darkMode := dark;
           Webgl.u_circleCount := Z.of_nat (List.length xs);
           Webgl.u_circlesColor := colorsArr;
           Webgl.u_circlesPosRad := posRadArr;
           Webgl.u_mouse := pointer |} st
      = Reference.field xs st.
Proof.
  intros Hlen Hcol.
  destruct (pack_slots xs Hlen Hcol) as (colorsArr & posRadArr & Hpack & Hslots & _).
  exists colorsArr, posRadArr. split; [exact Hpack |].
  intros resolution dark pointer st.
  rewrite accumulate_visited.
  rewrite (visited_seq _ (List.length xs)) by reflexivity.
  rewrite Nat.min_r by exact Hlen.
  unfold Reference.field. apply fold_slots_blobs.
  intros i c Hi. cbn. apply Hslots. exact Hi.
Qed.

Lemma render_linked (h : Host) (c : Webgl.Closure) (colorsArr posRadArr : list R) :
  Webgl.linked (Webgl.gl c) = true ->
  Webgl.pack (Webgl.updateCircles (Webgl.mouse c) (Webgl.width c)
                                  (Webgl.height c) (Webgl.circles c))
    = Some (colorsArr, posRadArr) ->
  Webgl.render h c =
  (snd (requestAnimationFrame h),
   {| Webgl.gl :=
        {| Webgl.linked := true;
           Webgl.viewport := (Webgl.width c, Webgl.height c);
           Webgl.uniforms := uploaded h c colorsArr posRadArr;
           Webgl.frames := Webgl.frames (Webgl.gl c)
                           ++ [uploaded h c colorsArr posRadArr] |};
      Webgl.width := Webgl.width c; Webgl.height := Webgl.height c;
      Webgl.mouse := Webgl.mouse c;
      Webgl.circles := Webgl.updateCircles (Webgl.mouse c) (Webgl.width c)
                                           (Webgl.height c) (Webgl.circles c) |},
   true).
Proof.
  intros Hlinked Hpack. unfold Webgl.render. rewrite Hpack.
  unfold Webgl.drawArrays, Webgl.setUniforms, Webgl.setViewport; cbn.
  rewrite Hlinked. reflexivity.
Qed.

Lemma updateCircles_colors (m : Point) (W H : R) (cs : list Webgl.Circle.t) :
  Forall (fun c => Webgl.Circle.color c <> None) cs ->
  Forall (fun c => Webgl.Circle.color c <> None) (Webgl.updateCircles m W H cs).
Proof.
  intros Hcs. unfold Webgl.updateCircles. apply Forall_map.
  eapply Forall_impl; [| exact Hcs]. intros c Hc.
  destruct (WebglFacts.updateCircle_fixed m W H c) as (_ & -> & _). exact Hc.
Qed.

Lemma updateCircles_length (m : Point) (W H : R) (cs : list Webgl.Circle.t) :
  List.length (Webgl.updateCircles m W H cs) = List.length cs.
Proof. apply length_map. Qed.

(** The shader's final colour is the reference picture of the field its
    loop accumulated. *)
Lemma fragment_reference (u : Webgl.Uniforms) (blobs : list Webgl.Circle.t) (v_uv : R * R) :
  let st := (fst v_uv * fst (Webgl.u_resolution u),
             snd v_uv * snd (Webgl.u_resolution u)) in
  Webgl.accumulate u st = Reference.field blobs st ->
  Webgl.fragment u v_uv = Reference.pixel (Webgl.u_resolution u) blobs st.
Proof.
  intros st Hacc. unfold Webgl.fragment, Reference.pixel. fold st. rewrite Hacc.
  assert (Harm : forall a bg fc i,
             Webgl.armColor a bg fc i = Webgl.mix bg fc (Webgl.clamp i 0 1)).
  { intros a bg fc i. replace 0 with 0.0 by lra. replace 1 with 1.0 by lra.
    destruct a; reflexivity. }
  rewrite Harm.
  assert (Hbg : Webgl.bgColor u st = Reference.background (Webgl.u_resolution u) st).
  { unfold Webgl.bgColor, Reference.background. f_equal; f_equal; lra. }
  rewrite Hbg.
  assert (Hres : Webgl.finalCirclesColor (Reference.field blobs st)
                 = Reference.resolved (Reference.field blobs st)).
  { destruct (Reference.field blobs st) as [f w]. reflexivity. }
  rewrite Hres. f_equal. lra.
Qed.

(** C4.  When [render] is given fewer than six blobs, it pads the six
    uniform slots with zero-radius, zero-colour entries, and the picture
    the shader then draws is, at every sample point, the picture of the
    real blobs alone; any other contents of the padded slots would give the
    same picture. *)
Theorem padding_neutral (h : Host) (c : Webgl.Closure) :
  Webgl.linked (Webgl.gl c) = true ->
  (List.length (Webgl.circles c) < 6)%nat ->
  Forall (fun b => Webgl.Circle.color b <> None) (Webgl.circles c) ->
  let result := Webgl.render h c in
  let blobs := Webgl.circles (snd (fst result)) in
  snd result = true /\
  exists u : Webgl.Uniforms,
    Webgl.frames (Webgl.gl (snd (fst result)))
      = Webgl.frames (Webgl.gl c) ++ [u] /\
    Webgl.u_circleCount u = Z.of_nat (List.length blobs) /\
    (forall i, (List.length blobs <= i < 6)%nat ->
       Webgl.vec3At (Webgl.u_circlesColor u) i = Webgl.vec3 0 0 0 /\
       Webgl.vec3At (Webgl.u_circlesPosRad u) i = Webgl.vec3 0 0 0) /\
    (forall v_uv : R * R,
       Webgl.fragment u v_uv
       = Reference.pixel (Webgl.u_resolution u) blobs
           (fst v_uv * fst (Webgl.u_resolution u),
            snd v_uv * snd (Webgl.u_resolution u))) /\
    (forall u' : Webgl.Uniforms,
       Webgl.u_resolution u' = Webgl.u_resolution u ->
       Webgl.u_darkMode u' = Webgl.u_darkMode u ->
       Webgl.u_circleCount u' = Webgl.u_circleCount u ->
       (forall i, (i < List.length blobs)%nat ->
          Webgl.vec3At (Webgl.u_circlesColor u') i
            = Webgl.vec3At (Webgl.u_circlesColor u) i /\
          Webgl.vec3At (Webgl.u_circlesPosRad u') i
            = Webgl.vec3At (Webgl.u_circlesPosRad u) i) ->
       forall v_uv, Webgl.fragment u' v_uv = Webgl.fragment u v_uv).
Proof.
  intros Hlinked Hlen Hcol result blobs.
  set (cs := Webgl.updateCircles (Webgl.mouse c) (Webgl.width c)
                                 (Webgl.height c) (Webgl.circles c)).
  assert (Hlen' : (List.length cs <= 6)%nat)
    by (unfold cs; rewrite updateCircles_length; lia).
  pose proof (updateCircles_colors (Webgl.mouse c) (Webgl.width c)
                (Webgl.height c) _ Hcol) as Hcol'. fold cs in Hcol'.
  destruct (pack_slots cs Hlen' Hcol')
    as (colorsArr & posRadArr & Hpack & Hreal & Hpad).
  destruct (pack_accumulate cs Hlen' Hcol')
    as (colorsArr' & posRadArr' & Hpack' & Hfield).
  rewrite Hpack in Hpack'. injection Hpack' as <- <-.
  subst blobs result.
  rewrite (render_linked h c colorsArr posRadArr Hlinked Hpack). cbn [fst snd].
  split; [reflexivity |].
  exists (uploaded h c colorsArr posRadArr).
  cbn [Webgl.gl Webgl.frames Webgl.circles]. fold cs.
  split; [reflexivity |]. split; [reflexivity |]. split; [exact Hpad |]. split.
  - intros v_uv. apply fragment_reference. apply Hfield.
  - intros u' Hres Hdark Hcount Hslots v_uv.
    apply fragment_padding; try assumption.
    intros i Hi. apply Hslots. rewrite Hcount in Hi.
    cbn [uploaded Webgl.u_circleCount] in Hi. fold cs in Hi. lia.
Qed.

(** C4 at a scene of one blob: five slots are padding. *)
Lemma padding_neutral_witness :
  let h := mkHost 4 2 false true true "" [] [] 0 (fun _ => 0) 0 [] false in
  let g := Webgl.mkGL true (4, 2) Webgl.noUniforms [] in
  let b := Webgl.Circle.new 1 1 2 (Some (Webgl.vec3 1 0 0)) 0 0 true in
  let c := Webgl.mkClosure g 4 2 (mkPoint 1 1) [b] in
  snd (Webgl.render h c) = true.
Proof.
  intros h g b c.
  refine (proj1 (padding_neutral h c eq_refl _ _)).
  - cbn. lia.
  - repeat constructor; discriminate.
Defined.

(** ** Scene creation *)

Lemma initCircles_eq (rnd : nat -> R) (k : nat) (W H : R) :
  Webgl.initCircles rnd k W H =
  ([ webglAmbient rnd k W H 0;
     webglAmbient rnd (k + 5) W H 1;
     webglAmbient rnd (k + 5 + 5) W H 2;
     webglAmbient rnd (k + 5 + 5 + 5) W H 3;
     webglAmbient rnd (k + 5 + 5 + 5 + 5) W H 4;
     Webgl.Circle.new (W / 2) (H / 2) ((W + H) * 0.1)
                      (nth_error Webgl.circleColors 5) 0 0 true ],
   (k + 5 + 5 + 5 + 5 + 5)%nat).
Proof. reflexivity. Qed.

Lemma init_circles (w : Html.World) :
  let rnd := random (Html.host w) in
  let k := randomCalls (Html.host w) in
  let W := Html.width w in
  let H := Html.height w in
  Html.circles (Html.init w) =
  [ htmlAmbient rnd k W H 0;
    htmlAmbient rnd (k + 5) W H 1;
    htmlAmbient rnd (k + 5 + 5) W H 2;
    htmlAmbient rnd (k + 5 + 5 + 5) W H 3;
    htmlAmbient rnd (k + 5 + 5 + 5 + 5) W H 4;
    Html.Circle.new (W / 2) (H / 2) ((W + H) * 0.1)
                    (nth_error Html.colors 5) {| px := 0; py := 0 |} true ].
Proof. reflexivity. Qed.

Lemma forEachCircle_circles (m : Point) (W H : R) (cs : list Html.Circle.t)
    (off : Html.Context2D) :
  fst (Html.forEachCircle m W H cs off) = map (Html.move m W H) cs.
Proof.
  revert off. induction cs as [| c cs IH]; intros off; cbn; [reflexivity |].
  specialize (IH (Html.Circle.draw (Html.move m W H c) off)).
  destruct (Html.forEachCircle m W H cs _) as [rest off']. cbn in *.
  rewrite IH. reflexivity.
Qed.

(** [animate] moves every circle one step and leaves the sizes and the
    pointer alone. *)
Lemma animate_circles (w : Html.World) :
  Html.circles (Html.animate w)
    = map (Html.move (Html.mouse w) (Html.width w) (Html.height w)) (Html.circles w) /\
  Html.width (Html.animate w) = Html.width w /\
  Html.height (Html.animate w) = Html.height w /\
  Html.mouse (Html.animate w) = Html.mouse w.
Proof.
  unfold Html.animate.
  pose proof (forEachCircle_circles (Html.mouse w) (Html.width w) (Html.height w)
                (Html.circles w)) as Hfst.
  match goal with
  | |- context [Html.forEachCircle ?m ?W ?H ?cs ?off] =>
      specialize (Hfst off); destruct (Html.forEachCircle m W H cs off) as [cs' off']
  end.
  cbn in Hfst. subst cs'. cbn. repeat split.
Qed.

Lemma htmlScene_move (m : Point) (W H : R) (cs : list Html.Circle.t) :
  htmlScene cs -> htmlScene (map (Html.move m W H) cs).
Proof.
  intros [Hflag Hcol]. unfold htmlScene. rewrite !map_map.
  rewrite <- Hflag, <- Hcol. split; apply map_ext; intros c;
    destruct (HtmlFacts.move_fixed m W H c) as (_ & Hc & _ & Hi); assumption.
Qed.

Lemma webglScene_update (m : Point) (W H : R) (cs : list Webgl.Circle.t) :
  webglScene cs -> webglScene (Webgl.updateCircles m W H cs).
Proof.
  intros [Hflag Hcol]. unfold webglScene, Webgl.updateCircles. rewrite !map_map.
  rewrite <- Hflag, <- Hcol. split; apply map_ext; intros c;
    destruct (WebglFacts.updateCircle_fixed m W H c) as (_ & Hc & _ & _ & Hi);
    assumption.
Qed.

Lemma htmlScene_init (w : Html.World) : htmlScene (Html.circles (Html.init w)).
Proof. rewrite init_circles. split; reflexivity. Qed.

Lemma webglScene_init (rnd : nat -> R) (k : nat) (W H : R) :
  webglScene (fst (Webgl.initCircles rnd k W H)).
Proof. rewrite initCircles_eq. split; reflexivity. Qed.

Lemma webglScene_colors (cs : list Webgl.Circle.t) :
  webglScene cs ->
  List.length cs = 6%nat /\ Forall (fun c => Webgl.Circle.color c <> None) cs.
Proof.
  intros [Hflag Hcol]. split.
  - rewrite <- (length_map Webgl.Circle.interactive), Hflag. reflexivity.
  - apply Forall_forall. intros c Hc.
    apply (in_map Webgl.Circle.color) in Hc. rewrite Hcol in Hc.
    apply in_map_iff in Hc. destruct Hc as (v & <- & _). discriminate.
Qed.

(** A [render] over a scene runs to its end, asks for the next frame and
    leaves every variable of the closure but [circles] and the GL state as
    it was. *)
Lemma render_scene (h : Host) (c : Webgl.Closure) :
  webglScene (Webgl.circles c) ->
  exists g,
    Webgl.render h c =
    (snd (requestAnimationFrame h),
     {| Webgl.gl := g; Webgl.width := Webgl.width c; Webgl.height := Webgl.height c;
        Webgl.mouse := Webgl.mouse c;
        Webgl.circles := Webgl.updateCircles (Webgl.mouse c) (Webgl.width c)
                                             (Webgl.height c) (Webgl.circles c) |},
     true).
Proof.
  intros Hscene.
  apply (webglScene_update (Webgl.mouse c) (Webgl.width c) (Webgl.height c)) in Hscene.
  destruct (webglScene_colors _ Hscene) as [Hlen Hcol].
  destruct (pack_slots _ (Nat.eq_le_incl _ _ Hlen) Hcol)
    as (colorsArr & posRadArr & Hpack & _).
  unfold Webgl.render. rewrite Hpack. eexists. reflexivity.
Qed.

Lemma html_frames_scene (waiting : list nat) (w : Html.World) :
  htmlScene (Html.circles w) ->
  htmlScene (Html.circles (fold_left (fun w _ => Html.animate w) waiting w)).
Proof.
  revert w. induction waiting as [| r waiting IH]; intros w Hw; cbn; [exact Hw |].
  apply IH. destruct (animate_circles w) as (-> & _). apply htmlScene_move, Hw.
Qed.

Lemma html_dispatch_scene (w : Html.World) (e : Event) :
  htmlScene (Html.circles w) -> htmlScene (Html.circles (Html.dispatch w e)).
Proof.
  intros Hw. destruct e as [iw ih | cx cy | | b |]; unfold Html.dispatch.
  - cbv zeta.
    match goal with |- context [if ?t then _ else _] => destruct t end;
      [unfold Html.resizeCanvas; apply htmlScene_init | exact Hw].
  - match goal with |- context [if ?t then _ else _] => destruct t end; exact Hw.
  - unfold Html.frame. apply html_frames_scene. exact Hw.
  - exact Hw.
  - destruct (unmountHook (Html.host w)); exact Hw.
Qed.

Lemma html_mounted_scene (h : Host) : htmlScene (Html.circles (Html.onMounted h)).
Proof.
  unfold Html.onMounted. cbv zeta.
  change (Html.circles (Html.withHost ?a ?w)) with (Html.circles w).
  match goal with
  | |- htmlScene (Html.circles (Html.animate ?w0)) =>
      destruct (animate_circles w0) as (-> & _)
  end.
  apply htmlScene_move, htmlScene_init.
Qed.

Lemma html_run_scene (es : list Event) (w : Html.World) :
  htmlScene (Html.circles w) -> htmlScene (Html.circles (Html.run w es)).
Proof.
  revert w. induction es as [| e es IH]; intros w Hw; cbn; [exact Hw |].
  apply IH, html_dispatch_scene, Hw.
Qed.

Lemma webgl_frames_scene (waiting : list nat) (h : Host) (c : Webgl.Closure) :
  webglScene (Webgl.circles c) ->
  webglScene (Webgl.circles (snd
    (fold_left (fun hc _ => let '(h, c, _) := Webgl.render (fst hc) (snd hc) in (h, c))
               waiting (h, c)))).
Proof.
  revert h c. induction waiting as [| r waiting IH]; intros h c Hc; cbn [fold_left];
    [exact Hc |].
  cbn [fst snd]. destruct (render_scene h c Hc) as [g ->].
  apply IH. cbn. apply webglScene_update, Hc.
Qed.

Lemma webgl_dispatch_scene (w : Webgl.World) (e : Event) :
  webglRunning w -> webglRunning (Webgl.dispatch w e).
Proof.
  intros (c & Hc & Hscene). unfold webglRunning.
  destruct e as [iw ih | cx cy | | b |]; cbn; rewrite ?Hc.
  - match goal with |- context [if ?t then _ else _] => destruct t end; cbn; eauto.
  - match goal with |- context [if ?t then _ else _] => destruct t end; cbn; eauto.
  - unfold Webgl.frame. rewrite Hc.
    pose proof (webgl_frames_scene (frameRequests (Webgl.host w))
                  (setFrameRequests [] (nextRequestId (Webgl.host w)) (Webgl.host w))
                  c Hscene) as Hfold.
    destruct (fold_left _ _ _) as [h' c']. cbn in *. eauto.
  - eauto.
  - eauto.
Qed.

Lemma webgl_run_scene (es : list Event) (w : Webgl.World) :
  webglRunning w -> webglRunning (Webgl.run w es).
Proof.
  revert w. induction es as [| e es IH]; intros w Hw; cbn; [exact Hw |].
  apply IH, webgl_dispatch_scene, Hw.
Qed.

(** What [onMounted] leaves on a host with WebGL. *)
Lemma webgl_mounted (h : Host) :
  webgl h = true ->
  exists h' g,
    listeners h' =
      addEventListener ("mousemove"%string, OnMouseMove)
        (addEventListener ("resize"%string, ResizeCanvas) (listeners h)) /\
    frameRequests h' = frameRequests h /\
    nextRequestId h' = nextRequestId h /\
    Webgl.onMounted h =
    {| Webgl.host := registerUnmountHook (snd (requestAnimationFrame h'));
       Webgl.closure := Some
         {| Webgl.gl := g; Webgl.width := innerWidth h; Webgl.height := innerHeight h;
            Webgl.mouse := {| px := innerWidth h / 2; py := innerHeight h / 2 |};
            Webgl.circles :=
              Webgl.updateCircles
                {| px := innerWidth h / 2; py := innerHeight h / 2 |}
                (innerWidth h) (innerHeight h)
                (fst (Webgl.initCircles (random h) (randomCalls h)
                                        (innerWidth h) (innerHeight h))) |} |}.
Proof.
  intros Hgl. unfold Webgl.onMounted. rewrite Hgl. cbn [negb].
  cbn [innerWidth innerHeight setListeners listeners random randomCalls].
  pose proof (webglScene_init (random h) (randomCalls h) (innerWidth h)
                              (innerHeight h)) as Hscene.
  destruct (Webgl.initCircles (random h) (randomCalls h) (innerWidth h)
                              (innerHeight h)) as [cs k].
  cbn [fst] in Hscene. cbv zeta.
  match goal with
  | |- context [Webgl.render ?hh ?cc] =>
      destruct (render_scene hh cc Hscene) as [g ->];
      exists hh, g
  end.
  cbn [Webgl.width Webgl.height Webgl.mouse Webgl.circles fst].
  repeat split; destruct (linkStatus _); reflexivity.
Qed.

Lemma webgl_mounted_running (h : Host) :
  webgl h = true -> webglRunning (Webgl.onMounted h).
Proof.
  intros Hgl. destruct (webgl_mounted h Hgl) as (h' & g & _ & _ & _ & ->).
  eexists. split; [reflexivity |]. cbn [Webgl.circles].
  apply webglScene_update, webglScene_init.
Qed.

Lemma htmlScene_counts (cs : list Html.Circle.t) :
  htmlScene cs ->
  List.length cs = 6%nat /\
  List.length (filter Html.Circle.isInteractive cs) = 1%nat /\
  (forall i, nth_error (map Html.Circle.color cs) i
             = option_map Some (nth_error Html.colors i)).
Proof.
  intros [Hflag Hcol].
  do 7 (destruct cs as [| ? cs]; try discriminate Hflag).
  cbn in Hflag. injection Hflag as H0 H1 H2 H3 H4 H5.
  cbn [filter List.length]. rewrite H0, H1, H2, H3, H4, H5.
  repeat split. intros i. rewrite Hcol.
  do 6 (destruct i as [| i]; [reflexivity |]). destruct i; reflexivity.
Qed.

Lemma webglScene_counts (cs : list Webgl.Circle.t) :
  webglScene cs ->
  List.length cs = 6%nat /\
  List.length (filter Webgl.Circle.interactive cs) = 1%nat /\
  (forall i, nth_error (map Webgl.Circle.color cs) i
             = option_map Some (nth_error Webgl.circleColors i)).
Proof.
  intros [Hflag Hcol].
  do 7 (destruct cs as [| ? cs]; try discriminate Hflag).
  cbn in Hflag. injection Hflag as H0 H1 H2 H3 H4 H5.
  cbn [filter List.length]. rewrite H0, H1, H2, H3, H4, H5.
  repeat split. intros i. rewrite Hcol.
  do 6 (destruct i as [| i]; [reflexivity |]). destruct i; reflexivity.
Qed.

(** C8.  [init] and [initCircles] yield, whatever [Math.random] returns,
    exactly six blobs: five non-interactive ones and then the interactive
    one, blob [i] with palette entry [i].  Every simulation step keeps
    this, and so does every event after mounting: the scene of a running
    component always has six blobs, one of them interactive, in that
    order. *)
Theorem scene_structure :
  (* creation *)
  (forall w : Html.World, htmlScene (Html.circles (Html.init w))) /\
  (forall (rnd : nat -> R) (k : nat) (W H : R),
      webglScene (fst (Webgl.initCircles rnd k W H))) /\
  (* what the shape says *)
  (forall cs, htmlScene cs ->
      List.length cs = 6%nat /\
      List.length (filter Html.Circle.isInteractive cs) = 1%nat /\
      forall i, nth_error (map Html.Circle.color cs) i
                = option_map Some (nth_error Html.colors i)) /\
  (forall cs, webglScene cs ->
      List.length cs = 6%nat /\
      List.length (filter Webgl.Circle.interactive cs) = 1%nat /\
      forall i, nth_error (map Webgl.Circle.color cs) i
                = option_map Some (nth_error Webgl.circleColors i)) /\
  (* simulation steps *)
  (forall w : Html.World,
      htmlScene (Html.circles w) -> htmlScene (Html.circles (Html.animate w))) /\
  (forall (m : Point) (W H : R) cs,
      webglScene cs -> webglScene (Webgl.updateCircles m W H cs)) /\
  (* every state of a mounted component *)
  (forall (h : Host) (es : list Event),
      htmlScene (Html.circles (Html.run (Html.onMounted h) es))) /\
  (forall (h : Host) (es : list Event),
      webgl h = true -> webglRunning (Webgl.run (Webgl.onMounted h) es)).
Proof.
  split; [exact htmlScene_init |].
  split; [exact webglScene_init |].
  split; [exact htmlScene_counts |].
  split; [exact webglScene_counts |].
  split.
  { intros w Hw. destruct (animate_circles w) as (-> & _).
    apply htmlScene_move, Hw. }
  split; [exact webglScene_update |].
  split.
  - intros h es. apply html_run_scene, html_mounted_scene.
  - intros h es Hgl. apply webgl_run_scene, webgl_mounted_running, Hgl.
Qed.

(** C8 on a 100 x 50 window where [Math.random] always returns [0.25]:
    the scene after mounting, a frame, a resize and another frame. *)
Lemma scene_structure_witness :
  let h := mkHost 100 50 false true true "" [] [] 0 (fun _ => 0.25) 0 [] false in
  let es := [Frame; Resize 80 60; Frame] in
  htmlScene (Html.circles (Html.run (Html.onMounted h) es)) /\
  webglRunning (Webgl.run (Webgl.onMounted h) es).
Proof.
  intros h es.
  destruct scene_structure as (_ & _ & _ & _ & _ & _ & Hhtml & Hwebgl).
  split; [apply Hhtml | apply Hwebgl; reflexivity].
Defined.

(** ** Theme *)

Lemma forEachCircle_offCtx (m : Point) (W H : R) (cs : list Html.Circle.t) :
  forall off : Html.Context2D,
    let off' := snd (Html.forEachCircle m W H cs off) in
    Html.filter off' = Html.filter off /\
    Html.globalCompositeOperation off' = Html.globalCompositeOperation off /\
    Html.drawn off' =
      Html.drawn off ++ map (arcOf (Html.filter off) (Html.globalCompositeOperation off))
                            (map (Html.move m W H) cs).
Proof.
  induction cs as [| c cs IH]; intros off; cbn.
  - repeat split. symmetry. apply app_nil_r.
  - specialize (IH (Html.Circle.draw (Html.move m W H c) off)).
    destruct (Html.forEachCircle m W H cs _) as [rest off']. cbn in *.
    destruct IH as (-> & -> & ->). repeat split.
    rewrite <- app_assoc. reflexivity.
Qed.

(** What one [animate] paints: on the off-screen canvas a clear and one
    arc a circle, under the blur of the theme; on the visible canvas a
    clear, the backdrop and the off-screen canvas, composed in the mode of
    the theme. *)
Lemma animate_drawn (w : Html.World) :
  let a := Html.animate w in
  let W := Html.width w in
  let H := Html.height w in
  let dark := darkIsActive (Html.host w) in
  let backdrop :=
    Html.LinearGradient 0 0 W H
      [(0, "rgb(108, 0, 162)"%string); (1, "rgb(0, 17, 82)"%string)] in
  Html.filter (Html.offCtx a) = Html.blurMode dark /\
  Html.drawn (Html.offCtx a) =
    Html.drawn (Html.offCtx w)
    ++ Html.Painted (Html.ClearRect 0 0 W H)
       :: map (arcOf (Html.blurMode dark) "source-over") (Html.circles a) /\
  Html.drawn (Html.ctx a) =
    Html.drawn (Html.ctx w)
    ++ [ Html.Painted (Html.ClearRect 0 0 W H);
         Html.Painted (Html.FillRect (Some backdrop) 0 0 W H);
         Html.DrawImage (Html.lightMode dark)
                        (Html.paints (Html.drawn (Html.offCtx a))) 0 0 ] /\
  Html.globalCompositeOperation (Html.ctx a) = "source-over"%string.
Proof.
  unfold Html.animate.
  match goal with
  | |- context [Html.forEachCircle ?m ?W ?H ?cs ?off] =>
      pose proof (forEachCircle_offCtx m W H cs off) as Hoff;
      pose proof (forEachCircle_circles m W H cs off) as Hcs;
      destruct (Html.forEachCircle m W H cs off) as [cs' off']
  end.
  cbn in Hoff, Hcs. destruct Hoff as (Hf & Hg & Hd). subst cs'.
  cbn. rewrite Hf, Hd. repeat split.
  - rewrite <- app_assoc. reflexivity.
  - rewrite <- !app_assoc. reflexivity.
Qed.

(** C6.  The theme flag alone selects the branch.  Raster compositor:
    with [darkMode = false] every circle of the frame is drawn under
    [blur(80px)] and the off-screen canvas is composed in mode [lighter];
    with [darkMode = true] it is [blur(40px)] and [hue].  Field renderer:
    [render] uploads the flag and the shader takes its light arm when the
    flag is [false], its dark arm when it is [true]. *)
Theorem theme_branch :
  (forall w : Html.World,
      let a := Html.animate w in
      let flt :=
        (if darkIsActive (Html.host w) then "blur(40px)" else "blur(80px)")%string in
      let mode := (if darkIsActive (Html.host w) then "hue" else "lighter")%string in
      Html.filter (Html.offCtx a) = flt /\
      Html.drawn (Html.offCtx a) =
        Html.drawn (Html.offCtx w)
        ++ Html.Painted (Html.ClearRect 0 0 (Html.width w) (Html.height w))
           :: map (arcOf flt "source-over") (Html.circles a) /\
      exists before,
        Html.drawn (Html.ctx a) =
          before ++ [Html.DrawImage mode (Html.paints (Html.drawn (Html.offCtx a))) 0 0]) /\
  (forall (h : Host) (c : Webgl.Closure),
      Webgl.linked (Webgl.gl c) = true ->
      webglScene (Webgl.circles c) ->
      exists u : Webgl.Uniforms,
        Webgl.frames (Webgl.gl (snd (fst (Webgl.render h c))))
          = Webgl.frames (Webgl.gl c) ++ [u] /\
        Webgl.u_darkMode u = (if darkIsActive h then 1%Z else 0%Z) /\
        Webgl.arm u = (if darkIsActive h then Webgl.DarkArm else Webgl.LightArm) /\
        forall v_uv,
          let st := (fst v_uv * Webgl.width c, snd v_uv * Webgl.height c) in
          Webgl.fragment u v_uv =
          (Webgl.armColor (if darkIsActive h then Webgl.DarkArm else Webgl.LightArm)
             (Webgl.bgColor u st) (Webgl.finalCirclesColor (Webgl.accumulate u st))
             (Webgl.pow (fst (Webgl.accumulate u st)) 1.4),
           1.0)).
Proof.
  split.
  - intros w a flt mode.
    destruct (animate_drawn w) as (Hf & Hoff & Hctx & _). fold a in Hf, Hoff, Hctx.
    assert (Hblur : Html.blurMode (darkIsActive (Html.host w)) = flt)
      by (unfold flt; destruct (darkIsActive (Html.host w)); reflexivity).
    assert (Hmode : Html.lightMode (darkIsActive (Html.host w)) = mode)
      by (unfold mode; destruct (darkIsActive (Html.host w)); reflexivity).
    rewrite Hblur in Hf, Hoff. rewrite Hmode in Hctx.
    split; [exact Hf |]. split; [exact Hoff |].
    eexists. rewrite Hctx.
    change (?l ++ [?x; ?y; ?z]) with (l ++ [x; y] ++ [z]).
    rewrite app_assoc. reflexivity.
  - intros h c Hlinked Hscene.
    apply (webglScene_update (Webgl.mouse c) (Webgl.width c) (Webgl.height c))
      in Hscene.
    destruct (webglScene_colors _ Hscene) as [Hlen Hcol].
    destruct (pack_slots _ (Nat.eq_le_incl _ _ Hlen) Hcol)
      as (colorsArr & posRadArr & Hpack & _).
    rewrite (render_linked h c colorsArr posRadArr Hlinked Hpack). cbn [fst snd].
    set (u := uploaded h c colorsArr posRadArr).
    assert (Harm : Webgl.arm u
                   = if darkIsActive h then Webgl.DarkArm else Webgl.LightArm)
      by (unfold Webgl.arm, u, uploaded; cbn; destruct (darkIsActive h); reflexivity).
    exists u. split; [reflexivity |]. split; [reflexivity |].
    split; [exact Harm |].
    intros v_uv. unfold Webgl.fragment. rewrite Harm. reflexivity.
Qed.

(** C6 on the scene of a freshly mounted field renderer, in the light
    theme: the flag uploaded is [0] and the arm taken is the light one. *)
Lemma theme_branch_witness :
  let h := mkHost 100 50 false true true "" [] [] 0 (fun _ => 0.25) 0 [] false in
  let g := Webgl.mkGL true (100, 50) Webgl.noUniforms [] in
  let c := Webgl.mkClosure g 100 50 (mkPoint 50 25)
             (fst (Webgl.initCircles (fun _ => 0.25) 0 100 50)) in
  exists u : Webgl.Uniforms,
    Webgl.frames (Webgl.gl (snd (fst (Webgl.render h c)))) = [u] /\
    Webgl.u_darkMode u = 0%Z /\
    Webgl.arm u = Webgl.LightArm.
Proof.
  intros h g c.
  destruct (proj2 theme_branch h c eq_refl
              (webglScene_init (fun _ => 0.25) 0 100 50))
    as (u & Hframes & Hflag & Harm & _).
  exists u. repeat split; assumption.
Defined.

(** C7.  For every background, blob colour and intensity the dark arm of
    the shader computes what the light arm computes,
    [mix(bgColor, finalCirclesColor, clamp(intensity, 0, 1))]; so the pixel
    does not depend on [u_darkMode]. *)
Theorem theme_arms_equal :
  (forall (bg fc : Webgl.Vec3) (intensity : R),
      Webgl.armColor Webgl.DarkArm bg fc intensity
        = Webgl.armColor Webgl.LightArm bg fc intensity /\
      Webgl.armColor Webgl.LightArm bg fc intensity
        = Webgl.mix bg fc (Webgl.clamp intensity 0 1)) /\
  (forall (u : Webgl.Uniforms) (dark : Z) (v_uv : R * R),
      Webgl.fragment
        {| Webgl.u_resolution := Webgl.u_resolution u; Webgl.u_darkMode := dark;
           Webgl.u_circleCount := Webgl.u_circleCount u;
           Webgl.u_circlesColor := Webgl.u_circlesColor u;
           Webgl.u_circlesPosRad := Webgl.u_circlesPosRad u;
           Webgl.u_mouse := Webgl.u_mouse u |} v_uv
      = Webgl.fragment u v_uv).
Proof.
  split.
  - intros bg fc intensity. split; [reflexivity |].
    cbn. replace 0.0 with 0 by lra. replace 1.0 with 1 by lra. reflexivity.
  - intros u dark v_uv. unfold Webgl.fragment.
    set (d := {| Webgl.u_resolution := Webgl.u_resolution u;
                 Webgl.u_darkMode := dark;
                 Webgl.u_circleCount := Webgl.u_circleCount u;
                 Webgl.u_circlesColor := Webgl.u_circlesColor u;
                 Webgl.u_circlesPosRad := Webgl.u_circlesPosRad u;
                 Webgl.u_mouse := Webgl.u_mouse u |}).
    assert (Hacc : forall st, Webgl.accumulate d st = Webgl.accumulate u st)
      by reflexivity.
    assert (Hbg : forall st, Webgl.bgColor d st = Webgl.bgColor u st) by reflexivity.
    cbn [Webgl.u_resolution d]. rewrite Hacc, Hbg.
    destruct (Webgl.arm d), (Webgl.arm u); reflexivity.
Qed.

(** ** Start-up without WebGL *)

(** C9.  When [getContext("webgl")] returns nothing, [onMounted] logs
    exactly one line and returns: no closure and so no scene exists, no
    listener and no unmount hook is registered, no frame is requested; and
    whatever the host sends afterwards, no scene appears, nothing more is
    logged and no frame is requested. *)
Theorem webgl_unavailable (h : Host) :
  webgl h = false ->
  let w := Webgl.onMounted h in
  console (Webgl.host w) = console h ++ ["WebGL not supported"%string] /\
  Webgl.closure w = None /\
  listeners (Webgl.host w) = listeners h /\
  frameRequests (Webgl.host w) = frameRequests h /\
  unmountHook (Webgl.host w) = unmountHook h /\
  forall es : list Event,
    Webgl.closure (Webgl.run w es) = None /\
    console (Webgl.host (Webgl.run w es)) = console (Webgl.host w) /\
    frameRequests (Webgl.host (Webgl.run w es)) = frameRequests h.
Proof.
  intros Hgl w. unfold w, Webgl.onMounted. rewrite Hgl. cbn [negb].
  repeat (split; [reflexivity |]).
  intros es.
  set (w0 := {| Webgl.host := consoleError "WebGL not supported" h;
                Webgl.closure := None |}).
  assert (Hinv : forall es v,
             Webgl.closure v = None ->
             Webgl.closure (Webgl.run v es) = None /\
             console (Webgl.host (Webgl.run v es)) = console (Webgl.host v) /\
             frameRequests (Webgl.host (Webgl.run v es)) = frameRequests (Webgl.host v)).
  { clear. induction es as [| e es IH]; intros v Hv; cbn [Webgl.run fold_left].
    - repeat split; assumption.
    - assert (Hstep : Webgl.closure (Webgl.dispatch v e) = None /\
                      console (Webgl.host (Webgl.dispatch v e)) = console (Webgl.host v) /\
                      frameRequests (Webgl.host (Webgl.dispatch v e))
                        = frameRequests (Webgl.host v)).
      { destruct e as [iw ih | cx cy | | b |]; unfold Webgl.dispatch;
          cbv zeta; cbn [Webgl.closure Webgl.host]; rewrite ?Hv.
        - destruct (listening _ _); repeat split.
        - destruct (listening _ _); repeat split.
        - unfold Webgl.frame. rewrite Hv. repeat split. exact Hv.
        - repeat split.
        - destruct (unmountHook (Webgl.host v)); repeat split. }
      destruct Hstep as (Hc & Hl & Hf).
      destruct (IH (Webgl.dispatch v e) Hc) as (Hc' & Hl' & Hf').
      fold (Webgl.run (Webgl.dispatch v e) es).
      rewrite Hc', Hl', Hf', Hl, Hf. repeat split. }
  destruct (Hinv es w0 eq_refl) as (Hc & Hl & Hf).
  rewrite Hc, Hl, Hf. repeat split.
Qed.

(** C9 on a host without WebGL, for a resize, a mouse move and a refresh
    that follow. *)
Lemma webgl_unavailable_witness :
  let h := mkHost 100 50 false false true "" [] [] 0 (fun _ => 0) 0 [] false in
  console (Webgl.host (Webgl.onMounted h)) = ["WebGL not supported"%string] /\
  Webgl.closure (Webgl.run (Webgl.onMounted h) [Resize 80 60; MouseMove 1 2; Frame])
    = None.
Proof.
  intros h.
  destruct (webgl_unavailable h eq_refl) as (Hlog & _ & _ & _ & _ & Hrun).
  split; [exact Hlog |].
  exact (proj1 (Hrun [Resize 80 60; MouseMove 1 2; Frame])).
Defined.

(** ** Field renderer: the division by [2 sigma^2] *)

Lemma denominator_of_radius (u : Webgl.Uniforms) (i : nat) (x y r : R) :
  Webgl.vec3At (Webgl.u_circlesPosRad u) i = Webgl.vec3 x y r ->
  Webgl.denominator u i = 2.0 * (r * 0.5) * (r * 0.5).
Proof. intros Hp. unfold Webgl.denominator. rewrite Hp. reflexivity. Qed.

Lemma updateCircles_radius (m : Point) (W H : R) (cs : list Webgl.Circle.t) :
  Forall (fun b => 0 < Webgl.Circle.radius b) cs ->
  Forall (fun b => 0 < Webgl.Circle.radius b) (Webgl.updateCircles m W H cs).
Proof.
  intros Hcs. unfold Webgl.updateCircles. apply Forall_map.
  eapply Forall_impl; [| exact Hcs]. intros c Hc.
  destruct (WebglFacts.updateCircle_fixed m W H c) as (-> & _). exact Hc.
Qed.

(** The frame a linked [render] draws from at most six blobs of positive
    radius: the loop visits the slots of the blobs, none of which has a
    zero denominator, and no padded slot, all of which have one. *)
Lemma render_denominators (h : Host) (c : Webgl.Closure) :
  Webgl.linked (Webgl.gl c) = true ->
  (List.length (Webgl.circles c) <= 6)%nat ->
  Forall (fun b => Webgl.Circle.color b <> None) (Webgl.circles c) ->
  Forall (fun b => 0 < Webgl.Circle.radius b) (Webgl.circles c) ->
  exists u : Webgl.Uniforms,
    Webgl.frames (Webgl.gl (snd (fst (Webgl.render h c))))
      = Webgl.frames (Webgl.gl c) ++ [u] /\
    Webgl.u_circleCount u = Z.of_nat (List.length (Webgl.circles c)) /\
    Webgl.visited u = seq 0 (List.length (Webgl.circles c)) /\
    Forall (fun i => Webgl.denominator u i <> 0) (Webgl.visited u) /\
    (forall i, (List.length (Webgl.circles c) <= i < 6)%nat ->
       Webgl.denominator u i = 0 /\ ~ In i (Webgl.visited u)).
Proof.
  intros Hlinked Hlen Hcol Hrad.
  set (cs := Webgl.updateCircles (Webgl.mouse c) (Webgl.width c)
                                 (Webgl.height c) (Webgl.circles c)).
  assert (Hn : List.length cs = List.length (Webgl.circles c))
    by apply updateCircles_length.
  assert (Hlen' : (List.length cs <= 6)%nat) by lia.
  pose proof (updateCircles_colors (Webgl.mouse c) (Webgl.width c)
                (Webgl.height c) _ Hcol) as Hcol'. fold cs in Hcol'.
  pose proof (updateCircles_radius (Webgl.mouse c) (Webgl.width c)
                (Webgl.height c) _ Hrad) as Hrad'. fold cs in Hrad'.
  destruct (pack_slots cs Hlen' Hcol')
    as (colorsArr & posRadArr & Hpack & Hreal & Hpad).
  rewrite (render_linked h c colorsArr posRadArr Hlinked Hpack). cbn [fst snd].
  set (u := uploaded h c colorsArr posRadArr).
  assert (Hcount : Webgl.u_circleCount u = Z.of_nat (List.length (Webgl.circles c))).
  { unfold u, uploaded; cbn [Webgl.u_circleCount]. fold cs. rewrite Hn. reflexivity. }
  assert (Hvis : Webgl.visited u = seq 0 (List.length (Webgl.circles c))).
  { rewrite (visited_seq u _ Hcount). rewrite Nat.min_r by exact Hlen. reflexivity. }
  exists u. cbn [Webgl.gl Webgl.frames].
  split; [reflexivity |]. split; [exact Hcount |]. split; [exact Hvis |]. split.
  - rewrite Hvis. apply Forall_forall. intros i Hi. apply in_seq in Hi.
    destruct (nth_error cs i) as [b |] eqn:Hb;
      [| apply nth_error_None in Hb; lia].
    destruct (Hreal i b Hb) as [_ Hp].
    rewrite (denominator_of_radius u i _ _ _ Hp).
    apply nth_error_In in Hb.
    pose proof (proj1 (Forall_forall _ _) Hrad' b Hb) as Hpos. cbn in Hpos.
    assert (Hsq : 0 < Webgl.Circle.radius b * 0.5) by lra.
    replace 2.0 with 2 by lra. nra.
  - intros i Hi. split.
    + destruct (Hpad i ltac:(lia)) as [_ Hp].
      rewrite (denominator_of_radius u i _ _ _ Hp). lra.
    + rewrite Hvis. intros Hin. apply in_seq in Hin. lia.
Qed.

Lemma render_unlinked (h : Host) (c : Webgl.Closure) (colorsArr posRadArr : list R) :
  Webgl.linked (Webgl.gl c) = false ->
  Webgl.pack (Webgl.updateCircles (Webgl.mouse c) (Webgl.width c)
                                  (Webgl.height c) (Webgl.circles c))
    = Some (colorsArr, posRadArr) ->
  Webgl.frames (Webgl.gl (snd (fst (Webgl.render h c)))) = Webgl.frames (Webgl.gl c).
Proof.
  intros Hlinked Hpack. unfold Webgl.render. rewrite Hpack.
  unfold Webgl.drawArrays, Webgl.setUniforms, Webgl.setViewport; cbn.
  rewrite Hlinked. reflexivity.
Qed.

Lemma render_sound (h : Host) (c : Webgl.Closure) :
  webglScene (Webgl.circles c) ->
  Forall (fun b => 0 < Webgl.Circle.radius b) (Webgl.circles c) ->
  Forall soundFrame (Webgl.frames (Webgl.gl c)) ->
  exists h' c',
    Webgl.render h c = (h', c', true) /\
    webglScene (Webgl.circles c') /\
    Forall (fun b => 0 < Webgl.Circle.radius b) (Webgl.circles c') /\
    Forall soundFrame (Webgl.frames (Webgl.gl c')).
Proof.
  intros Hscene Hrad Hframes.
  destruct (render_scene h c Hscene) as [g Hrender].
  destruct (webglScene_colors _ Hscene) as [Hlen Hcol].
  eexists. eexists. split; [exact Hrender |]. cbn [Webgl.circles Webgl.gl].
  split; [apply webglScene_update, Hscene |].
  split; [apply updateCircles_radius, Hrad |].
  assert (Hg : g = Webgl.gl (snd (fst (Webgl.render h c))))
    by (rewrite Hrender; reflexivity).
  rewrite Hg. destruct (Webgl.linked (Webgl.gl c)) eqn:Hlinked.
  - destruct (render_denominators h c Hlinked (Nat.eq_le_incl _ _ Hlen) Hcol Hrad)
      as (u & -> & Hcount & Hvis & Hden & _).
    apply Forall_app. split; [exact Hframes |].
    constructor; [| constructor]. rewrite Hlen in Hcount, Hvis.
    repeat split; assumption.
  - apply (webglScene_update (Webgl.mouse c) (Webgl.width c) (Webgl.height c))
      in Hscene.
    destruct (webglScene_colors _ Hscene) as [Hlen' Hcol'].
    destruct (pack_slots _ (Nat.eq_le_incl _ _ Hlen') Hcol')
      as (colorsArr & posRadArr & Hpack & _).
    rewrite (render_unlinked h c colorsArr posRadArr Hlinked Hpack).
    exact Hframes.
Qed.

Lemma webgl_frames_sound (waiting : list nat) (h : Host) (c : Webgl.Closure) :
  webglScene (Webgl.circles c) ->
  Forall (fun b => 0 < Webgl.Circle.radius b) (Webgl.circles c) ->
  Forall soundFrame (Webgl.frames (Webgl.gl c)) ->
  let c' := snd (fold_left
    (fun hc _ => let '(h, c, _) := Webgl.render (fst hc) (snd hc) in (h, c))
    waiting (h, c)) in
  webglScene (Webgl.circles c') /\
  Forall (fun b => 0 < Webgl.Circle.radius b) (Webgl.circles c') /\
  Forall soundFrame (Webgl.frames (Webgl.gl c')).
Proof.
  revert h c. induction waiting as [| r waiting IH]; intros h c Hs Hr Hf;
    cbn [fold_left]; [cbn; tauto |].
  cbn [fst snd].
  destruct (render_sound h c Hs Hr Hf) as (h' & c' & -> & Hs' & Hr' & Hf').
  apply IH; assumption.
Qed.

Lemma webgl_dispatch_sound (w : Webgl.World) (e : Event) :
  webglSound w -> webglSound (Webgl.dispatch w e).
Proof.
  intros (c & Hc & Hs & Hr & Hf). unfold webglSound.
  destruct e as [iw ih | cx cy | | b |]; unfold Webgl.dispatch; cbv zeta;
    cbn [Webgl.closure Webgl.host]; rewrite ?Hc.
  - destruct (listening _ _); cbn [option_map]; eexists; (split; [reflexivity |]);
      cbn; tauto.
  - destruct (listening _ _); cbn [option_map]; eexists; (split; [reflexivity |]);
      cbn; tauto.
  - unfold Webgl.frame. rewrite Hc.
    pose proof (webgl_frames_sound (frameRequests (Webgl.host w))
                  (setFrameRequests [] (nextRequestId (Webgl.host w)) (Webgl.host w))
                  c Hs Hr Hf) as Hfold.
    destruct (fold_left _ _ _) as [h' c']. cbn in Hfold |- *.
    exists c'. tauto.
  - exists c. tauto.
  - exists c. tauto.
Qed.

Lemma webgl_run_sound (es : list Event) (w : Webgl.World) :
  webglSound w -> webglSound (Webgl.run w es).
Proof.
  revert w. induction es as [| e es IH]; intros w Hw; cbn; [exact Hw |].
  apply IH, webgl_dispatch_sound, Hw.
Qed.

Lemma initCircles_radius (rnd : nat -> R) (k : nat) (W H : R) :
  0 < W + H ->
  Forall (fun b => 0 < Webgl.Circle.radius b) (fst (Webgl.initCircles rnd k W H)).
Proof.
  intros Hpos. rewrite initCircles_eq. cbn [fst].
  repeat constructor; cbn; lra.
Qed.

Lemma webgl_mounted_sound (h : Host) :
  webgl h = true -> 0 < innerWidth h + innerHeight h ->
  webglSound (Webgl.onMounted h).
Proof.
  intros Hgl Hpos. unfold Webgl.onMounted. rewrite Hgl. cbn [negb].
  cbn [innerWidth innerHeight setListeners listeners random randomCalls].
  pose proof (webglScene_init (random h) (randomCalls h) (innerWidth h)
                              (innerHeight h)) as Hscene.
  pose proof (initCircles_radius (random h) (randomCalls h) (innerWidth h)
                                 (innerHeight h) Hpos) as Hrad.
  destruct (Webgl.initCircles (random h) (randomCalls h) (innerWidth h)
                              (innerHeight h)) as [cs k].
  cbn [fst] in Hscene, Hrad. cbv zeta.
  match goal with
  | |- context [Webgl.render ?hh ?cc] =>
      destruct (render_sound hh cc Hscene Hrad) as (h' & c' & -> & Hs & Hr & Hf)
  end.
  - cbn. constructor.
  - exists c'. cbn. tauto.
Qed.

(** C10.  The loop of the fragment shader divides by [2 sigma^2] at the
    slots below [u_circleCount] and at no other; [render] uploads
    [circles.length] there.  So for blobs of positive radius no division by
    zero is evaluated, and the zero-radius padding, whose denominator is
    zero, is never visited.  The blobs of [initCircles] have positive
    radius when [width + height > 0], and no event changes a radius: every
    frame the mounted component ever draws visits the six slots and
    divides by a non-zero number in each. *)
Theorem sigma_never_zero :
  (forall (u : Webgl.Uniforms) (st : R * R),
      Webgl.accumulate u st
      = fold_left (fun acc i => Webgl.slot u st i acc) (Webgl.visited u)
                  (0, Webgl.vec3 0 0 0)) /\
  (forall (h : Host) (c : Webgl.Closure),
      Webgl.linked (Webgl.gl c) = true ->
      (List.length (Webgl.circles c) <= 6)%nat ->
      Forall (fun b => Webgl.Circle.color b <> None) (Webgl.circles c) ->
      Forall (fun b => 0 < Webgl.Circle.radius b) (Webgl.circles c) ->
      exists u : Webgl.Uniforms,
        Webgl.frames (Webgl.gl (snd (fst (Webgl.render h c))))
          = Webgl.frames (Webgl.gl c) ++ [u] /\
        Webgl.u_circleCount u = Z.of_nat (List.length (Webgl.circles c)) /\
        Webgl.visited u = seq 0 (List.length (Webgl.circles c)) /\
        Forall (fun i => Webgl.denominator u i <> 0) (Webgl.visited u) /\
        (forall i, (List.length (Webgl.circles c) <= i < 6)%nat ->
           Webgl.denominator u i = 0 /\ ~ In i (Webgl.visited u))) /\
  (forall (rnd : nat -> R) (k : nat) (W H : R),
      0 < W + H ->
      Forall (fun b => 0 < Webgl.Circle.radius b)
             (fst (Webgl.initCircles rnd k W H))) /\
  (forall (h : Host) (es : list Event),
      webgl h = true -> 0 < innerWidth h + innerHeight h ->
      exists c : Webgl.Closure,
        Webgl.closure (Webgl.run (Webgl.onMounted h) es) = Some c /\
        Forall (fun b => 0 < Webgl.Circle.radius b) (Webgl.circles c) /\
        Forall soundFrame (Webgl.frames (Webgl.gl c))).
Proof.
  split; [exact accumulate_visited |].
  split; [exact render_denominators |].
  split; [exact initCircles_radius |].
  intros h es Hgl Hpos.
  destruct (webgl_run_sound es _ (webgl_mounted_sound h Hgl Hpos))
    as (c & Hc & _ & Hr & Hf).
  exists c. tauto.
Qed.

(** C10 on a 100 x 50 window: after mounting and two refreshes around a
    resize to nothing, every frame drawn is sound. *)
Lemma sigma_never_zero_witness :
  let h := mkHost 100 50 false true true "" [] [] 0 (fun _ => 0.25) 0 [] false in
  exists c : Webgl.Closure,
    Webgl.closure (Webgl.run (Webgl.onMounted h) [Frame; Resize 0 0; Frame]) = Some c /\
    Forall soundFrame (Webgl.frames (Webgl.gl c)).
Proof.
  intros h.
  destruct (proj2 (proj2 (proj2 sigma_never_zero)) h [Frame; Resize 0 0; Frame]
              eq_refl ltac:(cbn; lra))
    as (c & Hc & _ & Hf).
  exists c. split; assumption.
Defined.

(** ** Teardown *)

(** *** The 2D-canvas component *)

Lemma animate_host (w : Html.World) :
  Html.host (Html.animate w) = snd (requestAnimationFrame (Html.host w)) /\
  Html.animationFrameId (Html.animate w) = Some (nextRequestId (Html.host w)).
Proof.
  unfold Html.animate.
  destruct (Html.forEachCircle _ _ _ _ _) as [cs off]. cbn. split; reflexivity.
Qed.

Lemma init_host (w : Html.World) :
  listeners (Html.host (Html.init w)) = listeners (Html.host w) /\
  frameRequests (Html.host (Html.init w)) = frameRequests (Html.host w) /\
  unmountHook (Html.host (Html.init w)) = unmountHook (Html.host w) /\
  nextRequestId (Html.host (Html.init w)) = nextRequestId (Html.host w) /\
  Html.animationFrameId (Html.init w) = Html.animationFrameId w.
Proof.
  unfold Html.init. destruct (forRange _ _ _ _) as [cs k]. cbn. tauto.
Qed.

Lemma html_mounted_live (h : Host) :
  listeners h = [] -> frameRequests h = [] -> htmlLive (Html.onMounted h).
Proof.
  intros Hl Hf. unfold Html.onMounted. cbv zeta. rewrite Hl.
  match goal with
  | |- htmlLive (Html.withHost _ (Html.animate (Html.init ?w0))) =>
      destruct (init_host w0) as (Eil & Eif & _ & _ & _);
      destruct (animate_host (Html.init w0)) as (Eah & Eaid);
      set (wi := Html.init w0) in *
  end.
  unfold htmlLive. cbn [Html.host Html.withHost Html.animationFrameId].
  rewrite Eah, Eaid. unfold requestAnimationFrame. cbn [snd registerUnmountHook
    setFrameRequests listeners unmountHook frameRequests].
  rewrite Eil, Eif. cbn. rewrite Hf.
  split; [reflexivity |]. split; [reflexivity |].
  eexists. split; reflexivity.
Qed.







(** *** The WebGL component *)

(** A refresh while one frame request waits runs [render] once: the
    circles take a step and the next frame is requested. *)
Lemma webgl_frame_step (w : Webgl.World) (c : Webgl.Closure) (id : nat) :
  Webgl.closure w = Some c ->
  webglScene (Webgl.circles c) ->
  frameRequests (Webgl.host w) = [id] ->
  exists g,
    Webgl.dispatch w Frame =
    {| Webgl.host :=
         snd (requestAnimationFrame
                (setFrameRequests [] (nextRequestId (Webgl.host w)) (Webgl.host w)));
       Webgl.closure := Some
         {| Webgl.gl := g; Webgl.width := Webgl.width c;
            Webgl.height := Webgl.height c; Webgl.mouse := Webgl.mouse c;
            Webgl.circles :=
              Webgl.updateCircles (Webgl.mouse c) (Webgl.width c) (Webgl.height c)
                                  (Webgl.circles c) |} |}.
Proof.
  intros Hc Hscene Hf. unfold Webgl.dispatch, Webgl.frame. rewrite Hc, Hf.
  cbn [fold_left fst snd].
  destruct (render_scene
              (setFrameRequests [] (nextRequestId (Webgl.host w)) (Webgl.host w))
              c Hscene) as [g ->].
  exists g. reflexivity.
Qed.

(** On a host on which nothing else is registered, the teardown of the
    WebGL component removes its two listeners and leaves its frame request
    waiting; the refresh that follows moves the circles and requests the
    next frame. *)
Lemma webgl_teardown_loop (h : Host) :
  webgl h = true -> listeners h = [] -> frameRequests h = [] ->
  let w := Webgl.dispatch (Webgl.onMounted h) Unmount in
  let m := {| px := innerWidth h / 2; py := innerHeight h / 2 |} in
  let step := Webgl.updateCircles m (innerWidth h) (innerHeight h) in
  let scene := fst (Webgl.initCircles (random h) (randomCalls h)
                                      (innerWidth h) (innerHeight h)) in
  listeners (Webgl.host w) = [] /\
  frameRequests (Webgl.host w) = [nextRequestId h] /\
  option_map Webgl.circles (Webgl.closure w) = Some (step scene) /\
  frameRequests (Webgl.host (Webgl.dispatch w Frame)) = [S (nextRequestId h)] /\
  option_map Webgl.circles (Webgl.closure (Webgl.dispatch w Frame))
    = Some (step (step scene)).
Proof.
  intros Hgl Hl Hf w m step scene.
  destruct (webgl_mounted h Hgl) as (h' & g & Hl' & Hf' & Hn' & Hw).
  rewrite Hl in Hl'. rewrite Hf in Hf'.
  assert (Hscene : webglScene (step scene))
    by (apply webglScene_update, webglScene_init).
  assert (Hw1 : Webgl.closure w = Webgl.closure (Webgl.onMounted h)) by reflexivity.
  assert (Hhost : Webgl.host w = Webgl.onUnmounted (Webgl.host (Webgl.onMounted h))).
  { unfold w, Webgl.dispatch. rewrite Hw. reflexivity. }
  assert (Hlist : listeners (Webgl.host w) = []).
  { rewrite Hhost, Hw. unfold Webgl.onUnmounted, requestAnimationFrame.
    cbn [Webgl.host snd registerUnmountHook setFrameRequests setListeners listeners].
    rewrite Hl'. reflexivity. }
  assert (Hreq : frameRequests (Webgl.host w) = [nextRequestId h]).
  { rewrite Hhost, Hw. unfold Webgl.onUnmounted, requestAnimationFrame.
    cbn [Webgl.host snd registerUnmountHook setFrameRequests setListeners
         frameRequests].
    rewrite Hf', Hn'. reflexivity. }
  assert (Hnext : nextRequestId (Webgl.host w) = S (nextRequestId h)).
  { rewrite Hhost, Hw. unfold Webgl.onUnmounted, requestAnimationFrame.
    cbn [Webgl.host snd registerUnmountHook setFrameRequests setListeners
         nextRequestId].
    rewrite Hn'. reflexivity. }
  rewrite Hw in Hw1. cbn [Webgl.closure] in Hw1.
  destruct (webgl_frame_step w _ (nextRequestId h) Hw1 Hscene Hreq) as [g' Hframe].
  split; [exact Hlist |]. split; [exact Hreq |].
  split; [rewrite Hw1; reflexivity |].
  rewrite Hframe. unfold requestAnimationFrame.
  cbn [Webgl.host Webgl.closure snd setFrameRequests frameRequests nextRequestId
       option_map Webgl.circles Webgl.mouse Webgl.width Webgl.height].
  rewrite Hnext. split; reflexivity.
Qed.

(** C5 fails on the WebGL component.  On a 100 x 50 window where
    [Math.random] returns [0], the component is mounted and then torn
    down: both listeners are gone, but the frame request of the last
    [render] still waits, for [onUnmounted] cancels nothing; at the next
    refresh [render] runs, carries the first circle from [x = -0.5] to
    [x = -1] and requests yet another frame. *)
Theorem webgl_teardown_keeps_loop :
  let h := mkHost 100 50 false true true "" [] [] 0 (fun _ => 0) 0 [] false in
  let w := Webgl.dispatch (Webgl.onMounted h) Unmount in
  let w' := Webgl.dispatch w Frame in
  listeners (Webgl.host w) = [] /\
  frameRequests (Webgl.host w) = [0%nat] /\
  firstX w = Some (- 0.5) /\
  firstX w' = Some (- 1) /\
  frameRequests (Webgl.host w') = [1%nat].
Proof.
  intros h w w'.
  destruct (webgl_teardown_loop h eq_refl eq_refl eq_refl)
    as (Hl & Hf & Hc & Hf' & Hc').
  fold w in Hl, Hf, Hc, Hf', Hc'. fold w' in Hf', Hc'.
  assert (Hx : forall v cs, option_map Webgl.circles (Webgl.closure v) = Some cs ->
                            firstX v = option_map Webgl.Circle.x (hd_error cs)).
  { intros v cs Hv. unfold firstX. destruct (Webgl.closure v) as [c |];
      cbn in Hv; [| discriminate]. injection Hv as <-. reflexivity. }
  rewrite (Hx _ _ Hc), (Hx _ _ Hc'). clear Hx Hc Hc'.
  rewrite initCircles_eq.
  cbn [fst Webgl.updateCircles map hd_error option_map innerWidth innerHeight
       random randomCalls h].
  set (m := {| px := 100 / 2; py := 50 / 2 |}).
  assert (Hone : Webgl.updateCircle m 100 50 (webglAmbient (fun _ => 0) 0 100 50 0)
                 = Webgl.Circle.new (- 0.5) (- 0.5) ((100 + 50) * 0.2)
                     (nth_error Webgl.circleColors 0) (- 0.5) (- 0.5) false).
  { rewrite WebglFacts.updateCircle_ambient by reflexivity.
    unfold webglAmbient. cbn [Webgl.Circle.x Webgl.Circle.y Webgl.Circle.radius
      Webgl.Circle.color Webgl.Circle.vx Webgl.Circle.vy].
    rewrite !wrapped_inside by lra. f_equal; lra. }
  rewrite Hone.
  assert (Htwo : Webgl.Circle.x
                   (Webgl.updateCircle m 100 50
                      (Webgl.Circle.new (- 0.5) (- 0.5) ((100 + 50) * 0.2)
                         (nth_error Webgl.circleColors 0) (- 0.5) (- 0.5) false))
                 = - 1).
  { rewrite WebglFacts.updateCircle_ambient by reflexivity.
    cbn [Webgl.Circle.x Webgl.Circle.y Webgl.Circle.radius Webgl.Circle.vx].
    rewrite wrapped_inside by lra. lra. }
  rewrite Htwo. cbn [Webgl.Circle.x].
  repeat split; assumption.
Qed.

(** * Further properties of the code *)


(** ** Sizes and radii across events *)

(** [init] writes [circles] and counts its twenty-five calls of
    [Math.random()]; everything else it leaves alone. *)
Lemma init_eq (w : Html.World) :
  Html.init w =
  {| Html.host := setRandomCalls (randomCalls (Html.host w) + 5 + 5 + 5 + 5 + 5)
                                 (Html.host w);
     Html.ctx := Html.ctx w; Html.offCtx := Html.offCtx w;
     Html.width := Html.width w; Html.height := Html.height w;
     Html.circles := Html.circles (Html.init w);
     Html.animationFrameId := Html.animationFrameId w;
     Html.mouse := Html.mouse w |}.
Proof. reflexivity. Qed.

Lemma init_radii (w : Html.World) :
  Forall (htmlRadius (Html.width (Html.init w)) (Html.height (Html.init w)))
         (Html.circles (Html.init w)).
Proof.
  change (Html.width (Html.init w)) with (Html.width w).
  change (Html.height (Html.init w)) with (Html.height w).
  rewrite init_circles. repeat constructor.
Qed.

Lemma move_radius (m : Point) (W H W' H' : R) (c : Html.Circle.t) :
  htmlRadius W' H' c -> htmlRadius W' H' (Html.move m W H c).
Proof.
  unfold htmlRadius.
  destruct (HtmlFacts.move_fixed m W H c) as (-> & _ & _ & ->). trivial.
Qed.

Lemma animate_radii (w : Html.World) :
  Forall (htmlRadius (Html.width w) (Html.height w)) (Html.circles w) ->
  Forall (htmlRadius (Html.width (Html.animate w)) (Html.height (Html.animate w)))
         (Html.circles (Html.animate w)).
Proof.
  intros Hw. destruct (animate_circles w) as (-> & -> & -> & _).
  apply Forall_map. eapply Forall_impl; [| exact Hw].
  intros c. apply move_radius.
Qed.

Lemma frames_radii (waiting : list nat) (w : Html.World) :
  Forall (htmlRadius (Html.width w) (Html.height w)) (Html.circles w) ->
  let w' := fold_left (fun w _ => Html.animate w) waiting w in
  Forall (htmlRadius (Html.width w') (Html.height w')) (Html.circles w').
Proof.
  revert w. induction waiting as [| r waiting IH]; intros w Hw; cbn; [exact Hw |].
  apply IH, animate_radii, Hw.
Qed.

Lemma dispatch_radii (w : Html.World) (e : Event) :
  Forall (htmlRadius (Html.width w) (Html.height w)) (Html.circles w) ->
  let w' := Html.dispatch w e in
  Forall (htmlRadius (Html.width w') (Html.height w')) (Html.circles w').
Proof.
  intros Hw. destruct e as [iw ih | cx cy | | b |]; unfold Html.dispatch; cbv zeta.
  - destruct (listening _ _); [| exact Hw].
    unfold Html.resizeCanvas.
    match goal with |- context [Html.init ?w0] => exact (init_radii w0) end.
  - destruct (listening _ _); exact Hw.
  - unfold Html.frame. apply frames_radii. exact Hw.
  - exact Hw.
  - destruct (unmountHook (Html.host w)); exact Hw.
Qed.

(** While live, every event but [Unmount] leaves the 2D component live
    and its [width] and [height] equal to the inner size of the window. *)
Lemma html_live_sized (w : Html.World) (e : Event) :
  notUnmount e ->
  htmlLive w /\ Html.width w = innerWidth (Html.host w)
             /\ Html.height w = innerHeight (Html.host w) ->
  let w' := Html.dispatch w e in
  htmlLive w' /\ Html.width w' = innerWidth (Html.host w')
              /\ Html.height w' = innerHeight (Html.host w').
Proof.
  intros He (Hw & HW & HH). pose proof Hw as (Hl & Hh & id & Hf & Hid).
  destruct e as [iw ih | cx cy | | b |]; unfold Html.dispatch; cbv zeta.
  - cbn [Html.host Html.withHost setInnerSize listeners]. rewrite Hl.
    match goal with
    | |- context [listening ?a ?b] => change (listening a b) with true
    end.
    cbv iota. unfold Html.resizeCanvas. rewrite init_eq.
    unfold htmlLive. cbn. rewrite Hl, Hh, Hf, Hid. eauto 7.
  - rewrite Hl.
    match goal with
    | |- context [listening ?a ?b] => change (listening a b) with true
    end.
    cbv iota. unfold htmlLive. cbn. eauto 7.
  - unfold Html.frame. rewrite Hf. cbn [fold_left].
    match goal with |- context [Html.animate ?w0] =>
      destruct (animate_host w0) as (Eh & Eid);
      destruct (animate_circles w0) as (_ & EW & EH & _) end.
    unfold htmlLive. rewrite Eh, Eid, EW, EH. cbn. rewrite Hl, Hh. eauto 7.
  - unfold htmlLive. cbn. eauto 7.
  - destruct He.
Qed.

(** X2.  In the 2D component the radius of every blob follows the
    window: in every state reached after mounting, whatever the events, an
    ambient blob has radius [(width + height) * 0.2] and the interactive one
    [(width + height) * 0.1] for the current [width] and [height]; and until
    the teardown these two are the inner size of the window. *)
Theorem html_radius_follows_window :
  (forall (h : Host) (es : list Event),
      let w := Html.run (Html.onMounted h) es in
      Forall (htmlRadius (Html.width w) (Html.height w)) (Html.circles w)) /\
  (forall (h : Host) (es : list Event),
      listeners h = [] -> frameRequests h = [] -> Forall notUnmount es ->
      let w := Html.run (Html.onMounted h) es in
      Html.width w = innerWidth (Html.host w) /\
      Html.height w = innerHeight (Html.host w)).
Proof.
  split.
  - intros h es.
    assert (Hrun : forall es v,
               Forall (htmlRadius (Html.width v) (Html.height v)) (Html.circles v) ->
               Forall (htmlRadius (Html.width (Html.run v es)) (Html.height (Html.run v es)))
                      (Html.circles (Html.run v es))).
    { clear. induction es as [| e es IH]; intros v Hv; cbn; [exact Hv |].
      apply IH. apply dispatch_radii, Hv. }
    apply Hrun. unfold Html.onMounted. cbv zeta.
    match goal with
    | |- context [Html.animate (Html.init ?w0)] =>
        exact (animate_radii _ (init_radii w0))
    end.
  - intros h es Hl Hf Hes.
    assert (Hrun : forall es v,
               Forall notUnmount es ->
               htmlLive v /\ Html.width v = innerWidth (Html.host v)
                          /\ Html.height v = innerHeight (Html.host v) ->
               htmlLive (Html.run v es)
               /\ Html.width (Html.run v es) = innerWidth (Html.host (Html.run v es))
               /\ Html.height (Html.run v es) = innerHeight (Html.host (Html.run v es))).
    { clear. induction es as [| e es IH]; intros v Hes Hv; cbn; [exact Hv |].
      inversion Hes; subst. apply IH; [assumption |].
      apply html_live_sized; assumption. }
    apply Hrun; [exact Hes |].
    split; [apply html_mounted_live; assumption |].
    unfold Html.onMounted. cbv zeta.
    match goal with
    | |- context [Html.animate (Html.init ?w0)] =>
        destruct (animate_host (Html.init w0)) as (Eh & _);
        destruct (animate_circles (Html.init w0)) as (_ & EW & EH & _)
    end.
    cbn [Html.width Html.height Html.host Html.withHost].
    rewrite EW, EH, Eh. split; reflexivity.
Qed.

(** X2 after a resize to 80 x 60 and a frame: the six radii are the
    fractions of [80 + 60]. *)
Lemma html_radius_follows_window_witness :
  let h := mkHost 100 50 false true true "" [] [] 0 (fun _ => 0.25) 0 [] false in
  let w := Html.run (Html.onMounted h) [Resize 80 60; Frame] in
  Html.width w = 80 /\ Html.height w = 60 /\
  Forall (htmlRadius (Html.width w) (Html.height w)) (Html.circles w).
Proof.
  intros h w.
  destruct html_radius_follows_window as [Hrad Hsize].
  destruct (Hsize h [Resize 80 60; Frame] eq_refl eq_refl) as [HW HH].
  { repeat constructor. }
  fold w in HW, HH. split; [| split].
  - rewrite HW. reflexivity.
  - rewrite HH. reflexivity.
  - apply Hrad.
Defined.

(** What each event but [Unmount] does to a live WebGL component. *)
Lemma webgl_live_dispatch (w : Webgl.World) (c : Webgl.Closure) (e : Event) :
  webglLive w -> Webgl.closure w = Some c -> notUnmount e ->
  let w' := Webgl.dispatch w e in
  webglLive w' /\
  exists c',
    Webgl.closure w' = Some c' /\
    match e with
    | Resize iw ih =>
        Webgl.circles c' = Webgl.circles c /\ Webgl.mouse c' = Webgl.mouse c /\
        Webgl.width c' = iw /\ Webgl.height c' = ih /\
        innerWidth (Webgl.host w') = iw /\ innerHeight (Webgl.host w') = ih /\
        darkIsActive (Webgl.host w') = darkIsActive (Webgl.host w) /\
        Webgl.frames (Webgl.gl c') = Webgl.frames (Webgl.gl c)
    | MouseMove cx cy =>
        Webgl.circles c' = Webgl.circles c /\
        Webgl.mouse c' = {| px := cx; py := cy |} /\
        Webgl.width c' = Webgl.width c /\ Webgl.height c' = Webgl.height c /\
        Webgl.gl c' = Webgl.gl c /\ Webgl.host w' = Webgl.host w
    | Frame =>
        Webgl.circles c'
          = Webgl.updateCircles (Webgl.mouse c) (Webgl.width c) (Webgl.height c)
                                (Webgl.circles c) /\
        Webgl.mouse c' = Webgl.mouse c /\
        Webgl.width c' = Webgl.width c /\ Webgl.height c' = Webgl.height c /\
        innerWidth (Webgl.host w') = innerWidth (Webgl.host w) /\
        innerHeight (Webgl.host w') = innerHeight (Webgl.host w) /\
        darkIsActive (Webgl.host w') = darkIsActive (Webgl.host w) /\
        Webgl.gl c' = Webgl.gl (snd (fst (Webgl.render
          (setFrameRequests [] (nextRequestId (Webgl.host w)) (Webgl.host w)) c)))
    | SetDark b =>
        c' = c /\ darkIsActive (Webgl.host w') = b /\
        innerWidth (Webgl.host w') = innerWidth (Webgl.host w) /\
        innerHeight (Webgl.host w') = innerHeight (Webgl.host w)
    | Unmount => True
    end.
Proof.
  intros (Hl & Hh & (id & Hf) & c0 & Hc0 & Hscene) Hc He.
  rewrite Hc in Hc0. injection Hc0 as <-.
  destruct e as [iw ih | cx cy | | b |]; cbv zeta.
  - unfold Webgl.dispatch.
    cbn [Webgl.host Webgl.closure setInnerSize listeners]. rewrite Hl, Hc.
    match goal with
    | |- context [listening ?a ?b] => change (listening a b) with true
    end.
    cbv iota. cbn [option_map]. split.
    + unfold webglLive. cbn. rewrite Hl, Hh, Hf. eauto 8.
    + eexists. split; [reflexivity |]. cbn. repeat split.
  - unfold Webgl.dispatch. rewrite Hl, Hc.
    match goal with
    | |- context [listening ?a ?b] => change (listening a b) with true
    end.
    cbv iota. cbn [option_map]. split.
    + unfold webglLive. cbn. rewrite Hl, Hh, Hf. eauto 8.
    + eexists. split; [reflexivity |]. cbn. repeat split.
  - destruct (webgl_frame_step w c id Hc Hscene Hf) as [g Hstep].
    assert (Hg : g = Webgl.gl (snd (fst (Webgl.render
              (setFrameRequests [] (nextRequestId (Webgl.host w)) (Webgl.host w)) c)))).
    { destruct (render_scene
                  (setFrameRequests [] (nextRequestId (Webgl.host w)) (Webgl.host w))
                  c Hscene) as [g' Hr].
      assert (Hd : Webgl.dispatch w Frame =
                   {| Webgl.host := fst (fst (Webgl.render
                        (setFrameRequests [] (nextRequestId (Webgl.host w)) (Webgl.host w)) c));
                      Webgl.closure := Some (snd (fst (Webgl.render
                        (setFrameRequests [] (nextRequestId (Webgl.host w)) (Webgl.host w)) c))) |}).
      { unfold Webgl.dispatch, Webgl.frame. rewrite Hc, Hf. cbn [fold_left fst snd].
        destruct (Webgl.render _ c) as [[h1 c1] fin]. reflexivity. }
      rewrite Hstep in Hd. injection Hd as _ Hd. rewrite <- Hd. reflexivity. }
    rewrite Hstep. split.
    + unfold webglLive, requestAnimationFrame. cbn. rewrite Hl, Hh.
      split; [reflexivity |]. split; [reflexivity |].
      split; [eauto |]. eexists. split; [reflexivity |].
      cbn. apply webglScene_update, Hscene.
    + eexists. split; [reflexivity |]. cbn. repeat split. exact Hg.
  - unfold Webgl.dispatch. cbn [Webgl.host Webgl.closure]. split.
    + unfold webglLive. cbn. rewrite Hl, Hh, Hf, Hc. eauto 8.
    + exists c. rewrite Hc. cbn. repeat split.
  - destruct He.
Qed.

(** Mounting on a host with WebGL on which nothing is registered leaves
    a live component whose sizes are those of the window. *)
Lemma webgl_mounted_live (h : Host) :
  webgl h = true -> listeners h = [] -> frameRequests h = [] ->
  webglLive (Webgl.onMounted h) /\
  exists c, Webgl.closure (Webgl.onMounted h) = Some c /\
            Webgl.width c = innerWidth h /\ Webgl.height c = innerHeight h /\
            innerWidth (Webgl.host (Webgl.onMounted h)) = innerWidth h /\
            innerHeight (Webgl.host (Webgl.onMounted h)) = innerHeight h.
Proof.
  intros Hgl Hl Hf.
  assert (Hinner : innerWidth (Webgl.host (Webgl.onMounted h)) = innerWidth h /\
                   innerHeight (Webgl.host (Webgl.onMounted h)) = innerHeight h).
  { unfold Webgl.onMounted. rewrite Hgl. cbn [negb]. cbv zeta.
    destruct (Webgl.initCircles _ _ _ _) as [cs k].
    destruct (Webgl.render _ _) as [[h1 c1] fin] eqn:Hr.
    assert (Hh1 : innerWidth h1 = innerWidth h /\ innerHeight h1 = innerHeight h).
    { unfold Webgl.render in Hr. destruct (Webgl.pack _) as [[ca pa] |];
        injection Hr as <- _ _; cbn; destruct (linkStatus h); cbn; split; reflexivity. }
    cbn [Webgl.host]. destruct fin; cbn; exact Hh1. }
  destruct (webgl_mounted h Hgl) as (h' & g & Hl' & Hf' & Hn' & Hw).
  rewrite Hl in Hl'. rewrite Hf in Hf'. rewrite Hw in Hinner |- *. split.
  - unfold webglLive, requestAnimationFrame.
    cbn [Webgl.host Webgl.closure registerUnmountHook snd setFrameRequests
         listeners unmountHook frameRequests].
    rewrite Hl', Hf'.
    split; [reflexivity |]. split; [reflexivity |].
    split; [eexists; reflexivity |].
    eexists. split; [reflexivity |]. cbn [Webgl.circles].
    apply webglScene_update, webglScene_init.
  - eexists. split; [reflexivity |].
    cbn [Webgl.width Webgl.height Webgl.host] in Hinner |- *. tauto.
Qed.

(** A property of single circles that a step keeps holds of the scene of
    the WebGL component after every event. *)
Section WebglCirclewise.

Variable P : Webgl.Circle.t -> Prop.
Hypothesis P_step :
  forall (m : Point) (W H : R) (c : Webgl.Circle.t),
    P c -> P (Webgl.updateCircle m W H c).

Lemma updateCircles_forall (m : Point) (W H : R) (cs : list Webgl.Circle.t) :
  Forall P cs -> Forall P (Webgl.updateCircles m W H cs).
Proof.
  intros Hcs. unfold Webgl.updateCircles. apply Forall_map.
  eapply Forall_impl; [| exact Hcs]. intros c. apply P_step.
Qed.

Lemma webgl_frames_forall (waiting : list nat) (h : Host) (c : Webgl.Closure) :
  webglScene (Webgl.circles c) -> Forall P (Webgl.circles c) ->
  Forall P (Webgl.circles (snd
    (fold_left (fun hc _ => let '(h, c, _) := Webgl.render (fst hc) (snd hc) in (h, c))
               waiting (h, c)))).
Proof.
  revert h c. induction waiting as [| r waiting IH]; intros h c Hs Hc;
    cbn [fold_left]; [exact Hc |].
  cbn [fst snd]. destruct (render_scene h c Hs) as [g ->].
  apply IH; cbn [Webgl.circles].
  - apply webglScene_update, Hs.
  - apply updateCircles_forall, Hc.
Qed.

Lemma webgl_dispatch_forall (w : Webgl.World) (e : Event) :
  webglRunning w -> Forall P (webglCircles w) ->
  Forall P (webglCircles (Webgl.dispatch w e)).
Proof.
  intros (c & Hc & Hscene) Hw. unfold webglCircles in Hw |- *. rewrite Hc in Hw.
  destruct e as [iw ih | cx cy | | b |]; unfold Webgl.dispatch; cbv zeta;
    cbn [Webgl.closure]; rewrite ?Hc.
  - destruct (listening _ _); exact Hw.
  - destruct (listening _ _); exact Hw.
  - unfold Webgl.frame. rewrite Hc.
    pose proof (webgl_frames_forall (frameRequests (Webgl.host w))
                  (setFrameRequests [] (nextRequestId (Webgl.host w)) (Webgl.host w))
                  c Hscene Hw) as Hfold.
    destruct (fold_left _ _ _) as [h' c']. exact Hfold.
  - exact Hw.
  - exact Hw.
Qed.

Lemma webgl_run_forall (es : list Event) (w : Webgl.World) :
  webglRunning w -> Forall P (webglCircles w) ->
  Forall P (webglCircles (Webgl.run w es)).
Proof.
  revert w. induction es as [| e es IH]; intros w Hr Hw; cbn; [exact Hw |].
  apply IH; [apply webgl_dispatch_scene, Hr | apply webgl_dispatch_forall; assumption].
Qed.

End WebglCirclewise.

Lemma webgl_mounted_circles (h : Host) :
  webgl h = true ->
  webglCircles (Webgl.onMounted h)
  = Webgl.updateCircles {| px := innerWidth h / 2; py := innerHeight h / 2 |}
      (innerWidth h) (innerHeight h)
      (fst (Webgl.initCircles (random h) (randomCalls h)
                              (innerWidth h) (innerHeight h))).
Proof.
  intros Hgl. destruct (webgl_mounted h Hgl) as (h' & g & _ & _ & _ & ->).
  reflexivity.
Qed.

Lemma updateCircle_radius_at (W0 H0 : R) (m : Point) (W H : R) (c : Webgl.Circle.t) :
  webglRadius W0 H0 c -> webglRadius W0 H0 (Webgl.updateCircle m W H c).
Proof.
  unfold webglRadius.
  destruct (WebglFacts.updateCircle_fixed m W H c) as (-> & _ & _ & _ & ->).
  trivial.
Qed.

(** While live, every event but [Unmount] leaves the WebGL component
    live and its [width] and [height] equal to the inner size of the
    window. *)
Lemma webgl_live_sized (w : Webgl.World) (e : Event) :
  notUnmount e ->
  (webglLive w /\ exists c, Webgl.closure w = Some c /\
                            Webgl.width c = innerWidth (Webgl.host w) /\
                            Webgl.height c = innerHeight (Webgl.host w)) ->
  let w' := Webgl.dispatch w e in
  webglLive w' /\ exists c, Webgl.closure w' = Some c /\
                            Webgl.width c = innerWidth (Webgl.host w') /\
                            Webgl.height c = innerHeight (Webgl.host w').
Proof.
  intros He (Hw & c & Hc & HW & HH).
  destruct (webgl_live_dispatch w c e Hw Hc He) as (Hlive & c' & Hc' & Hev).
  cbv zeta. split; [exact Hlive |]. exists c'. split; [exact Hc' |].
  destruct e as [iw ih | cx cy | | b |].
  - destruct Hev as (_ & _ & -> & -> & -> & -> & _). split; reflexivity.
  - destruct Hev as (_ & _ & -> & -> & _ & ->). split; assumption.
  - destruct Hev as (_ & _ & -> & -> & -> & -> & _). split; assumption.
  - destruct Hev as (-> & _ & -> & ->). split; assumption.
  - destruct He.
Qed.

(** X3.  In the WebGL component a resize changes [width] and [height],
    which until the teardown are the inner size of the window, but never a
    blob: in every state reached after mounting, whatever the events, every
    radius is still the fraction of the size the window had when the
    component was mounted. *)
Theorem webgl_radius_keeps_mount_size :
  (forall (h : Host) (es : list Event),
      webgl h = true ->
      Forall (webglRadius (innerWidth h) (innerHeight h))
             (webglCircles (Webgl.run (Webgl.onMounted h) es))) /\
  (forall (h : Host) (es : list Event),
      webgl h = true -> listeners h = [] -> frameRequests h = [] ->
      Forall notUnmount es ->
      let w := Webgl.run (Webgl.onMounted h) es in
      exists c, Webgl.closure w = Some c /\
                Webgl.width c = innerWidth (Webgl.host w) /\
                Webgl.height c = innerHeight (Webgl.host w)).
Proof.
  split.
  - intros h es Hgl.
    apply webgl_run_forall.
    + intros m W H c. apply updateCircle_radius_at.
    + apply webgl_mounted_running, Hgl.
    + rewrite (webgl_mounted_circles h Hgl).
      apply updateCircles_forall; [intros m W H c; apply updateCircle_radius_at |].
      rewrite initCircles_eq. repeat constructor.
  - intros h es Hgl Hl Hf Hes.
    assert (Hrun : forall es v,
               Forall notUnmount es ->
               (webglLive v /\ exists c, Webgl.closure v = Some c /\
                    Webgl.width c = innerWidth (Webgl.host v) /\
                    Webgl.height c = innerHeight (Webgl.host v)) ->
               webglLive (Webgl.run v es) /\
               exists c, Webgl.closure (Webgl.run v es) = Some c /\
                    Webgl.width c = innerWidth (Webgl.host (Webgl.run v es)) /\
                    Webgl.height c = innerHeight (Webgl.host (Webgl.run v es))).
    { clear. induction es as [| e es IH]; intros v Hes Hv; cbn; [exact Hv |].
      inversion Hes; subst. apply IH; [assumption |].
      apply webgl_live_sized; assumption. }
    apply Hrun; [exact Hes |].
    destruct (webgl_mounted_live h Hgl Hl Hf) as (Hlive & c & Hc & HW & HH & HiW & HiH).
    split; [exact Hlive |]. exists c. rewrite HiW, HiH. tauto.
Qed.

(** X3 after a resize from 100 x 50 to 80 x 60 and a frame: the sizes are
    the new ones, the radii those of [100 + 50]. *)
Lemma webgl_radius_keeps_mount_size_witness :
  let h := mkHost 100 50 false true true "" [] [] 0 (fun _ => 0.25) 0 [] false in
  let w := Webgl.run (Webgl.onMounted h) [Resize 80 60; Frame] in
  Forall (webglRadius 100 50) (webglCircles w) /\
  exists c, Webgl.closure w = Some c /\
            Webgl.width c = innerWidth (Webgl.host w) /\
            Webgl.height c = innerHeight (Webgl.host w).
Proof.
  intros h w.
  destruct webgl_radius_keeps_mount_size as [Hrad Hsize].
  split.
  - exact (Hrad h [Resize 80 60; Frame] eq_refl).
  - apply (Hsize h [Resize 80 60; Frame] eq_refl eq_refl eq_refl).
    repeat constructor.
Defined.

(** ** Scene creation: positions and speeds *)

Lemma created_bounds (u v s t W H : R) :
  0 <= u < 1 -> 0 <= v < 1 -> 0 <= s < 1 -> 0 <= t < 1 -> 0 <= W ->
  (0 <= u * W <= W) /\ (- 2.5 < (t - 0.5) * (s * 4 + 1) < 2.5).
Proof. intros Hu Hv Hs Ht HW. split; split; nra. Qed.

Lemma htmlAmbient_created (rnd : nat -> R) (k : nat) (W H : R) (i : nat) :
  unitRandom rnd -> 0 <= W -> 0 <= H -> htmlCreated W H (htmlAmbient rnd k W H i).
Proof.
  intros Hrnd HW HH. unfold htmlCreated, htmlAmbient. cbn.
  pose proof (Hrnd k) as H0. pose proof (Hrnd (k + 1)%nat) as H1.
  pose proof (Hrnd (k + 2)%nat) as H2. pose proof (Hrnd (k + 3)%nat) as H3.
  pose proof (Hrnd (k + 4)%nat) as H4.
  destruct (created_bounds _ _ _ _ W H H0 H1 H2 H3 HW) as [Hx Hvx].
  destruct (created_bounds _ _ _ _ H W H1 H0 H2 H4 HH) as [Hy Hvy].
  tauto.
Qed.

Lemma webglAmbient_created (rnd : nat -> R) (k : nat) (W H : R) (i : nat) :
  unitRandom rnd -> 0 <= W -> 0 <= H -> webglCreated W H (webglAmbient rnd k W H i).
Proof.
  intros Hrnd HW HH. unfold webglCreated, webglAmbient. cbn.
  pose proof (Hrnd k) as H0. pose proof (Hrnd (k + 1)%nat) as H1.
  pose proof (Hrnd (k + 2)%nat) as H2. pose proof (Hrnd (k + 3)%nat) as H3.
  pose proof (Hrnd (k + 4)%nat) as H4.
  destruct (created_bounds _ _ _ _ W H H0 H1 H2 H3 HW) as [Hx Hvx].
  destruct (created_bounds _ _ _ _ H W H1 H0 H2 H4 HH) as [Hy Hvy].
  tauto.
Qed.

Lemma init_created (w : Html.World) :
  unitRandom (random (Html.host w)) -> 0 <= Html.width w -> 0 <= Html.height w ->
  Forall (htmlCreated (Html.width w) (Html.height w)) (Html.circles (Html.init w)).
Proof.
  intros Hrnd HW HH. rewrite init_circles. cbv zeta.
  repeat (constructor; [apply htmlAmbient_created; assumption |]).
  constructor; [| constructor]. unfold htmlCreated; cbn. tauto.
Qed.

Lemma initCircles_created (rnd : nat -> R) (k : nat) (W H : R) :
  unitRandom rnd -> 0 <= W -> 0 <= H ->
  Forall (webglCreated W H) (fst (Webgl.initCircles rnd k W H)).
Proof.
  intros Hrnd HW HH. rewrite initCircles_eq. cbn [fst].
  repeat (constructor; [apply webglAmbient_created; assumption |]).
  constructor; [| constructor]. unfold webglCreated; cbn. tauto.
Qed.

(** X4.  When [Math.random()] returns numbers of [[0, 1)] and the window
    has a non-negative size, [init] and [initCircles] place every ambient
    blob inside the window and give it a velocity strictly between [-2.5]
    and [2.5] on each axis; the interactive blob is at rest in the
    centre. *)
Theorem creation_bounds :
  (forall w : Html.World,
      unitRandom (random (Html.host w)) ->
      0 <= Html.width w -> 0 <= Html.height w ->
      Forall (htmlCreated (Html.width w) (Html.height w))
             (Html.circles (Html.init w))) /\
  (forall (rnd : nat -> R) (k : nat) (W H : R),
      unitRandom rnd -> 0 <= W -> 0 <= H ->
      Forall (webglCreated W H) (fst (Webgl.initCircles rnd k W H))).
Proof. split; [exact init_created | exact initCircles_created]. Qed.

(** X4 on a 100 x 50 window where [Math.random()] always returns
    [0.25]. *)
Lemma creation_bounds_witness :
  let h := mkHost 100 50 false true true "" [] [] 0 (fun _ => 0.25) 0 [] false in
  let w := Html.mkWorld h Html.freshContext Html.freshContext 100 50 [] None
                        (mkPoint 50 25) in
  Forall (htmlCreated 100 50) (Html.circles (Html.init w)) /\
  Forall (webglCreated 100 50) (fst (Webgl.initCircles (fun _ => 0.25) 0 100 50)).
Proof.
  intros h w. split.
  - apply (proj1 creation_bounds w); cbn; [intros k; lra | lra | lra].
  - apply (proj2 creation_bounds); [intros k; lra | lra | lra].
Defined.

(** ** The rectangle, in every state of a mounted component *)

(** The blobs [init] creates lie in the rectangle. *)
Lemma html_init_rect (w : Html.World) :
  unitRandom (random (Html.host w)) -> 0 <= Html.width w -> 0 <= Html.height w ->
  Forall (htmlAmbientInRect (Html.width w) (Html.height w))
         (Html.circles (Html.init w)).
Proof.
  intros Hrnd HW HH.
  pose proof (init_created w Hrnd HW HH) as Hcreated.
  pose proof (init_radii w) as Hrad.
  change (Html.width (Html.init w)) with (Html.width w) in Hrad.
  change (Html.height (Html.init w)) with (Html.height w) in Hrad.
  apply Forall_forall. intros c Hc Hflag.
  pose proof (proj1 (Forall_forall _ _) Hcreated c Hc) as Hcr.
  pose proof (proj1 (Forall_forall _ _) Hrad c Hc) as Hr.
  unfold htmlCreated in Hcr. unfold htmlRadius in Hr. rewrite Hflag in Hcr, Hr.
  unfold htmlInRect. rewrite Hr. lra.
Qed.

Lemma init_kept (w : Html.World) :
  unitRandom (random (Html.host w)) -> 0 <= Html.width w -> 0 <= Html.height w ->
  htmlKept (Html.init w).
Proof.
  intros Hrnd HW HH. unfold htmlKept.
  pose proof (init_radii w) as Hrad. pose proof (html_init_rect w Hrnd HW HH) as Hrect.
  rewrite (init_eq w) at 1 2 3 4 5 6 7. cbn [Html.host Html.width Html.height
    setRandomCalls random].
  change (Html.width (Html.init w)) with (Html.width w) in Hrad.
  change (Html.height (Html.init w)) with (Html.height w) in Hrad.
  tauto.
Qed.

Lemma move_ambient_rect (m : Point) (W H : R) (c : Html.Circle.t) :
  0 <= W -> 0 <= H -> htmlRadius W H c ->
  htmlAmbientInRect W H (Html.move m W H c).
Proof.
  intros HW HH Hr Hflag.
  destruct (HtmlFacts.move_fixed m W H c) as (_ & _ & _ & Hi).
  rewrite Hi in Hflag. apply HtmlFacts.move_inRect; try assumption.
  unfold htmlRadius in Hr. rewrite Hflag in Hr. rewrite Hr. lra.
Qed.

Lemma animate_kept (w : Html.World) : htmlKept w -> htmlKept (Html.animate w).
Proof.
  intros (Hrnd & HW & HH & Hrad & Hrect). unfold htmlKept.
  destruct (animate_host w) as (Eh & _).
  pose proof (animate_radii w Hrad) as Hrad'.
  destruct (animate_circles w) as (Ec & EW & EH & _).
  rewrite Eh, EW, EH in *. rewrite Ec.
  split; [exact Hrnd |]. split; [exact HW |]. split; [exact HH |].
  split; [rewrite <- Ec; exact Hrad' |].
  apply Forall_map. eapply Forall_impl; [| exact Hrad].
  intros c Hc. apply move_ambient_rect; assumption.
Qed.

Lemma dispatch_kept (w : Html.World) (e : Event) :
  sizedEvent e -> htmlKept w -> htmlKept (Html.dispatch w e).
Proof.
  intros He Hw. pose proof Hw as (Hrnd & HW & HH & Hrad & Hrect).
  destruct e as [iw ih | cx cy | | b |]; unfold Html.dispatch; cbv zeta.
  - destruct (listening _ _); [| exact Hw].
    unfold Html.resizeCanvas. destruct He as [Hiw Hih].
    apply init_kept; cbn; assumption.
  - destruct (listening _ _); exact Hw.
  - unfold Html.frame.
    assert (Hfold : forall (waiting : list nat) v, htmlKept v ->
              htmlKept (fold_left (fun w _ => Html.animate w) waiting v)).
    { clear. induction waiting as [| r waiting IH]; intros v Hv; cbn; [exact Hv |].
      apply IH, animate_kept, Hv. }
    apply Hfold. exact Hw.
  - exact Hw.
  - destruct (unmountHook (Html.host w)); exact Hw.
Qed.

(** X5.  In the 2D component the wrap invariant holds in every state: on
    a host whose [Math.random()] returns numbers of [[0, 1)] and whose
    window never has a negative size, after mounting and any events -
    frames, resizes, pointer moves, theme switches, the teardown - every
    ambient blob lies within
    [[-radius, width + radius] x [-radius, height + radius]] for the
    current [width] and [height]. *)
Theorem html_rectangle_always (h : Host) (es : list Event) :
  unitRandom (random h) -> 0 <= innerWidth h -> 0 <= innerHeight h ->
  Forall sizedEvent es ->
  let w := Html.run (Html.onMounted h) es in
  Forall (htmlAmbientInRect (Html.width w) (Html.height w)) (Html.circles w).
Proof.
  intros Hrnd HW HH Hes.
  assert (Hrun : forall es v, Forall sizedEvent es -> htmlKept v ->
                              htmlKept (Html.run v es)).
  { clear. induction es as [| e es IH]; intros v Hes Hv; cbn; [exact Hv |].
    inversion Hes; subst. apply IH; [assumption |].
    apply dispatch_kept; assumption. }
  apply Hrun; [exact Hes |].
  unfold Html.onMounted. cbv zeta.
  match goal with
  | |- htmlKept (Html.withHost _ (Html.animate (Html.init ?w0))) =>
      assert (Hk : htmlKept (Html.animate (Html.init w0)))
        by (apply animate_kept, init_kept; cbn; assumption)
  end.
  destruct Hk as (Hr & Hk). unfold htmlKept.
  cbn [Html.host Html.withHost Html.width Html.height Html.circles
       registerUnmountHook random].
  split; [exact Hr | exact Hk].
Qed.

(** X5 on a 100 x 50 window, for frames around a resize to nothing. *)
Lemma html_rectangle_always_witness :
  let h := mkHost 100 50 false true true "" [] [] 0 (fun _ => 0.25) 0 [] false in
  let w := Html.run (Html.onMounted h) [Frame; Resize 0 0; Frame; Unmount] in
  Forall (htmlAmbientInRect (Html.width w) (Html.height w)) (Html.circles w).
Proof.
  intros h.
  apply (html_rectangle_always h [Frame; Resize 0 0; Frame; Unmount]).
  - intros k. cbn. lra.
  - cbn. lra.
  - cbn. lra.
  - repeat constructor; cbn; lra.
Defined.

Lemma updateCircle_ambient_rect (m : Point) (W H : R) (c : Webgl.Circle.t) :
  0 <= W -> 0 <= H -> 0 <= Webgl.Circle.radius c ->
  webglAmbientInRect W H (Webgl.updateCircle m W H c).
Proof.
  intros HW HH Hr Hflag.
  destruct (WebglFacts.updateCircle_fixed m W H c) as (_ & _ & _ & _ & Hi).
  rewrite Hi in Hflag. apply WebglFacts.updateCircle_inRect; assumption.
Qed.

Lemma updateCircle_radius_nonneg (m : Point) (W H : R) (c : Webgl.Circle.t) :
  0 <= Webgl.Circle.radius c -> 0 <= Webgl.Circle.radius (Webgl.updateCircle m W H c).
Proof.
  destruct (WebglFacts.updateCircle_fixed m W H c) as (-> & _). trivial.
Qed.

(** The refresh of a WebGL component with at least one frame request
    waiting: the sizes are kept, a request waits again, and the last
    [render] has left every ambient blob in the rectangle. *)
Lemma webgl_frames_rect (waiting : list nat) :
  waiting <> [] ->
  forall (h : Host) (c : Webgl.Closure),
    webglScene (Webgl.circles c) ->
    Forall (fun b => 0 <= Webgl.Circle.radius b) (Webgl.circles c) ->
    0 <= Webgl.width c -> 0 <= Webgl.height c ->
    let hc := fold_left
      (fun hc _ => let '(h, c, _) := Webgl.render (fst hc) (snd hc) in (h, c))
      waiting (h, c) in
    webglScene (Webgl.circles (snd hc)) /\
    Forall (fun b => 0 <= Webgl.Circle.radius b) (Webgl.circles (snd hc)) /\
    Webgl.width (snd hc) = Webgl.width c /\
    Webgl.height (snd hc) = Webgl.height c /\
    frameRequests (fst hc) <> [] /\
    Forall (webglAmbientInRect (Webgl.width c) (Webgl.height c))
           (Webgl.circles (snd hc)).
Proof.
  induction waiting as [| r rest IH]; intros Hne h c Hs Hr HW HH;
    [contradiction |].
  cbn [fold_left fst snd]. destruct (render_scene h c Hs) as [g ->].
  set (c1 := {| Webgl.gl := g; Webgl.width := Webgl.width c;
                Webgl.height := Webgl.height c; Webgl.mouse := Webgl.mouse c;
                Webgl.circles :=
                  Webgl.updateCircles (Webgl.mouse c) (Webgl.width c)
                                      (Webgl.height c) (Webgl.circles c) |}).
  assert (Hs1 : webglScene (Webgl.circles c1))
    by (apply webglScene_update, Hs).
  assert (Hr1 : Forall (fun b => 0 <= Webgl.Circle.radius b) (Webgl.circles c1)).
  { apply (updateCircles_forall (fun b => 0 <= Webgl.Circle.radius b));
      [intros; apply updateCircle_radius_nonneg |]; assumption. }
  destruct rest as [| r' rest'].
  - cbn [fold_left fst snd].
    split; [exact Hs1 |]. split; [exact Hr1 |].
    split; [reflexivity |]. split; [reflexivity |]. split.
    + unfold requestAnimationFrame. cbn. apply not_eq_sym, app_cons_not_nil.
    + cbn [Webgl.circles c1]. unfold Webgl.updateCircles. apply Forall_map.
      eapply Forall_impl; [| exact Hr]. intros b Hb.
      apply updateCircle_ambient_rect; assumption.
  - apply (IH ltac:(discriminate) _ c1 Hs1 Hr1 HW HH).
Qed.

Lemma webgl_dispatch_kept (w : Webgl.World) (e : Event) :
  sizedEvent e -> webglKept w -> webglKept (Webgl.dispatch w e).
Proof.
  intros He (Hq & c & Hc & Hs & Hr & HW & HH). unfold webglKept.
  destruct e as [iw ih | cx cy | | b |]; unfold Webgl.dispatch; cbv zeta;
    cbn [Webgl.closure Webgl.host]; rewrite ?Hc.
  - split; [exact Hq |]. destruct He as [Hiw Hih].
    destruct (listening _ _); cbn [option_map]; eexists;
      (split; [reflexivity |]); cbn; tauto.
  - split; [exact Hq |].
    destruct (listening _ _); cbn [option_map]; eexists;
      (split; [reflexivity |]); cbn; tauto.
  - unfold Webgl.frame. rewrite Hc.
    pose proof (webgl_frames_rect (frameRequests (Webgl.host w)) Hq
                  (setFrameRequests [] (nextRequestId (Webgl.host w)) (Webgl.host w))
                  c Hs Hr HW HH) as Hfold.
    cbv zeta in Hfold. destruct (fold_left _ _ _) as [h' c'].
    cbn [fst snd] in Hfold. cbn [Webgl.host Webgl.closure].
    destruct Hfold as (Hs' & Hr' & EW & EH & Hq' & _).
    split; [exact Hq' |]. exists c'. rewrite EW, EH. tauto.
  - split; [exact Hq |]. exists c. tauto.
  - split; [destruct (unmountHook (Webgl.host w)); exact Hq |]. exists c. tauto.
Qed.

Lemma webgl_mounted_kept (h : Host) :
  webgl h = true -> 0 <= innerWidth h -> 0 <= innerHeight h ->
  webglKept (Webgl.onMounted h).
Proof.
  intros Hgl HW HH.
  destruct (webgl_mounted h Hgl) as (h' & g & _ & _ & _ & ->).
  unfold webglKept. cbn [Webgl.host Webgl.closure]. split.
  - unfold requestAnimationFrame. cbn. apply not_eq_sym, app_cons_not_nil.
  - eexists. split; [reflexivity |]. cbn [Webgl.circles Webgl.width Webgl.height].
    split; [apply webglScene_update, webglScene_init |].
    split; [| split; assumption].
    apply (updateCircles_forall (fun b => 0 <= Webgl.Circle.radius b));
      [intros; apply updateCircle_radius_nonneg; assumption |].
    rewrite initCircles_eq. cbn [fst].
    repeat (apply Forall_cons; [cbn; lra |]). apply Forall_nil.
Qed.

(** X6.  The WebGL component does not rebuild its scene on a resize, yet
    one frame restores the wrap invariant: on a host whose window never
    has a negative size, after mounting and any events, the next refresh
    leaves every ambient blob within
    [[-radius, width + radius] x [-radius, height + radius]] for the
    current [width] and [height], wherever the blob was before. *)
Theorem webgl_rectangle_after_frame (h : Host) (es : list Event) :
  webgl h = true -> 0 <= innerWidth h -> 0 <= innerHeight h ->
  Forall sizedEvent es ->
  let w := Webgl.dispatch (Webgl.run (Webgl.onMounted h) es) Frame in
  exists c, Webgl.closure w = Some c /\
            Forall (webglAmbientInRect (Webgl.width c) (Webgl.height c))
                   (Webgl.circles c).
Proof.
  intros Hgl HW HH Hes.
  assert (Hrun : forall es v, Forall sizedEvent es -> webglKept v ->
                              webglKept (Webgl.run v es)).
  { clear. induction es as [| e es IH]; intros v Hes Hv; cbn; [exact Hv |].
    inversion Hes; subst. apply IH; [assumption |].
    apply webgl_dispatch_kept; assumption. }
  destruct (Hrun es _ Hes (webgl_mounted_kept h Hgl HW HH))
    as (Hq & c & Hc & Hs & Hr & HWc & HHc).
  cbv zeta. unfold Webgl.dispatch, Webgl.frame. rewrite Hc.
  pose proof (webgl_frames_rect _ Hq
                (setFrameRequests [] (nextRequestId (Webgl.host (Webgl.run (Webgl.onMounted h) es)))
                                  (Webgl.host (Webgl.run (Webgl.onMounted h) es)))
                c Hs Hr HWc HHc) as Hfold.
  cbv zeta in Hfold. destruct (fold_left _ _ _) as [h' c'].
  cbn [fst snd] in Hfold. destruct Hfold as (_ & _ & EW & EH & _ & Hrect).
  exists c'. split; [reflexivity |]. rewrite EW, EH. exact Hrect.
Qed.

(** X6 on a 100 x 50 window that shrinks to 10 x 10 between two
    frames. *)
Lemma webgl_rectangle_after_frame_witness :
  let h := mkHost 100 50 false true true "" [] [] 0 (fun _ => 0.25) 0 [] false in
  let w := Webgl.dispatch (Webgl.run (Webgl.onMounted h) [Frame; Resize 10 10]) Frame in
  exists c, Webgl.closure w = Some c /\
            Forall (webglAmbientInRect (Webgl.width c) (Webgl.height c))
                   (Webgl.circles c).
Proof.
  intros h.
  apply (webgl_rectangle_after_frame h [Frame; Resize 10 10] eq_refl).
  - cbn. lra.
  - cbn. lra.
  - repeat constructor; cbn; lra.
Defined.

(** ** Pointer and theme are read when the frame is drawn *)

(** The program of a mounted WebGL component is linked when the host
    says so. *)
Lemma webgl_mounted_linked (h : Host) :
  webgl h = true ->
  exists c, Webgl.closure (Webgl.onMounted h) = Some c /\
            Webgl.linked (Webgl.gl c) = linkStatus h.
Proof.
  intros Hgl. unfold Webgl.onMounted. rewrite Hgl. cbn [negb]. cbv zeta.
  destruct (Webgl.initCircles _ _ _ _) as [cs k].
  match goal with
  | |- context [if linkStatus ?x then _ else _] =>
      change (linkStatus x) with (linkStatus h)
  end.
  unfold Webgl.render. destruct (Webgl.pack _) as [[ca pa] |];
    eexists; (split; [reflexivity |]);
    destruct (linkStatus h) eqn:Hlink; cbn; rewrite ?Hlink; reflexivity.
Qed.

(** The refresh of a live 2D component is one [animate]. *)
Lemma html_live_frame (w : Html.World) :
  htmlLive w ->
  Html.dispatch w Frame
  = Html.animate (Html.withHost
      (setFrameRequests [] (nextRequestId (Html.host w)) (Html.host w)) w).
Proof.
  intros (_ & _ & id & Hf & _). unfold Html.dispatch, Html.frame.
  rewrite Hf. reflexivity.
Qed.

Lemma html_live_mousemove (w : Html.World) (cx cy : R) :
  htmlLive w -> Html.dispatch w (MouseMove cx cy) = Html.onMouseMove cx cy w.
Proof.
  intros (Hl & _). unfold Html.dispatch. rewrite Hl. reflexivity.
Qed.

(** X7.  The pointer is read when the frame is drawn, not when the scene
    was made: when a live component receives a pointer move to
    [(clientX, clientY)] and then a refresh, every circle takes one step
    computed with that position, so the interactive blob moves a tenth of
    the way towards it.  In both components. *)
Theorem pointer_read_at_frame :
  (forall (w : Html.World) (clientX clientY : R),
      htmlLive w ->
      let w' := Html.run w [MouseMove clientX clientY; Frame] in
      Html.mouse w' = {| px := clientX; py := clientY |} /\
      Html.circles w'
        = map (Html.move {| px := clientX; py := clientY |}
                         (Html.width w) (Html.height w))
              (Html.circles w)) /\
  (forall (w : Webgl.World) (c : Webgl.Closure) (clientX clientY : R),
      webglLive w -> Webgl.closure w = Some c ->
      exists c',
        Webgl.closure (Webgl.run w [MouseMove clientX clientY; Frame]) = Some c' /\
        Webgl.mouse c' = {| px := clientX; py := clientY |} /\
        Webgl.circles c'
          = Webgl.updateCircles {| px := clientX; py := clientY |}
                                (Webgl.width c) (Webgl.height c) (Webgl.circles c)).
Proof.
  split.
  - intros w cx cy Hw. cbv zeta. unfold Html.run. cbn [fold_left].
    rewrite (html_live_mousemove w cx cy Hw).
    assert (Hlive : htmlLive (Html.onMouseMove cx cy w)).
    { destruct Hw as (Hl & Hh & id & Hf & Hid). unfold htmlLive. cbn. eauto. }
    rewrite (html_live_frame _ Hlive).
    match goal with |- context [Html.animate ?w0] =>
      destruct (animate_circles w0) as (-> & _ & _ & ->) end.
    split; reflexivity.
  - intros w c cx cy Hw Hc. unfold Webgl.run. cbn [fold_left].
    destruct (webgl_live_dispatch w c (MouseMove cx cy) Hw Hc I)
      as (Hlive1 & c1 & Hc1 & Ecs & Em & EW & EH & _).
    destruct (webgl_live_dispatch _ c1 Frame Hlive1 Hc1 I)
      as (_ & c2 & Hc2 & Ecs2 & Em2 & _).
    exists c2. split; [exact Hc2 |]. split; [congruence |].
    rewrite Ecs2, Em, EW, EH, Ecs. reflexivity.
Qed.

(** X7 on freshly mounted components, the pointer going to [(10, 20)]. *)
Lemma pointer_read_at_frame_witness :
  let h := mkHost 100 50 false true true "" [] [] 0 (fun _ => 0.25) 0 [] false in
  Html.mouse (Html.run (Html.onMounted h) [MouseMove 10 20; Frame])
    = {| px := 10; py := 20 |} /\
  exists c', Webgl.closure (Webgl.run (Webgl.onMounted h) [MouseMove 10 20; Frame])
             = Some c' /\
             Webgl.mouse c' = {| px := 10; py := 20 |}.
Proof.
  intros h. destruct pointer_read_at_frame as [Hhtml Hwebgl]. split.
  - exact (proj1 (Hhtml (Html.onMounted h) 10 20
                        (html_mounted_live h eq_refl eq_refl))).
  - destruct (webgl_mounted_live h eq_refl eq_refl eq_refl)
      as (Hlive & c & Hc & _).
    destruct (Hwebgl (Webgl.onMounted h) c 10 20 Hlive Hc) as (c' & Hc' & Hm & _).
    exists c'. split; assumption.
Defined.

(** X8.  The theme is sampled once a frame: when a live component
    receives a switch of the theme and then a refresh, that frame is drawn
    with the new theme.  The 2D component blurs and composes as the new
    flag says; the WebGL component, when its program is linked, uploads
    the new flag. *)
Theorem theme_read_at_frame :
  (forall (w : Html.World) (b : bool),
      htmlLive w ->
      let w' := Html.run w [SetDark b; Frame] in
      Html.filter (Html.offCtx w') = Html.blurMode b /\
      exists before,
        Html.drawn (Html.ctx w')
        = before ++ [Html.DrawImage (Html.lightMode b)
                       (Html.paints (Html.drawn (Html.offCtx w'))) 0 0]) /\
  (forall (w : Webgl.World) (c : Webgl.Closure) (b : bool),
      webglLive w -> Webgl.closure w = Some c ->
      Webgl.linked (Webgl.gl c) = true ->
      exists c' u,
        Webgl.closure (Webgl.run w [SetDark b; Frame]) = Some c' /\
        Webgl.frames (Webgl.gl c') = Webgl.frames (Webgl.gl c) ++ [u] /\
        Webgl.u_darkMode u = (if b then 1%Z else 0%Z) /\
        Webgl.arm u = (if b then Webgl.DarkArm else Webgl.LightArm)).
Proof.
  split.
  - intros w b Hw. cbv zeta. unfold Html.run. cbn [fold_left].
    assert (Hlive : htmlLive (Html.dispatch w (SetDark b))).
    { destruct Hw as (Hl & Hh & id & Hf & Hid). unfold htmlLive. cbn. eauto. }
    rewrite (html_live_frame _ Hlive).
    match goal with |- context [Html.animate ?w0] =>
      destruct (animate_drawn w0) as (Hf & _ & Hctx & _) end.
    split; [exact Hf |].
    eexists. rewrite Hctx.
    change (?l ++ [?x; ?y; ?z]) with (l ++ [x; y] ++ [z]).
    rewrite app_assoc. reflexivity.
  - intros w c b Hw Hc Hlinked. unfold Webgl.run. cbn [fold_left].
    destruct (webgl_live_dispatch w c (SetDark b) Hw Hc I)
      as (Hlive1 & c1 & Hc1 & -> & Hdark & _).
    destruct (webgl_live_dispatch _ c Frame Hlive1 Hc1 I)
      as ((_ & _ & _ & c2' & Hc2' & _) & c2 & Hc2 & _ & _ & _ & _ & _ & _ & _ & Hgl).
    destruct Hlive1 as (_ & _ & _ & c0 & Hc0 & Hscene).
    rewrite Hc1 in Hc0. injection Hc0 as <-.
    apply (webglScene_update (Webgl.mouse c) (Webgl.width c) (Webgl.height c))
      in Hscene.
    destruct (webglScene_colors _ Hscene) as [Hlen Hcol].
    destruct (pack_slots _ (Nat.eq_le_incl _ _ Hlen) Hcol)
      as (colorsArr & posRadArr & Hpack & _).
    rewrite (render_linked _ c colorsArr posRadArr Hlinked Hpack) in Hgl.
    cbn [fst snd Webgl.gl] in Hgl.
    eexists. eexists. split; [exact Hc2 |]. rewrite Hgl. cbn [Webgl.frames].
    split; [reflexivity |].
    unfold Webgl.arm, uploaded. cbn [Webgl.u_darkMode setFrameRequests darkIsActive].
    rewrite Hdark. destruct b; split; reflexivity.
Qed.

(** X8 on freshly mounted components, the theme going dark. *)
Lemma theme_read_at_frame_witness :
  let h := mkHost 100 50 false true true "" [] [] 0 (fun _ => 0.25) 0 [] false in
  Html.filter (Html.offCtx (Html.run (Html.onMounted h) [SetDark true; Frame]))
    = "blur(40px)"%string /\
  exists c' u,
    Webgl.closure (Webgl.run (Webgl.onMounted h) [SetDark true; Frame]) = Some c' /\
    last (Webgl.frames (Webgl.gl c')) Webgl.noUniforms = u /\
    Webgl.arm u = Webgl.DarkArm.
Proof.
  intros h. destruct theme_read_at_frame as [Hhtml Hwebgl]. split.
  - exact (proj1 (Hhtml (Html.onMounted h) true
                        (html_mounted_live h eq_refl eq_refl))).
  - destruct (webgl_mounted_live h eq_refl eq_refl eq_refl)
      as (Hlive & c & Hc & _).
    assert (Hlinked : Webgl.linked (Webgl.gl c) = true).
    { destruct (webgl_mounted_linked h eq_refl) as (c0 & Hc0 & Hl0).
      rewrite Hc in Hc0. injection Hc0 as <-. exact Hl0. }
    destruct (Hwebgl (Webgl.onMounted h) c true Hlive Hc Hlinked)
      as (c' & u & Hc' & Hframes & _ & Harm).
    exists c', u. split; [exact Hc' |]. split; [| exact Harm].
    rewrite Hframes. apply last_last.
Defined.

(** ** Trajectories *)

(** The smoothing step in closed form. *)
Lemma smoothing_closed_form (m : R) (p : nat -> R) :
  (forall n, p (S n) = p n + (m - p n) * 0.1) ->
  forall n, p n = m + 0.9 ^ n * (p 0%nat - m).
Proof.
  intros Hstep n. induction n as [| n IH]; cbn [Rpow_def.pow]; [lra |].
  rewrite Hstep, IH. lra.
Qed.

(** X9.  Under a fixed pointer the interactive blob follows, on each
    axis, the geometric law
    [position n = pointer + 0.9 ^ n * (position 0 - pointer)]: it stays on
    the segment between its starting point and the pointer and never
    passes the pointer.  In both components. *)
Theorem interactive_trajectory :
  (forall (m : Point) (W H : R) (c : Html.Circle.t) (n : nat),
      Html.Circle.isInteractive c = true ->
      let c' := iterate n (Html.move m W H) c in
      Html.Circle.x c' = px m + 0.9 ^ n * (Html.Circle.x c - px m) /\
      Html.Circle.y c' = py m + 0.9 ^ n * (Html.Circle.y c - py m)) /\
  (forall (m : Point) (W H : R) (c : Webgl.Circle.t) (n : nat),
      Webgl.Circle.interactive c = true ->
      let c' := iterate n (Webgl.updateCircle m W H) c in
      Webgl.Circle.x c' = px m + 0.9 ^ n * (Webgl.Circle.x c - px m) /\
      Webgl.Circle.y c' = py m + 0.9 ^ n * (Webgl.Circle.y c - py m)).
Proof.
  split.
  - intros m W H c n Hc. cbv zeta.
    assert (Hstep : forall k,
               Html.Circle.x (iterate (S k) (Html.move m W H) c)
                 = Html.Circle.x (iterate k (Html.move m W H) c)
                   + (px m - Html.Circle.x (iterate k (Html.move m W H) c)) * 0.1 /\
               Html.Circle.y (iterate (S k) (Html.move m W H) c)
                 = Html.Circle.y (iterate k (Html.move m W H) c)
                   + (py m - Html.Circle.y (iterate k (Html.move m W H) c)) * 0.1).
    { intros k. cbn [iterate]. apply html_move_interactive.
      destruct (HtmlFacts.iterate_move_fixed m W H c k) as (_ & _ & _ & ->).
      exact Hc. }
    split.
    + apply (smoothing_closed_form (px m)
               (fun k => Html.Circle.x (iterate k (Html.move m W H) c))).
      intros k. apply Hstep.
    + apply (smoothing_closed_form (py m)
               (fun k => Html.Circle.y (iterate k (Html.move m W H) c))).
      intros k. apply Hstep.
  - intros m W H c n Hc. cbv zeta.
    assert (Hstep : forall k,
               Webgl.Circle.x (iterate (S k) (Webgl.updateCircle m W H) c)
                 = Webgl.Circle.x (iterate k (Webgl.updateCircle m W H) c)
                   + (px m - Webgl.Circle.x (iterate k (Webgl.updateCircle m W H) c)) * 0.1 /\
               Webgl.Circle.y (iterate (S k) (Webgl.updateCircle m W H) c)
                 = Webgl.Circle.y (iterate k (Webgl.updateCircle m W H) c)
                   + (py m - Webgl.Circle.y (iterate k (Webgl.updateCircle m W H) c)) * 0.1).
    { intros k. cbn [iterate].
      rewrite WebglFacts.updateCircle_interactive; [cbn; split; reflexivity |].
      destruct (WebglFacts.iterate_updateCircle_fixed m W H c k)
        as (_ & _ & _ & _ & ->).
      exact Hc. }
    split.
    + apply (smoothing_closed_form (px m)
               (fun k => Webgl.Circle.x (iterate k (Webgl.updateCircle m W H) c))).
      intros k. apply Hstep.
    + apply (smoothing_closed_form (py m)
               (fun k => Webgl.Circle.y (iterate k (Webgl.updateCircle m W H) c))).
      intros k. apply Hstep.
Qed.

(** X9 after two steps from [(100, 0)] towards the origin: [x = 81]. *)
Lemma interactive_trajectory_witness :
  let c := Html.Circle.new 100 0 15 None (mkPoint 0 0) true in
  let m := mkPoint 0 0 in
  Html.Circle.x (iterate 2 (Html.move m 100 50) c) = 0 + 0.9 ^ 2 * (100 - 0).
Proof.
  intros c m.
  exact (proj1 (proj1 interactive_trajectory m 100 50 c 2%nat eq_refl)).
Defined.

(** A teleport of [wrapped] starts and ends with the blob off the
    window. *)
Lemma wrapped_offscreen (v r limit : R) :
  0 <= r -> 0 <= limit -> wrapped v r limit <> v ->
  (v - r > limit \/ v + r < 0) /\
  (wrapped v r limit + r <= 0 \/ limit <= wrapped v r limit - r).
Proof.
  intros Hr Hl Hmoved.
  destruct (Rgt_dec (v - r) limit) as [Hfar | Hfar].
  - rewrite (wrapped_far v r limit Hfar). split; [left; exact Hfar | left; lra].
  - destruct (Rlt_dec (v + r) 0) as [Hnear | Hnear].
    + rewrite (wrapped_near v r limit Hr Hl Hnear). split; [right; exact Hnear | right; lra].
    + exfalso. apply Hmoved. apply wrapped_inside; assumption.
Qed.

(** X10.  A wrap is never seen: when a step of an ambient blob changes a
    coordinate by anything but the velocity, the disc of the blob was
    entirely beyond one edge of the window after the addition, and after
    the teleport it is entirely beyond the opposite edge, at most touching
    it.  In both components, for non-negative sizes and radii. *)
Theorem teleport_offscreen :
  (forall (m : Point) (W H : R) (c : Html.Circle.t),
      0 <= W -> 0 <= H -> 0 <= Html.Circle.radius c ->
      Html.Circle.isInteractive c = false ->
      let c' := Html.move m W H c in
      let r := Html.Circle.radius c in
      let ax := Html.Circle.x c + px (Html.Circle.velocity c) in
      let ay := Html.Circle.y c + py (Html.Circle.velocity c) in
      (Html.Circle.x c' <> ax ->
         (ax - r > W \/ ax + r < 0) /\
         (Html.Circle.x c' + r <= 0 \/ W <= Html.Circle.x c' - r)) /\
      (Html.Circle.y c' <> ay ->
         (ay - r > H \/ ay + r < 0) /\
         (Html.Circle.y c' + r <= 0 \/ H <= Html.Circle.y c' - r))) /\
  (forall (m : Point) (W H : R) (c : Webgl.Circle.t),
      0 <= W -> 0 <= H -> 0 <= Webgl.Circle.radius c ->
      Webgl.Circle.interactive c = false ->
      let c' := Webgl.updateCircle m W H c in
      let r := Webgl.Circle.radius c in
      let ax := Webgl.Circle.x c + Webgl.Circle.vx c in
      let ay := Webgl.Circle.y c + Webgl.Circle.vy c in
      (Webgl.Circle.x c' <> ax ->
         (ax - r > W \/ ax + r < 0) /\
         (Webgl.Circle.x c' + r <= 0 \/ W <= Webgl.Circle.x c' - r)) /\
      (Webgl.Circle.y c' <> ay ->
         (ay - r > H \/ ay + r < 0) /\
         (Webgl.Circle.y c' + r <= 0 \/ H <= Webgl.Circle.y c' - r))).
Proof.
  split.
  - intros m W H c HW HH Hr Hc. cbv zeta.
    rewrite (HtmlFacts.move_ambient m W H c Hc), HtmlFacts.update_eq.
    cbn [Html.Circle.x Html.Circle.y].
    split; intros Hmoved; apply wrapped_offscreen; assumption.
  - intros m W H c HW HH Hr Hc. cbv zeta.
    rewrite (WebglFacts.updateCircle_ambient m W H c Hc).
    cbn [Webgl.Circle.x Webgl.Circle.y].
    split; intros Hmoved; apply wrapped_offscreen; assumption.
Qed.

(** X10 at a blob of radius 30 that leaves a 100 x 50 window by the
    right: it was beyond the right edge and is now beyond the left one. *)
Lemma teleport_offscreen_witness :
  let c := Html.Circle.new 110 10 30 None (mkPoint 25 0) false in
  let c' := Html.move (mkPoint 0 0) 100 50 c in
  (110 + 25 - 30 > 100 \/ 110 + 25 + 30 < 0) /\
  (Html.Circle.x c' + 30 <= 0 \/ 100 <= Html.Circle.x c' - 30).
Proof.
  intros c c'.
  destruct (proj1 teleport_offscreen (mkPoint 0 0) 100 50 c) as [Hx _];
    [lra | lra | cbn; lra | reflexivity |].
  apply Hx. cbv zeta.
  rewrite (HtmlFacts.move_ambient _ 100 50 c eq_refl), HtmlFacts.update_eq.
  cbn [Html.Circle.x Html.Circle.radius Html.Circle.velocity px c].
  rewrite wrapped_far by lra. lra.
Defined.

(** ** The fragment shader: range of the colours *)

Lemma clamp_unit (v : R) : 0 <= Webgl.clamp v 0.0 1.0 <= 1.
Proof.
  unfold Webgl.clamp, Rmin, Rmax.
  destruct (Rle_dec v 0.0); destruct (Rle_dec _ 1.0); lra.
Qed.



Lemma mix_within (lo hi : R) (a b : Webgl.Vec3) (t : R) :
  within lo hi a -> within lo hi b -> 0 <= t <= 1 ->
  within lo hi (Webgl.mix a b t).
Proof.
  intros (Ha1 & Ha2 & Ha3) (Hb1 & Hb2 & Hb3) Ht.
  unfold within, Webgl.mix, Webgl.vadd, Webgl.vscale; cbn.
  repeat split; nra.
Qed.



Lemma armColor_mix (a : Webgl.Arm) (bg fc : Webgl.Vec3) (i : R) :
  Webgl.armColor a bg fc i = Webgl.mix bg fc (Webgl.clamp i 0.0 1.0).
Proof. destruct a; reflexivity. Qed.

(** The loop over some slots, from an accumulator whose colour sum lies
    between [lo] and [hi] times its field sum: the field sum grows by the
    weight of every slot and the colour sum stays within these bounds. *)
Lemma fold_slots_within (u : Webgl.Uniforms) (st : R * R) (lo hi : R) :
  forall (idx : list nat) (f : R) (w : Webgl.Vec3),
    (forall i, In i idx -> within lo hi (slotColor u i)) ->
    within (lo * f) (hi * f) w ->
    let acc := fold_left (fun acc i => Webgl.slot u st i acc) idx (f, w) in
    f <= fst acc /\
    (forall i, In i idx -> f + slotValue u st i <= fst acc) /\
    within (lo * fst acc) (hi * fst acc) (snd acc).
Proof.
  induction idx as [| i idx IH]; intros f w Hcol Hw; cbn [fold_left].
  - cbn. split; [lra |]. split; [intros i [] | exact Hw].
  - rewrite slot_eq. cbn [fst snd].
    pose proof (slotValue_pos u st i) as Hv.
    destruct (IH (f + slotValue u st i)
                 (Webgl.vadd w (Webgl.vscale (slotColor u i) (slotValue u st i))))
      as (Hge & Hall & Hwithin).
    + intros j Hj. apply Hcol. right. exact Hj.
    + destruct (Hcol i (or_introl eq_refl)) as (Hc1 & Hc2 & Hc3).
      destruct Hw as (Hw1 & Hw2 & Hw3).
      set (v := slotValue u st i) in *.
      destruct (slotColor u i) as [cr cg cb]. destruct w as [wr wg wb].
      unfold within, Webgl.vadd, Webgl.vscale; cbn in *.
      assert (0 <= (cr - lo) * v /\ 0 <= (hi - cr) * v /\
              0 <= (cg - lo) * v /\ 0 <= (hi - cg) * v /\
              0 <= (cb - lo) * v /\ 0 <= (hi - cb) * v) as (? & ? & ? & ? & ? & ?)
        by (repeat split; apply Rmult_le_pos; lra).
      repeat split; lra.
    + split; [lra |]. split; [| exact Hwithin].
      intros j [<- | Hj]; [exact Hge |].
      specialize (Hall j Hj). lra.
Qed.

Lemma quotient_between (lo hi w f : R) :
  f > 0 -> lo * f <= w <= hi * f -> lo <= w / f /\ w / f <= hi.
Proof.
  intros Hf [Hlo Hhi].
  assert (Hq : w / f * f = w).
  { unfold Rdiv. rewrite Rmult_assoc, Rinv_l, Rmult_1_r by lra. reflexivity. }
  split; apply (Rmult_le_reg_r f); try lra.
Qed.

Lemma visited_nonempty (u : Webgl.Uniforms) :
  (1 <= Webgl.u_circleCount u)%Z -> In 0%nat (Webgl.visited u).
Proof.
  intros Hcount.
  rewrite (visited_seq u (Z.to_nat (Webgl.u_circleCount u)))
    by (symmetry; apply Z2Nat.id; lia).
  apply in_seq. split; [lia |].
  assert (1 <= Z.to_nat (Webgl.u_circleCount u))%nat by lia. lia.
Qed.

(** The field at a sample point: positive as soon as a slot is visited,
    and the resolved colour within the bounds of the colours visited. *)
Lemma resolved_within (u : Webgl.Uniforms) (st : R * R) (lo hi : R) :
  (1 <= Webgl.u_circleCount u)%Z ->
  (forall i, In i (Webgl.visited u) -> within lo hi (slotColor u i)) ->
  fst (Webgl.accumulate u st) > 0 /\
  within lo hi (Webgl.finalCirclesColor (Webgl.accumulate u st)).
Proof.
  intros Hcount Hcol. rewrite accumulate_visited.
  destruct (fold_slots_within u st lo hi (Webgl.visited u) 0 (Webgl.vec3 0 0 0) Hcol)
    as (_ & Hall & Hwithin).
  { unfold within; cbn. lra. }
  specialize (Hall 0%nat (visited_nonempty u Hcount)).
  pose proof (slotValue_pos u st 0) as Hv.
  destruct (fold_left _ _ _) as [f w]. cbn [fst snd] in *.
  split; [lra |].
  unfold Webgl.finalCirclesColor. destruct (Rgt_dec f 0) as [Hf | Hf]; [| lra].
  destruct Hwithin as (H1 & H2 & H3). destruct w as [wr wg wb]. cbn in *.
  unfold within, Webgl.vdiv; cbn.
  split; [| split]; apply quotient_between; assumption.
Qed.



Lemma palette_unit (i : nat) (col : Webgl.Vec3) :
  nth_error Webgl.circleColors i = Some col -> within 0 1 col.
Proof.
  intros Hi.
  do 6 (destruct i as [| i];
        [cbn in Hi; injection Hi as <-; unfold within; cbn; lra |]).
  destruct i; discriminate Hi.
Qed.

Lemma bgColor_unit (u : Webgl.Uniforms) (v_uv : R * R) :
  snd (Webgl.u_resolution u) <> 0 -> 0 <= snd v_uv <= 1 ->
  within 0 1 (Webgl.bgColor u (fst v_uv * fst (Webgl.u_resolution u),
                               snd v_uv * snd (Webgl.u_resolution u))).
Proof.
  intros Hres Hy. unfold Webgl.bgColor. cbn [snd].
  replace (snd v_uv * snd (Webgl.u_resolution u) / snd (Webgl.u_resolution u))
    with (snd v_uv) by (field; exact Hres).
  apply mix_within; [unfold within; cbn; lra | unfold within; cbn; lra | exact Hy].
Qed.

(** The colour of a pixel is a colour when the colours of the slots
    visited are. *)
Lemma fragment_unit (u : Webgl.Uniforms) (v_uv : R * R) :
  (forall i, In i (Webgl.visited u) -> within 0 1 (slotColor u i)) ->
  snd (Webgl.u_resolution u) <> 0 -> 0 <= snd v_uv <= 1 ->
  within 0 1 (fst (Webgl.fragment u v_uv)) /\ snd (Webgl.fragment u v_uv) = 1.
Proof.
  intros Hcol Hres Hy. unfold Webgl.fragment. cbn [fst snd].
  split; [| lra]. rewrite armColor_mix.
  apply mix_within; [apply bgColor_unit; assumption | | apply clamp_unit].
  destruct (Z_lt_le_dec (Webgl.u_circleCount u) 1) as [Hnone | Hsome].
  - assert (Hvis : Webgl.visited u = []).
    { unfold Webgl.visited. cbn.
      assert (Hstop : Webgl.stopAt u 0 = true)
        by (unfold Webgl.stopAt; apply Z.leb_le; cbn; lia).
      rewrite Hstop. reflexivity. }
    rewrite accumulate_visited, Hvis. cbn.
    destruct (Rgt_dec 0 0); [lra |]. unfold within; cbn. lra.
  - apply resolved_within; assumption.
Qed.

(** X12.  The shader needs no clamp on its output: [render], given a
    scene and a window of non-zero height, draws a frame in which every
    pixel of the canvas ([0 <= v_uv.y <= 1]) has its three colour
    components in [[0, 1]] and alpha [1]. *)
Theorem frame_colours_in_gamut (h : Host) (c : Webgl.Closure) :
  Webgl.linked (Webgl.gl c) = true ->
  webglScene (Webgl.circles c) ->
  Webgl.height c <> 0 ->
  exists u : Webgl.Uniforms,
    Webgl.frames (Webgl.gl (snd (fst (Webgl.render h c))))
      = Webgl.frames (Webgl.gl c) ++ [u] /\
    forall v_uv : R * R,
      0 <= snd v_uv <= 1 ->
      within 0 1 (fst (Webgl.fragment u v_uv)) /\ snd (Webgl.fragment u v_uv) = 1.
Proof.
  intros Hlinked Hscene Hheight.
  apply (webglScene_update (Webgl.mouse c) (Webgl.width c) (Webgl.height c))
    in Hscene.
  destruct (webglScene_colors _ Hscene) as [Hlen Hcol].
  destruct (pack_slots _ (Nat.eq_le_incl _ _ Hlen) Hcol)
    as (colorsArr & posRadArr & Hpack & Hreal & _).
  rewrite (render_linked h c colorsArr posRadArr Hlinked Hpack). cbn [fst snd].
  set (u := uploaded h c colorsArr posRadArr).
  exists u. split; [reflexivity |].
  intros v_uv Hy. apply fragment_unit; [| exact Hheight | exact Hy].
  intros i Hi.
  assert (Hcount : Webgl.u_circleCount u = Z.of_nat 6)
    by (unfold u, uploaded; cbn [Webgl.u_circleCount]; rewrite Hlen; reflexivity).
  rewrite (visited_seq u 6 Hcount) in Hi. apply in_seq in Hi.
  set (cs := Webgl.updateCircles (Webgl.mouse c) (Webgl.width c)
                                 (Webgl.height c) (Webgl.circles c)) in *.
  destruct (nth_error cs i) as [b |] eqn:Hb;
    [| apply nth_error_None in Hb; cbn in Hi; lia].
  destruct (Hreal i b Hb) as [Hc _].
  unfold slotColor. cbn [uploaded u Webgl.u_circlesColor]. rewrite Hc.
  destruct Hscene as [_ Hpal].
  assert (Hnth : nth_error (map Webgl.Circle.color cs) i
                 = Some (Webgl.Circle.color b))
    by (rewrite nth_error_map, Hb; reflexivity).
  rewrite Hpal, nth_error_map in Hnth.
  destruct (nth_error Webgl.circleColors i) as [col |] eqn:Hcolour;
    [| discriminate Hnth].
  cbn in Hnth. injection Hnth as Hcol'.
  unfold Reference.blobColor. rewrite <- Hcol'.
  exact (palette_unit i col Hcolour).
Qed.

(** X12 on the scene of a 100 x 50 window. *)
Lemma frame_colours_in_gamut_witness :
  let h := mkHost 100 50 false true true "" [] [] 0 (fun _ => 0.25) 0 [] false in
  let g := Webgl.mkGL true (100, 50) Webgl.noUniforms [] in
  let c := Webgl.mkClosure g 100 50 (mkPoint 50 25)
             (fst (Webgl.initCircles (fun _ => 0.25) 0 100 50)) in
  exists u : Webgl.Uniforms,
    Webgl.frames (Webgl.gl (snd (fst (Webgl.render h c)))) = [u] /\
    within 0 1 (fst (Webgl.fragment u (0.5, 0.5))).
Proof.
  intros h g c.
  destruct (frame_colours_in_gamut h c eq_refl
              (webglScene_init (fun _ => 0.25) 0 100 50))
    as (u & Hframes & Hpix).
  { cbn. lra. }
  exists u. split; [exact Hframes |].
  apply Hpix. cbn. lra.
Defined.

(** ** The fragment shader: centres, empty scenes, over-full scenes *)









(** Every round of the packing loop that does not throw appends three
    numbers to each array. *)
Lemma pack_rounds (xs : list Webgl.Circle.t) :
  forall (idx : list nat) (acc : option (list R * list R)) (ca pa : list R),
    fold_left (fun acc i => Webgl.packBody xs i acc) idx acc = Some (ca, pa) ->
    exists ca0 pa0,
      acc = Some (ca0, pa0) /\
      List.length ca = (List.length ca0 + 3 * List.length idx)%nat /\
      List.length pa = (List.length pa0 + 3 * List.length idx)%nat.
Proof.
  induction idx as [| i idx IH]; intros acc ca pa Hfold; cbn [fold_left] in Hfold.
  - exists ca, pa. cbn. repeat split; [exact Hfold | lia | lia].
  - destruct (IH _ ca pa Hfold) as (ca1 & pa1 & Hbody & Hca & Hpa).
    destruct acc as [[ca0 pa0] |]; [| discriminate Hbody].
    exists ca0, pa0. split; [reflexivity |].
    unfold Webgl.packBody in Hbody.
    destruct (i <? List.length xs)%nat.
    + destruct (nth_error xs i) as [c |]; [| discriminate Hbody].
      destruct (Webgl.Circle.color c) as [col |]; [| discriminate Hbody].
      injection Hbody as <- <-. rewrite length_app in Hca, Hpa. cbn in *. lia.
    + injection Hbody as <- <-. rewrite length_app in Hca, Hpa. cbn in *. lia.
Qed.

Lemma pack_first_six (a b c d e f : Webgl.Circle.t) (rest : list Webgl.Circle.t) :
  Webgl.pack (a :: b :: c :: d :: e :: f :: rest) = Webgl.pack [a; b; c; d; e; f].
Proof. reflexivity. Qed.

(** X15.  The uniform arrays always hold six slots: whenever the packing
    loop of [render] completes, each array has 18 numbers, whatever the
    number of circles.  And a scene of more than six circles is drawn as
    its first six: [u_circleCount] is the full length, the loop of the
    shader stops at its own bound of six, and the picture is that of the
    first six blobs; a seventh circle is never read. *)
Theorem six_slots_only :
  (forall (xs : list Webgl.Circle.t) (colorsArr posRadArr : list R),
      Webgl.pack xs = Some (colorsArr, posRadArr) ->
      List.length colorsArr = 18%nat /\ List.length posRadArr = 18%nat) /\
  (forall (h : Host) (c : Webgl.Closure),
      Webgl.linked (Webgl.gl c) = true ->
      (6 <= List.length (Webgl.circles c))%nat ->
      Forall (fun b => Webgl.Circle.color b <> None) (firstn 6 (Webgl.circles c)) ->
      let blobs := Webgl.circles (snd (fst (Webgl.render h c))) in
      exists u : Webgl.Uniforms,
        Webgl.frames (Webgl.gl (snd (fst (Webgl.render h c))))
          = Webgl.frames (Webgl.gl c) ++ [u] /\
        Webgl.u_circleCount u = Z.of_nat (List.length (Webgl.circles c)) /\
        Webgl.visited u = [0; 1; 2; 3; 4; 5]%nat /\
        forall v_uv : R * R,
          Webgl.fragment u v_uv
          = Reference.pixel (Webgl.u_resolution u) (firstn 6 blobs)
              (fst v_uv * fst (Webgl.u_resolution u),
               snd v_uv * snd (Webgl.u_resolution u))).
Proof.
  split.
  - intros xs ca pa Hpack. unfold Webgl.pack, forRange in Hpack.
    destruct (pack_rounds xs _ _ ca pa Hpack) as (ca0 & pa0 & Hacc & Hca & Hpa).
    injection Hacc as <- <-. cbn in Hca, Hpa. split; assumption.
  - intros h c Hlinked Hlen Hcol blobs.
    set (cs := Webgl.updateCircles (Webgl.mouse c) (Webgl.width c)
                                   (Webgl.height c) (Webgl.circles c)).
    assert (Hn : List.length cs = List.length (Webgl.circles c))
      by apply updateCircles_length.
    assert (Hcol6 : Forall (fun b => Webgl.Circle.color b <> None) (firstn 6 cs)).
    { unfold cs, Webgl.updateCircles. rewrite firstn_map.
      apply (updateCircles_colors (Webgl.mouse c) (Webgl.width c) (Webgl.height c)).
      exact Hcol. }
    assert (Hsix : exists a b c0 d e f rest, cs = a :: b :: c0 :: d :: e :: f :: rest).
    { destruct cs as [| a [| b [| c0 [| d [| e [| f rest]]]]]];
        try (cbn in Hn; lia). eauto 8. }
    destruct Hsix as (a & b & c0 & d & e & f & rest & Hcs).
    rewrite Hcs in Hcol6. cbn [firstn] in Hcol6.
    destruct (pack_slots [a; b; c0; d; e; f] (Nat.le_refl 6) Hcol6)
      as (colorsArr & posRadArr & Hpack & Hreal & _).
    assert (Hpack' : Webgl.pack cs = Some (colorsArr, posRadArr))
      by (rewrite Hcs, pack_first_six; exact Hpack).
    subst blobs. rewrite (render_linked h c colorsArr posRadArr Hlinked Hpack').
    cbn [fst snd Webgl.gl Webgl.frames Webgl.circles]. fold cs.
    set (u := uploaded h c colorsArr posRadArr).
    assert (Hcount : Webgl.u_circleCount u = Z.of_nat (List.length (Webgl.circles c))).
    { unfold u, uploaded; cbn [Webgl.u_circleCount]. fold cs. rewrite Hn. reflexivity. }
    assert (Hvis : Webgl.visited u = seq 0 6).
    { rewrite (visited_seq u _ Hcount). rewrite Nat.min_l by exact Hlen. reflexivity. }
    exists u. split; [reflexivity |]. split; [exact Hcount |].
    split; [exact Hvis |].
    intros v_uv. apply fragment_reference.
    rewrite accumulate_visited, Hvis, Hcs. cbn [firstn].
    unfold Reference.field.
    apply (fold_slots_blobs u _ [a; b; c0; d; e; f] 0).
    intros i blob Hi. cbn [Nat.add]. apply Hreal. exact Hi.
Qed.

(** X15 for eight copies of one blob. *)
Lemma six_slots_only_witness :
  let h := mkHost 4 2 false true true "" [] [] 0 (fun _ => 0) 0 [] false in
  let g := Webgl.mkGL true (4, 2) Webgl.noUniforms [] in
  let b := Webgl.Circle.new 1 1 2 (Some (Webgl.vec3 1 0 0)) 0 0 true in
  let c := Webgl.mkClosure g 4 2 (mkPoint 1 1) (repeat b 8) in
  exists u : Webgl.Uniforms,
    Webgl.frames (Webgl.gl (snd (fst (Webgl.render h c)))) = [u] /\
    Webgl.u_circleCount u = 8%Z /\
    Webgl.visited u = [0; 1; 2; 3; 4; 5]%nat.
Proof.
  intros h g b c.
  destruct (proj2 six_slots_only h c eq_refl) as (u & Hframes & Hcount & Hvis & _).
  - cbn. lia.
  - cbn. repeat constructor; discriminate.
  - exists u. repeat split; assumption.
Defined.

(** ** The vertex shader *)

(** X16.  The vertex shader lays pixel coordinates over the canvas with
    the origin in the top left corner, as the pointer has them: the clip
    square [[-1, 1] x [-1, 1]] goes to [v_uv] in the unit square with the
    vertical axis flipped, the four corners of the quad go to its four
    corners, and the fragment at the clip position of the pixel [(x, y)]
    of a [W x H] canvas samples the field at [st = (x, y)]. *)
Theorem vertex_pixel_coordinates :
  (forall a : R * R,
      -1 <= fst a <= 1 -> -1 <= snd a <= 1 ->
      (0 <= fst (fst (Webgl.vertex a)) <= 1) /\
      (0 <= snd (fst (Webgl.vertex a)) <= 1)) /\
  (forall a : R * R,
      snd (fst (Webgl.vertex (fst a, 1))) = 0 /\
      snd (fst (Webgl.vertex (fst a, -1))) = 1) /\
  Forall (fun a => (fst (fst (Webgl.vertex a)) = 0 \/ fst (fst (Webgl.vertex a)) = 1) /\
                   (snd (fst (Webgl.vertex a)) = 0 \/ snd (fst (Webgl.vertex a)) = 1))
         Webgl.vertices /\
  (forall (u : Webgl.Uniforms) (x y : R),
      fst (Webgl.u_resolution u) <> 0 -> snd (Webgl.u_resolution u) <> 0 ->
      let a := (2 * x / fst (Webgl.u_resolution u) - 1,
                1 - 2 * y / snd (Webgl.u_resolution u)) in
      let v_uv := fst (Webgl.vertex a) in
      fst v_uv * fst (Webgl.u_resolution u) = x /\
      snd v_uv * snd (Webgl.u_resolution u) = y /\
      Webgl.fragment u v_uv
      = (Webgl.armColor (Webgl.arm u) (Webgl.bgColor u (x, y))
           (Webgl.finalCirclesColor (Webgl.accumulate u (x, y)))
           (Webgl.pow (fst (Webgl.accumulate u (x, y))) 1.4),
         1.0)).
Proof.
  split; [| split; [| split]].
  - intros [ax ay] Hx Hy. unfold Webgl.vertex; cbn in *. lra.
  - intros [ax ay]. unfold Webgl.vertex; cbn. lra.
  - unfold Webgl.vertices.
    repeat (apply Forall_cons; [unfold Webgl.vertex; cbn; lra |]).
    apply Forall_nil.
  - intros u x y HW HH a v_uv.
    assert (Ex : fst v_uv * fst (Webgl.u_resolution u) = x).
    { unfold v_uv, a, Webgl.vertex; cbn.
      replace 0.5 with (/ 2) by lra. field. exact HW. }
    assert (Ey : snd v_uv * snd (Webgl.u_resolution u) = y).
    { unfold v_uv, a, Webgl.vertex; cbn.
      replace 0.5 with (/ 2) by lra. replace 1.0 with 1 by lra. field. exact HH. }
    split; [exact Ex |]. split; [exact Ey |].
    unfold Webgl.fragment. rewrite Ex, Ey. reflexivity.
Qed.

(** X16 for the pixel [(30, 10)] of a 100 x 50 canvas. *)
Lemma vertex_pixel_coordinates_witness :
  let u := {| Webgl.u_resolution := (100, 50); Webgl.u_darkMode := 0%Z;
              Webgl.u_circleCount := 0%Z; Webgl.u_circlesColor := [];
              Webgl.u_circlesPosRad := []; Webgl.u_mouse := (0, 0) |} in
  let v_uv := fst (Webgl.vertex (2 * 30 / 100 - 1, 1 - 2 * 10 / 50)) in
  fst v_uv * 100 = 30 /\ snd v_uv * 50 = 10.
Proof.
  intros u v_uv.
  destruct (proj2 (proj2 (proj2 vertex_pixel_coordinates)) u 30 10) as (Hx & Hy & _).
  - cbn. lra.
  - cbn. lra.
  - split; [exact Hx | exact Hy].
Defined.

(** ** Diagnostics and the frame loop *)










